(** * fuel-ostf-tests: the run/test storage model and the timeout and polling
    primitives, embedded in Rocq.

    Sources embedded here:
    - [fuel_health/test.py]: [ExecutionTimeout], [call_until_true];
    - [fuel_plugin/ostf_adapter/storage/models.py]: [TestRun], [TestSet],
      [Test].

    Conventions.  A nullable column or a Python value that may be [None] is an
    [option]; a point in time ([time.time()], [datetime.utcnow()]) is an
    integer number of clock ticks; a value of a [Float] column is an IEEE 754
    value ([spec_float]); the SQL tables of the session are lists of rows in
    insertion order. *)

From Stdlib Require Import String Ascii DecimalString.
From Stdlib Require Import ZArith List Bool Lia.
From Stdlib Require Import SpecFloat.
From Stdlib Require Import Permutation Sorted.
Import ListNotations.
Open Scope Z_scope.

(* ===================================================================== *)
(** ** [fuel_health/test.py]: [call_until_true] *)
(* ===================================================================== *)

Module Poller.

(** What an observer of one poll sees, in order. *)
Inductive event : Type :=
| Invoke (truthy : bool)      (* [func()] returned, with this truth value *)
| InvokeRaised                (* [func()] raised *)
| Sleep (seconds : Z).        (* [time.sleep(sleep_for)] *)

Inductive outcome (Exn : Type) : Type :=
| Returned (b : bool)
| Raised (e : Exn).
Arguments Returned {Exn} b.
Arguments Raised {Exn} e.

Section CallUntilTrue.
(** The environment of the poll: everything [func] can touch, and the
    clock. *)
Variable World : Type.
Variable Exn : Type.
(** [time.time()] *)
Variable time : World -> Z.
(** [func()]: its truth value or the exception it raises, and its effect. *)
Variable func : World -> (Exn + bool) * World.
(** [time.sleep(d)] *)
Variable sleep : Z -> World -> World.

(** The [while now < timeout] loop.  [fuel] bounds the number of times the
    loop body is entered; the guard is tested before any fuel is used. *)
Fixpoint poll_loop (fuel : nat) (timeout sleep_for now : Z) (w : World)
  : option (outcome Exn * list event * World) :=
  if now <? timeout then
    match fuel with
    | O => None
    | S fuel' =>
        match func w with
        | (inl e, w1) => Some (Raised e, [InvokeRaised], w1)
        | (inr true, w1) => Some (Returned true, [Invoke true], w1)
        | (inr false, w1) =>
            let w2 := sleep sleep_for w1 in
            let now := time w2 in
            match poll_loop fuel' timeout sleep_for now w2 with
            | Some (r, tr, w3) =>
                Some (r, Invoke false :: Sleep sleep_for :: tr, w3)
            | None => None
            end
        end
    end
  else Some (Returned false, [], w).

Definition call_until_true (fuel : nat) (duration sleep_for : Z) (w : World)
  : option (outcome Exn * list event * World) :=
  let now := time w in
  let timeout := now + duration in
  poll_loop fuel timeout sleep_for now w.

(** The world after [k] unsuccessful rounds (invoke, then sleep). *)
Fixpoint rounds (k : nat) (sleep_for : Z) (w : World) : World :=
  match k with
  | O => w
  | S k' => rounds k' sleep_for (sleep sleep_for (snd (func w)))
  end.

(** The events of [k] unsuccessful rounds. *)
Fixpoint failed_rounds (k : nat) (sleep_for : Z) : list event :=
  match k with
  | O => []
  | S k' => Invoke false :: Sleep sleep_for :: failed_rounds k' sleep_for
  end.

Definition invocations (tr : list event) : nat :=
  length (filter (fun e => match e with Sleep _ => false | _ => true end) tr).

Lemma invocations_failed_rounds k s tl :
  invocations (failed_rounds k s ++ tl) = (k + invocations tl)%nat.
Proof.
  induction k as [|k IH]; simpl; [reflexivity|].
  unfold invocations in *. simpl. now rewrite IH.
Qed.

Lemma rounds_succ k s w :
  rounds (S k) s w = sleep s (snd (func (rounds k s w))).
Proof.
  revert w. induction k as [|k IH]; intros w; [reflexivity|].
  change (rounds (S (S k)) s w)
    with (rounds (S k) s (sleep s (snd (func w)))).
  now rewrite IH.
Qed.

(** The loop, started at world [w] with [now] read from [w], after [k]
    unsuccessful rounds that all began inside the budget. *)
Lemma poll_loop_rounds k : forall fuel timeout s w,
  (forall i, (i < k)%nat ->
     time (rounds i s w) < timeout /\ fst (func (rounds i s w)) = inr false) ->
  poll_loop (k + fuel) timeout s (time w) w =
  match poll_loop fuel timeout s (time (rounds k s w)) (rounds k s w) with
  | Some (r, tr, w') => Some (r, failed_rounds k s ++ tr, w')
  | None => None
  end.
Proof.
  induction k as [|k IH]; intros fuel timeout s w H.
  - simpl. destruct (poll_loop fuel timeout s (time w) w) as [[[r tr] w']|];
      reflexivity.
  - destruct (H 0%nat ltac:(lia)) as [Hlt Hf]. simpl in Hlt, Hf.
    change (S k + fuel)%nat with (S (k + fuel)).
    cbn [poll_loop]. apply Z.ltb_lt in Hlt. rewrite Hlt.
    destruct (func w) as [[e|b] w1] eqn:Hfw; simpl in Hf; try discriminate.
    injection Hf as ->.
    cbn [rounds]. rewrite Hfw. cbn [snd].
    rewrite IH.
    + destruct (poll_loop fuel timeout s _ _) as [[[r tr] w']|]; reflexivity.
    + intros i Hi. specialize (H (S i) ltac:(lia)).
      cbn [rounds] in H. rewrite Hfw in H. exact H.
Qed.

(** With a positive interval, a [sleep] that lasts at least as long as
    asked and a clock that never runs backwards, the loop ends: fuel
    proportional to the budget is enough. *)
Lemma poll_loop_total s :
  0 < s ->
  (forall w, time w + s <= time (sleep s w)) ->
  (forall w, time w <= time (snd (func w))) ->
  forall fuel timeout w,
    timeout - time w <= Z.of_nat fuel * s ->
    poll_loop fuel timeout s (time w) w <> None.
Proof.
  intros Hs Hsleep Hfunc.
  induction fuel as [|fuel IH]; intros timeout w Hb; cbn [poll_loop].
  - destruct (Z.ltb_spec (time w) timeout); [lia | discriminate].
  - destruct (Z.ltb_spec (time w) timeout); [| discriminate].
    pose proof (Hfunc w) as Hm.
    destruct (func w) as [[e|[|]] w1]; try discriminate.
    cbn [snd] in Hm.
    pose proof (Hsleep w1) as Hsl.
    specialize (IH timeout (sleep s w1) ltac:(nia)).
    destruct (poll_loop fuel timeout s _ _) as [[[r tr] w3]|];
      [discriminate | contradiction].
Qed.

Lemma call_until_true_total duration s w :
  0 < s ->
  (forall w, time w + s <= time (sleep s w)) ->
  (forall w, time w <= time (snd (func w))) ->
  exists fuel, call_until_true fuel duration s w <> None.
Proof.
  intros Hs Hsleep Hfunc.
  exists (Z.to_nat duration). unfold call_until_true.
  apply poll_loop_total; try assumption.
  assert (duration <= Z.of_nat (Z.to_nat duration)) by lia.
  nia.
Qed.

End CallUntilTrue.

Arguments poll_loop {World Exn} time func sleep fuel timeout sleep_for now w.
Arguments call_until_true {World Exn} time func sleep fuel duration sleep_for w.
Arguments rounds {World Exn} func sleep k sleep_for w.
Arguments invocations tr : simpl never.

(** A concrete environment: a clock and the number of invocations made so
    far; the predicate becomes true on its [n]-th invocation and takes no
    time, sleeping advances the clock by the requested amount. *)
Module Scenario.
Record world : Type := { clock : Z; calls : nat }.

Definition time (w : world) : Z := clock w.

Definition true_on (n : nat) (w : world) : (Empty_set + bool) * world :=
  let c := S (calls w) in
  (inr (Nat.eqb c n), {| clock := clock w; calls := c |}).

Definition sleep (d : Z) (w : world) : world :=
  {| clock := clock w + d; calls := calls w |}.

Definition start : world := {| clock := 1000; calls := 0 |}.
End Scenario.

(** *** Properties of the poller *)

(** C8.  Let the first [k] invocations of the predicate be unsuccessful and
    begin inside the budget (the clock read before the first invocation, plus
    [duration]).  If invocation [k+1] begins inside the budget and returns
    true, [call_until_true] returns [True] right after it: the predicate was
    invoked exactly [k+1] times, [sleep_for] was slept after each of the [k]
    unsuccessful invocations and not after the successful one.  If instead
    the time elapsed since the reading taken before the first invocation has
    reached [duration] when the guard is tested after round [k], it returns
    [False] with exactly [k] invocations: the predicate is not invoked
    again. *)
Theorem call_until_true_spec
  (World Exn : Type) (time : World -> Z)
  (func : World -> (Exn + bool) * World) (sleep : Z -> World -> World)
  (k : nat) (duration sleep_for : Z) (w : World) :
  (forall i, (i < k)%nat ->
     time (rounds func sleep i sleep_for w) < time w + duration /\
     fst (func (rounds func sleep i sleep_for w)) = inr false) ->
  let wk := rounds func sleep k sleep_for w in
  (time wk - time w < duration -> fst (func wk) = inr true ->
   forall fuel, (k < fuel)%nat ->
     call_until_true time func sleep fuel duration sleep_for w =
       Some (Returned true,
             failed_rounds k sleep_for ++ [Invoke true],
             snd (func wk)) /\
     invocations (failed_rounds k sleep_for ++ [Invoke true]) = S k) /\
  (duration <= time wk - time w ->
   forall fuel, (k <= fuel)%nat ->
     call_until_true time func sleep fuel duration sleep_for w =
       Some (Returned false, failed_rounds k sleep_for, wk) /\
     invocations (failed_rounds k sleep_for) = k).
Proof.
  intros H wk. split.
  - intros Hlt Htrue fuel Hfuel. split.
    + unfold call_until_true.
      replace fuel with (k + S (fuel - S k))%nat by lia.
      rewrite (poll_loop_rounds _ _ time func sleep k) by exact H.
      fold wk. cbn [poll_loop].
      replace (time wk <? time w + duration) with true
        by (symmetry; apply Z.ltb_lt; lia).
      destruct (func wk) as [[e|b] w1]; simpl in Htrue; try discriminate.
      injection Htrue as ->. reflexivity.
    + rewrite invocations_failed_rounds. unfold invocations. simpl. lia.
  - intros Hge fuel Hfuel. split.
    + unfold call_until_true.
      replace fuel with (k + (fuel - k))%nat by lia.
      rewrite (poll_loop_rounds _ _ time func sleep k) by exact H.
      fold wk.
      replace (poll_loop time func sleep (fuel - k) (time w + duration)
                 sleep_for (time wk) wk)
        with (Some (Returned (Exn:=Exn) false, @nil event, wk)).
      * now rewrite app_nil_r.
      * destruct (fuel - k)%nat; cbn [poll_loop];
          replace (time wk <? time w + duration) with false
            by (symmetry; apply Z.ltb_ge; lia); reflexivity.
    + rewrite <- (app_nil_r (failed_rounds k sleep_for)).
      rewrite invocations_failed_rounds. unfold invocations. simpl. lia.
Qed.

(** Scenario D: the predicate is true on its 3rd call, the interval is 1 and
    the budget 10: success after exactly 3 invocations and 2 sleeps. *)
Lemma call_until_true_spec_witness :
  call_until_true Scenario.time (Scenario.true_on 3) Scenario.sleep
    3 10 1 Scenario.start =
  Some (Returned true,
        [Invoke false; Sleep 1; Invoke false; Sleep 1; Invoke true],
        {| Scenario.clock := 1002; Scenario.calls := 3 |}).
Proof.
  refine (proj1 (proj1 (call_until_true_spec _ _ Scenario.time
            (Scenario.true_on 3) Scenario.sleep 2 10 1 Scenario.start _)
            _ _ 3%nat _)).
  - intros i Hi. destruct i as [|[|i]]; [vm_compute; auto .. | lia].
  - vm_compute. reflexivity.
  - reflexivity.
  - lia.
Defined.

(** C10.  With a budget that is zero or negative the guard fails on its
    first test: [False] is returned, the predicate is never invoked, nothing
    is slept and the environment is left as it was. *)
Theorem call_until_true_nonpositive_budget
  (World Exn : Type) (time : World -> Z)
  (func : World -> (Exn + bool) * World) (sleep : Z -> World -> World)
  (duration sleep_for : Z) (w : World) (fuel : nat) :
  duration <= 0 ->
  call_until_true time func sleep fuel duration sleep_for w =
    Some (Returned false, [], w).
Proof.
  intros Hd. unfold call_until_true.
  destruct fuel; cbn [poll_loop];
    replace (time w <? time w + duration) with false
      by (symmetry; apply Z.ltb_ge; lia); reflexivity.
Qed.

Lemma call_until_true_nonpositive_budget_witness :
  call_until_true Scenario.time (Scenario.true_on 1) Scenario.sleep
    0 (-5) 1 Scenario.start =
  Some (Returned false, [], Scenario.start).
Proof.
  apply (call_until_true_nonpositive_budget _ _ Scenario.time
           (Scenario.true_on 1) Scenario.sleep (-5) 1 Scenario.start 0).
  lia.
Defined.

(** *** Further properties of the poller *)

(** Reading a result backwards: whatever [call_until_true] returns, some
    number [k] of unsuccessful rounds were made inside the budget, and the
    result is decided by what happens at round [k+1]. *)
Lemma poll_loop_inv
  (World Exn : Type) (time : World -> Z)
  (func : World -> (Exn + bool) * World) (sleep : Z -> World -> World)
  (timeout s : Z) (fuel : nat) : forall w r tr w',
  poll_loop time func sleep fuel timeout s (time w) w = Some (r, tr, w') ->
  exists k,
    (k <= fuel)%nat /\
    (forall i, (i < k)%nat ->
       time (rounds func sleep i s w) < timeout /\
       fst (func (rounds func sleep i s w)) = inr false) /\
    let wk := rounds func sleep k s w in
    match r with
    | Returned true =>
        time wk < timeout /\ fst (func wk) = inr true /\
        w' = snd (func wk) /\ tr = failed_rounds k s ++ [Invoke true]
    | Returned false =>
        timeout <= time wk /\ w' = wk /\ tr = failed_rounds k s
    | Raised e =>
        time wk < timeout /\ fst (func wk) = inl e /\
        w' = snd (func wk) /\ tr = failed_rounds k s ++ [InvokeRaised]
    end.
Proof.
  induction fuel as [|fuel IH]; intros w r tr w' H; cbn [poll_loop] in H.
  - destruct (Z.ltb_spec (time w) timeout) as [Hlt|Hge]; [discriminate|].
    injection H as <- <- <-. exists 0%nat.
    split; [lia|]. split; [intros i Hi; lia|]. cbn. auto.
  - destruct (Z.ltb_spec (time w) timeout) as [Hlt|Hge].
    + destruct (func w) as [[e|[|]] w1] eqn:Hf.
      * injection H as <- <- <-. exists 0%nat.
        split; [lia|]. split; [intros i Hi; lia|].
        cbn. rewrite Hf. auto.
      * injection H as <- <- <-. exists 0%nat.
        split; [lia|]. split; [intros i Hi; lia|].
        cbn. rewrite Hf. auto.
      * destruct (poll_loop time func sleep fuel timeout s
                    (time (sleep s w1)) (sleep s w1))
          as [[[r1 tr1] w3]|] eqn:Hrec; [|discriminate].
        injection H as <- <- <-.
        destruct (IH _ _ _ _ Hrec) as [k [Hk [Hrounds Hend]]].
        exists (S k). split; [lia|]. split.
        -- intros i Hi. destruct i as [|i].
           ++ cbn. rewrite Hf. auto.
           ++ cbn [rounds]. rewrite Hf. cbn [snd]. apply Hrounds. lia.
        -- cbn [rounds failed_rounds]. rewrite Hf. cbn [snd].
           cbn zeta in Hend.
           destruct r1 as [[|]|e];
             repeat match goal with
                    | H : _ /\ _ |- _ => destruct H
                    end; subst; repeat split; auto.
    + injection H as <- <- <-. exists 0%nat.
      split; [lia|]. split; [intros i Hi; lia|]. cbn. auto.
Qed.

Lemma rounds_time
  (World Exn : Type) (time : World -> Z)
  (func : World -> (Exn + bool) * World) (sleep : Z -> World -> World)
  (s : Z) :
  (forall w, time w + s <= time (sleep s w)) ->
  (forall w, time w <= time (snd (func w))) ->
  forall k w, time w + Z.of_nat k * s <= time (rounds func sleep k s w).
Proof.
  intros Hsleep Hfunc. induction k as [|k IH]; intros w.
  - cbn. lia.
  - cbn [rounds].
    specialize (IH (sleep s (snd (func w)))).
    pose proof (Hsleep (snd (func w))). pose proof (Hfunc w). nia.
Qed.

(** What a result tells the caller.  [True] is returned only right after an
    invocation that returned true and began inside the budget; [False] only
    when every invocation returned false and the clock, read after the last
    sleep, has reached the deadline; an exception only as the predicate
    raised it, with no sleep after it.  In each case every earlier invocation
    returned false and was followed by one sleep of [sleep_for]. *)
Theorem call_until_true_result
  (World Exn : Type) (time : World -> Z)
  (func : World -> (Exn + bool) * World) (sleep : Z -> World -> World)
  (fuel : nat) (duration sleep_for : Z) (w : World)
  (r : outcome Exn) (tr : list event) (w' : World) :
  call_until_true time func sleep fuel duration sleep_for w =
    Some (r, tr, w') ->
  exists k,
    (forall i, (i < k)%nat ->
       fst (func (rounds func sleep i sleep_for w)) = inr false) /\
    let wk := rounds func sleep k sleep_for w in
    match r with
    | Returned true =>
        time wk - time w < duration /\ fst (func wk) = inr true /\
        w' = snd (func wk) /\
        tr = failed_rounds k sleep_for ++ [Invoke true]
    | Returned false =>
        duration <= time w' - time w /\ w' = wk /\
        tr = failed_rounds k sleep_for
    | Raised e =>
        time wk - time w < duration /\ fst (func wk) = inl e /\
        w' = snd (func wk) /\
        tr = failed_rounds k sleep_for ++ [InvokeRaised]
    end.
Proof.
  unfold call_until_true. intros H.
  destruct (poll_loop_inv _ _ _ _ _ _ _ _ _ _ _ _ H)
    as [k [_ [Hrounds Hend]]].
  exists k. split; [intros i Hi; apply Hrounds; exact Hi|].
  cbn zeta in *. destruct r as [[|]|e].
  - destruct Hend as [H1 [H2 [H3 H4]]]. repeat split; auto. lia.
  - destruct Hend as [H1 [H2 H3]]. subst w'. repeat split; auto. lia.
  - destruct Hend as [H1 [H2 [H3 H4]]]. repeat split; auto. lia.
Qed.

Lemma call_until_true_result_witness :
  exists k,
    let wk := rounds (Scenario.true_on 3) Scenario.sleep k 1 Scenario.start in
    Scenario.clock wk - 1000 < 10 /\
    fst (Scenario.true_on 3 wk) = inr true.
Proof.
  destruct (call_until_true_result _ _ Scenario.time (Scenario.true_on 3)
              Scenario.sleep 3 10 1 Scenario.start
              (Returned true)
              [Invoke false; Sleep 1; Invoke false; Sleep 1; Invoke true]
              {| Scenario.clock := 1002; Scenario.calls := 3 |} eq_refl)
    as [k [_ [H1 [H2 _]]]].
  exists k. split; [exact H1 | exact H2].
Defined.

(** The poll ends, and the budget bounds the number of invocations.  With a
    positive interval, a [sleep] that lasts at least as long as asked and a
    clock that never runs backwards, [Z.to_nat duration] iterations are
    always enough for a result, and a poll that invoked the predicate [n]
    times began its last invocation less than [duration] after the start:
    [(n - 1) * sleep_for < duration]. *)
Theorem call_until_true_bounded
  (World Exn : Type) (time : World -> Z)
  (func : World -> (Exn + bool) * World) (sleep : Z -> World -> World)
  (duration sleep_for : Z) (w : World) :
  0 < sleep_for ->
  (forall w, time w + sleep_for <= time (sleep sleep_for w)) ->
  (forall w, time w <= time (snd (func w))) ->
  forall fuel, (Z.to_nat duration <= fuel)%nat ->
  exists r tr w',
    call_until_true time func sleep fuel duration sleep_for w =
      Some (r, tr, w') /\
    (invocations tr = 0%nat \/
     (Z.of_nat (invocations tr) - 1) * sleep_for < duration).
Proof.
  intros Hs Hsleep Hfunc fuel Hfuel.
  destruct (call_until_true time func sleep fuel duration sleep_for w)
    as [[[r tr] w']|] eqn:Hres.
  - exists r, tr, w'. split; [reflexivity|].
    unfold call_until_true in Hres.
    destruct (poll_loop_inv _ _ _ _ _ _ _ _ _ _ _ _ Hres)
      as [k [_ [Hrounds Hend]]].
    pose proof (rounds_time _ _ time func sleep sleep_for Hsleep Hfunc)
      as Htime.
    cbn zeta in Hend. destruct r as [[|]|e].
    + destruct Hend as [H1 [_ [_ ->]]]. right.
      rewrite invocations_failed_rounds. unfold invocations. cbn.
      specialize (Htime k w). nia.
    + destruct Hend as [_ [_ ->]].
      rewrite <- (app_nil_r (failed_rounds k sleep_for)).
      rewrite invocations_failed_rounds. unfold invocations. cbn.
      destruct k as [|k]; [left; lia|]. right.
      destruct (Hrounds k ltac:(lia)) as [Hlt _].
      specialize (Htime k w). nia.
    + destruct Hend as [H1 [_ [_ ->]]]. right.
      rewrite invocations_failed_rounds. unfold invocations. cbn.
      specialize (Htime k w). nia.
  - exfalso. unfold call_until_true in Hres.
    refine (poll_loop_total _ _ time func sleep sleep_for Hs Hsleep Hfunc
              fuel (time w + duration) w _ Hres).
    assert (duration <= Z.of_nat fuel) by lia. nia.
Qed.

Lemma call_until_true_bounded_witness :
  exists r tr w',
    call_until_true Scenario.time (Scenario.true_on 50) Scenario.sleep
      10 10 3 Scenario.start = Some (r, tr, w') /\
    (invocations tr = 0%nat \/ (Z.of_nat (invocations tr) - 1) * 3 < 10).
Proof.
  apply (call_until_true_bounded _ _ Scenario.time (Scenario.true_on 50)
           Scenario.sleep 10 3 Scenario.start).
  - lia.
  - intros [c n]. unfold Scenario.time, Scenario.sleep. simpl. lia.
  - intros [c n]. unfold Scenario.time, Scenario.true_on. simpl. lia.
  - simpl. lia.
Defined.

(** An exception of the predicate ends the poll at once: if the first [k]
    invocations are unsuccessful and invocation [k+1], begun inside the
    budget, raises [e], then [call_until_true] raises [e] in the state the
    predicate left, without sleeping or invoking it again. *)
Theorem call_until_true_raises
  (World Exn : Type) (time : World -> Z)
  (func : World -> (Exn + bool) * World) (sleep : Z -> World -> World)
  (k : nat) (duration sleep_for : Z) (w : World) (e : Exn) :
  (forall i, (i < k)%nat ->
     time (rounds func sleep i sleep_for w) < time w + duration /\
     fst (func (rounds func sleep i sleep_for w)) = inr false) ->
  let wk := rounds func sleep k sleep_for w in
  time wk - time w < duration -> fst (func wk) = inl e ->
  forall fuel, (k < fuel)%nat ->
    call_until_true time func sleep fuel duration sleep_for w =
      Some (Raised e, failed_rounds k sleep_for ++ [InvokeRaised],
            snd (func wk)).
Proof.
  intros H wk Hlt Hraise fuel Hfuel. unfold call_until_true.
  replace fuel with (k + S (fuel - S k))%nat by lia.
  rewrite (poll_loop_rounds _ _ time func sleep k) by exact H.
  fold wk. cbn [poll_loop].
  replace (time wk <? time w + duration) with true
    by (symmetry; apply Z.ltb_lt; lia).
  destruct (func wk) as [[e'|b] w1]; simpl in Hraise; try discriminate.
  injection Hraise as ->. reflexivity.
Qed.

(** A predicate that fails, with exception [tt], on its [n]-th call. *)
Definition raise_on (n : nat) (w : Scenario.world)
  : (unit + bool) * Scenario.world :=
  let c := S (Scenario.calls w) in
  (if Nat.eqb c n then inl tt else inr false,
   {| Scenario.clock := Scenario.clock w; Scenario.calls := c |}).

Lemma call_until_true_raises_witness :
  call_until_true Scenario.time (raise_on 2) Scenario.sleep
    5 10 1 Scenario.start =
  Some (Raised tt, [Invoke false; Sleep 1; InvokeRaised],
        {| Scenario.clock := 1001; Scenario.calls := 2 |}).
Proof.
  refine (call_until_true_raises _ _ Scenario.time (raise_on 2)
            Scenario.sleep 1 10 1 Scenario.start tt _ _ _ 5%nat _).
  - intros i Hi. destruct i as [|i]; [vm_compute; auto | lia].
  - vm_compute. reflexivity.
  - reflexivity.
  - lia.
Defined.

End Poller.

(* ===================================================================== *)
(** ** [fuel_health/test.py]: [ExecutionTimeout] *)
(* ===================================================================== *)

Module TimeoutGuard.
Local Open Scope string_scope.

(** Exception classes.  [exc_type is not TimeOutError] compares class
    identity, so any other class, a subclass of [TimeOutError] included, is an
    [OtherError]. *)
Inductive exc_class : Type :=
| TimeOutError
| AssertionError
| IndexError
| OtherError (class_name : string).

(** One entry of [traceback.extract_tb]: (filename, line number, function
    name, text); the text is [None] when the source line is not available. *)
Record frame_summary : Type := {
  fs_filename : string;
  fs_lineno : Z;
  fs_name : string;
  fs_line : option string
}.

(** A raised exception as [__exit__] receives it. *)
Record raised : Type := {
  exc_type : exc_class;
  exc_val : string;
  exc_tb : list frame_summary
}.

(** The process-wide signal state the guard acts on: the [SIGALRM] handler
    and the seconds left on the alarm ([0]: no alarm is scheduled). *)
Inductive handler : Type :=
| SIG_DFL
| _raise_TimeOut.

Record signals : Type := {
  sigalrm : handler;
  alarm : Z
}.

Definition signal_signal (h : handler) (s : signals) : signals :=
  {| sigalrm := h; alarm := alarm s |}.

Definition signal_alarm (seconds : Z) (s : signals) : signals :=
  {| sigalrm := sigalrm s; alarm := seconds |}.

Record ExecutionTimeout : Type := { timeout : Z }.

Definition nl : string := String (ascii_of_nat 10) EmptyString.
Definition indent : string := "                ".

(** [str(x)] of an integer and of a line of source text or [None]. *)
Definition str_int (z : Z) : string := NilZero.string_of_int (Z.to_int z).
Definition str_line (l : option string) : string :=
  match l with Some s => s | None => "None" end.

(** The triple-quoted message, formatted. *)
Definition msg (call : option string) (timeout : Z) : string :=
  nl ++ indent ++ str_line call ++ " terminated with the timeout of "
     ++ str_int timeout ++ " seconds." ++
  nl ++ indent
     ++ "Please check that this service timeout meets your expectation." ++
  nl ++ indent.

Definition __enter__ (self : ExecutionTimeout) (s : signals) : signals :=
  signal_alarm (timeout self) (signal_signal _raise_TimeOut s).

Inductive exit_result : Type :=
| ExitReturn (v : bool)
| ExitRaise (cls : exc_class) (message : string).

(** [exc = None] stands for the three [None] arguments of a normal exit. *)
Definition __exit__ (self : ExecutionTimeout) (exc : option raised)
  (s : signals) : exit_result * signals :=
  let s := signal_alarm 0 s in
  match exc with
  | None => (ExitReturn false, s)
  | Some e =>
      match exc_type e with
      | TimeOutError =>
          match exc_tb e with
          | [] => (ExitRaise IndexError "list index out of range", s)
          | entry :: _ =>
              let call_that_caused_timeout := fs_line entry in
              (ExitRaise AssertionError
                 (msg call_that_caused_timeout (timeout self)), s)
          end
      | _ => (ExitReturn false, s)
      end
  end.

(** How a [with ExecutionTimeout(t): body] statement ends. *)
Inductive with_result (A : Type) : Type :=
| Completed (v : A)                 (* the body ran to its end *)
| Propagated (e : raised)           (* the body's exception, re-raised *)
| Suppressed                        (* the body's exception, swallowed *)
| RaisedInExit (cls : exc_class) (message : string).
Arguments Completed {A} v.
Arguments Propagated {A} e.
Arguments Suppressed {A}.
Arguments RaisedInExit {A} cls message.

(** The [with] statement.  The body runs with the alarm armed and may leave
    the signal state as it likes; it ends normally or by an exception, which
    is [TimeOutError] when the alarm went off inside it. *)
Definition with_ExecutionTimeout {A : Type} (self : ExecutionTimeout)
  (body : signals -> (raised + A) * signals) (s : signals)
  : with_result A * signals :=
  let s1 := __enter__ self s in
  let (r, s2) := body s1 in
  match r with
  | inr v =>
      match __exit__ self None s2 with
      | (ExitReturn _, s3) => (Completed v, s3)
      | (ExitRaise cls m, s3) => (RaisedInExit cls m, s3)
      end
  | inl e =>
      match __exit__ self (Some e) s2 with
      | (ExitReturn true, s3) => (Suppressed, s3)
      | (ExitReturn false, s3) => (Propagated e, s3)
      | (ExitRaise cls m, s3) => (RaisedInExit cls m, s3)
      end
  end.

(** *** Properties of the guard *)

Lemma __exit___disarms self exc s : alarm (snd (__exit__ self exc s)) = 0.
Proof.
  unfold __exit__. destruct exc as [e|]; [|reflexivity].
  destruct (exc_type e); try reflexivity.
  destruct (exc_tb e); reflexivity.
Qed.

(** C9.  Whatever the body does: (1) when the [with] statement is left the
    alarm is disarmed; (2) a body that ends normally completes with its
    value; (3) an exception of the body whose class is not [TimeOutError]
    leaves the statement unchanged, and no exception is ever swallowed;
    (4) a [TimeOutError] with a traceback becomes an [AssertionError] whose
    message holds the text of the traceback's first entry, the line of the
    guarded block that was running, and the timeout. *)
Theorem ExecutionTimeout_spec (A : Type) (self : ExecutionTimeout)
  (body : signals -> (raised + A) * signals) (s : signals) :
  let armed := __enter__ self s in
  let out := with_ExecutionTimeout self body s in
  alarm armed = timeout self /\ sigalrm armed = _raise_TimeOut /\
  alarm (snd out) = 0 /\
  fst out <> Suppressed /\
  (forall v, fst (body armed) = inr v -> fst out = Completed v) /\
  (forall e, fst (body armed) = inl e -> exc_type e <> TimeOutError ->
     fst out = Propagated e) /\
  (forall e entry rest,
     fst (body armed) = inl e -> exc_type e = TimeOutError ->
     exc_tb e = entry :: rest ->
     fst out =
       RaisedInExit AssertionError
         (nl ++ indent ++ str_line (fs_line entry)
             ++ " terminated with the timeout of "
             ++ str_int (timeout self) ++ " seconds." ++
          nl ++ indent
             ++ "Please check that this service timeout meets your expectation."
             ++ nl ++ indent)).
Proof.
  intros armed out. subst out. unfold with_ExecutionTimeout. fold armed.
  destruct (body armed) as [[e|v] s2] eqn:Hb; cbn [fst snd].
  - pose proof (__exit___disarms self (Some e) s2) as Hd.
    unfold __exit__ in *.
    destruct (exc_type e) eqn:Hty;
      try (cbn [fst snd] in *; repeat split; try assumption;
           try discriminate;
           [ intros e' He'; injection He' as <-; reflexivity
           | intros e' entry rest He'; injection He' as <-; congruence ]).
    destruct (exc_tb e) as [|entry tb] eqn:Htb; cbn [fst snd] in *;
      repeat split; try assumption; try discriminate.
    + intros e' He'; injection He' as <-; congruence.
    + intros e' entry rest He'; injection He' as <-; congruence.
    + intros e' He'; injection He' as <-; congruence.
    + intros e' entry' rest He' _ Htb'. injection He' as <-.
      rewrite Htb in Htb'. injection Htb' as <- <-. reflexivity.
  - cbn. repeat split; try discriminate.
    intros v' Hv. injection Hv as <-. reflexivity.
Qed.

(** Scenario E.  A guard of 1 second around [time.sleep(5)]: the alarm goes
    off in the body and the statement fails with an [AssertionError] that
    quotes that line. *)
Module Scenario.
Definition sleeping_call : frame_summary :=
  {| fs_filename := "test_guard.py"; fs_lineno := 12;
     fs_name := "test_slow"; fs_line := Some "time.sleep(5)" |}.

Definition alarm_handler_frame : frame_summary :=
  {| fs_filename := "fuel_health/test.py"; fs_lineno := 42;
     fs_name := "_raise_TimeOut"; fs_line := Some "raise TimeOutError()" |}.

Definition timed_out : raised :=
  {| exc_type := TimeOutError; exc_val := "";
     exc_tb := [sleeping_call; alarm_handler_frame] |}.

(** The alarm fires after one second, inside the body. *)
Definition slow_body (s : signals) : (raised + unit) * signals :=
  (inl timed_out, signal_alarm 0 s).

Definition value_error : raised :=
  {| exc_type := OtherError "ValueError"; exc_val := "bad value";
     exc_tb := [{| fs_filename := "test_guard.py"; fs_lineno := 20;
                   fs_name := "test_bad"; fs_line := Some "int('x')" |}] |}.

Definition failing_body (s : signals) : (raised + unit) * signals :=
  (inl value_error, s).

Definition idle : signals := {| sigalrm := SIG_DFL; alarm := 0 |}.
End Scenario.

Lemma ExecutionTimeout_spec_witness :
  fst (with_ExecutionTimeout {| timeout := 1 |} Scenario.slow_body
         Scenario.idle) =
    RaisedInExit AssertionError
      (nl ++ indent ++ "time.sleep(5) terminated with the timeout of 1 seconds."
          ++ nl ++ indent
          ++ "Please check that this service timeout meets your expectation."
          ++ nl ++ indent) /\
  fst (with_ExecutionTimeout {| timeout := 1 |} Scenario.failing_body
         Scenario.idle) = Propagated Scenario.value_error.
Proof.
  split.
  - exact (proj2 (proj2 (proj2 (proj2 (proj2 (proj2
             (ExecutionTimeout_spec unit {| timeout := 1 |}
                Scenario.slow_body Scenario.idle))))))
             Scenario.timed_out Scenario.sleeping_call
             [Scenario.alarm_handler_frame] eq_refl eq_refl eq_refl).
  - apply (proj1 (proj2 (proj2 (proj2 (proj2 (proj2
             (ExecutionTimeout_spec unit {| timeout := 1 |}
                Scenario.failing_body Scenario.idle)))))));
      [reflexivity | discriminate].
Defined.

End TimeoutGuard.

(* ===================================================================== *)
(** ** [fuel_health/test.py]: [TestCase] *)
(* ===================================================================== *)

Module TestCase.
Local Open Scope string_scope.

(** *** The shared resources: [set_resource], [get_resource],
    [remove_resource] *)

Inductive exn : Type :=
| KeyError (key : string)
| ValueError
| AssertionError
| AttributeError (attribute : string).

Section Resources.
(** The things registered: any objects, compared with [==]. *)
Variable Thing : Type.
Variable Thing_eqb : Thing -> Thing -> bool.
Hypothesis Thing_eqb_spec : forall x y, reflect (x = y) (Thing_eqb x y).

(** [cls.resource_keys] and [cls.os_resources]. *)
Record Resources : Type := {
  resource_keys : list (string * Thing);
  os_resources : list Thing
}.

(** [d.get(key)], [d[key] = thing] and [del d[key]] on a dictionary kept as
    a list of entries; the first entry of a key is the one that counts. *)
Fixpoint dict_get (d : list (string * Thing)) (key : string) : option Thing :=
  match d with
  | [] => None
  | (k, v) :: d' => if String.eqb k key then Some v else dict_get d' key
  end.

Fixpoint dict_set (d : list (string * Thing)) (key : string) (thing : Thing)
  : list (string * Thing) :=
  match d with
  | [] => [(key, thing)]
  | (k, v) :: d' =>
      if String.eqb k key then (k, thing) :: d'
      else (k, v) :: dict_set d' key thing
  end.

Fixpoint dict_del (d : list (string * Thing)) (key : string)
  : list (string * Thing) :=
  match d with
  | [] => []
  | (k, v) :: d' =>
      if String.eqb k key then dict_del d' key
      else (k, v) :: dict_del d' key
  end.

(** [l.remove(x)]: the first item equal to [x] is removed; [None] stands for
    the [ValueError] raised when there is none. *)
Fixpoint list_remove (l : list Thing) (x : Thing) : option (list Thing) :=
  match l with
  | [] => None
  | y :: l' =>
      if Thing_eqb y x then Some l'
      else match list_remove l' x with
           | Some r => Some (y :: r)
           | None => None
           end
  end.

Definition set_resource (key : string) (thing : Thing) (rs : Resources)
  : Resources :=
  {| resource_keys := dict_set (resource_keys rs) key thing;
     os_resources := (os_resources rs ++ [thing])%list |}.

Definition get_resource (key : string) (rs : Resources) : exn + Thing :=
  match dict_get (resource_keys rs) key with
  | Some thing => inr thing
  | None => inl (KeyError key)
  end.

(** The state is returned also when the method raises: it is the state the
    exception leaves behind. *)
Definition remove_resource (key : string) (rs : Resources)
  : (exn + unit) * Resources :=
  match dict_get (resource_keys rs) key with
  | None => (inl (KeyError key), rs)
  | Some thing =>
      match list_remove (os_resources rs) thing with
      | None => (inl ValueError, rs)
      | Some l =>
          (inr tt,
           {| resource_keys := dict_del (resource_keys rs) key;
              os_resources := l |})
      end
  end.

(** How many keys are bound to [t], and how many times [t] is listed. *)
Definition bound (d : list (string * Thing)) (t : Thing) : nat :=
  length (filter (fun kv => Thing_eqb (snd kv) t) d).

Definition listed (l : list Thing) (t : Thing) : nat :=
  length (filter (fun x => Thing_eqb x t) l).

(** Every binding is backed by an item of [os_resources] of its own. *)
Definition backed (rs : Resources) : Prop :=
  forall t, (bound (resource_keys rs) t <= listed (os_resources rs) t)%nat.

Lemma Thing_eqb_refl x : Thing_eqb x x = true.
Proof. destruct (Thing_eqb_spec x x); [reflexivity | contradiction]. Qed.

Lemma dict_get_set_same d key thing :
  dict_get (dict_set d key thing) key = Some thing.
Proof.
  induction d as [|[k v] d IH]; cbn.
  - now rewrite String.eqb_refl.
  - destruct (String.eqb k key) eqn:E; cbn; rewrite E; [reflexivity | exact IH].
Qed.

Lemma dict_get_set_other d key thing key' :
  key' <> key -> dict_get (dict_set d key thing) key' = dict_get d key'.
Proof.
  intros Hne. induction d as [|[k v] d IH]; cbn.
  - destruct (String.eqb_spec key key'); [congruence | reflexivity].
  - destruct (String.eqb_spec k key) as [->|Hk]; cbn.
    + destruct (String.eqb_spec key key'); [congruence | reflexivity].
    + destruct (String.eqb k key'); [reflexivity | exact IH].
Qed.

Lemma dict_get_del_same d key : dict_get (dict_del d key) key = None.
Proof.
  induction d as [|[k v] d IH]; cbn; [reflexivity|].
  destruct (String.eqb k key) eqn:E; cbn; [exact IH|].
  rewrite E. exact IH.
Qed.

Lemma dict_get_del_other d key key' :
  key' <> key -> dict_get (dict_del d key) key' = dict_get d key'.
Proof.
  intros Hne. induction d as [|[k v] d IH]; cbn; [reflexivity|].
  destruct (String.eqb_spec k key) as [->|Hk]; cbn.
  - destruct (String.eqb_spec key key'); [congruence | exact IH].
  - destruct (String.eqb k key'); [reflexivity | exact IH].
Qed.

Lemma dict_get_None_notin d key :
  dict_get d key = None -> ~ In key (map fst d).
Proof.
  induction d as [|[k v] d IH]; cbn; [tauto|].
  destruct (String.eqb_spec k key) as [->|Hne]; [discriminate|].
  intros H [E|Hin]; [contradiction | now apply IH].
Qed.

Lemma dict_set_fresh d key thing :
  dict_get d key = None -> dict_set d key thing = (d ++ [(key, thing)])%list.
Proof.
  induction d as [|[k v] d IH]; cbn; [reflexivity|].
  destruct (String.eqb k key); [discriminate|].
  intros H. now rewrite IH.
Qed.

Lemma dict_del_fresh d key thing :
  dict_get d key = None -> dict_del (d ++ [(key, thing)])%list key = d.
Proof.
  induction d as [|[k v] d IH]; cbn.
  - now rewrite String.eqb_refl.
  - destruct (String.eqb k key); [discriminate|].
    intros H. now rewrite IH.
Qed.

Lemma list_remove_fresh l x :
  listed l x = 0%nat -> list_remove (l ++ [x])%list x = Some l.
Proof.
  unfold listed. induction l as [|y l IH]; cbn.
  - now rewrite Thing_eqb_refl.
  - destruct (Thing_eqb y x); cbn; [discriminate|].
    intros H. now rewrite IH.
Qed.

Lemma listed_app l1 l2 t :
  listed (l1 ++ l2)%list t = (listed l1 t + listed l2 t)%nat.
Proof. unfold listed. now rewrite filter_app, length_app. Qed.

Lemma bound_set d key thing t :
  (bound (dict_set d key thing) t
   <= bound d t + (if Thing_eqb thing t then 1 else 0))%nat.
Proof.
  unfold bound. induction d as [|[k v] d IH]; cbn.
  - destruct (Thing_eqb thing t); cbn; lia.
  - destruct (String.eqb k key); cbn.
    + destruct (Thing_eqb thing t), (Thing_eqb v t); cbn; lia.
    + destruct (Thing_eqb v t); cbn; lia.
Qed.

Lemma bound_del_le d key t : (bound (dict_del d key) t <= bound d t)%nat.
Proof.
  unfold bound. induction d as [|[k v] d IH]; cbn; [lia|].
  destruct (String.eqb k key); cbn; destruct (Thing_eqb v t); cbn; lia.
Qed.

Lemma bound_del d key thing t :
  dict_get d key = Some thing ->
  (bound (dict_del d key) t + (if Thing_eqb thing t then 1 else 0)
   <= bound d t)%nat.
Proof.
  induction d as [|[k v] d IH]; cbn; [discriminate|].
  destruct (String.eqb k key); cbn.
  - intros H. injection H as ->.
    pose proof (bound_del_le d key t) as Hle. unfold bound in *. cbn.
    destruct (Thing_eqb thing t); cbn; lia.
  - intros H. specialize (IH H). unfold bound in *. cbn.
    destruct (Thing_eqb v t); cbn; lia.
Qed.

Lemma list_remove_Some l x :
  (0 < listed l x)%nat ->
  exists r, list_remove l x = Some r /\
    forall t, (listed r t + (if Thing_eqb x t then 1 else 0)
               = listed l t)%nat.
Proof.
  unfold listed. induction l as [|y l IH]; cbn; [lia|].
  destruct (Thing_eqb_spec y x) as [->|Hne].
  - intros _. exists l. split; [reflexivity|]. intros t.
    destruct (Thing_eqb x t); cbn; lia.
  - intros H. destruct (IH H) as [r [Hr Hcount]]. rewrite Hr.
    exists (y :: r). split; [reflexivity|]. intros t. cbn.
    specialize (Hcount t). destruct (Thing_eqb y t); cbn; lia.
Qed.

Lemma dict_get_bound d key thing :
  dict_get d key = Some thing -> (0 < bound d thing)%nat.
Proof.
  unfold bound. induction d as [|[k v] d IH]; cbn; [discriminate|].
  destruct (String.eqb k key).
  - intros H. injection H as ->. rewrite Thing_eqb_refl. cbn. lia.
  - intros H. specialize (IH H). destruct (Thing_eqb v thing); cbn; lia.
Qed.

End Resources.

Arguments resource_keys {Thing} r.
Arguments os_resources {Thing} r.
Arguments set_resource {Thing} key thing rs.
Arguments get_resource {Thing} key rs.
Arguments remove_resource {Thing} Thing_eqb key rs.
Arguments backed {Thing} Thing_eqb rs.
Arguments listed {Thing} Thing_eqb l t.
Arguments bound {Thing} Thing_eqb d t.

(** The registry behaves as a dictionary: a thing stored under a key is the
    one read back under it, the other keys read as before, and reading or
    removing a key that is not there raises [KeyError] and changes
    nothing. *)
Theorem resources_lookup (Thing : Type) (Thing_eqb : Thing -> Thing -> bool)
  (key : string) (thing : Thing) (rs : Resources Thing) :
  get_resource key (set_resource key thing rs) = inr thing /\
  (forall key', key' <> key ->
     get_resource key' (set_resource key thing rs) = get_resource key' rs) /\
  (get_resource key rs = inl (KeyError key) <->
   remove_resource Thing_eqb key rs = (inl (KeyError key), rs)).
Proof.
  unfold get_resource, set_resource, remove_resource. cbn.
  split; [now rewrite dict_get_set_same|]. split.
  - intros key' Hne. now rewrite dict_get_set_other.
  - destruct (dict_get Thing (resource_keys rs) key) as [t|].
    + split; [discriminate|].
      destruct (list_remove Thing Thing_eqb (os_resources rs) t);
        discriminate.
    + split; reflexivity.
Qed.

(** The registry keeps every binding backed by an item of [os_resources]
    of its own: [set_resource] and [remove_resource] preserve this, and
    while it holds [remove_resource] of a key that is there never fails
    (the [ValueError] of [list.remove] cannot occur), unbinds the key and
    leaves the other keys as they are. *)
Theorem resources_backed (Thing : Type) (Thing_eqb : Thing -> Thing -> bool)
  (key : string) (thing : Thing) (rs : Resources Thing) :
  (forall x y, reflect (x = y) (Thing_eqb x y)) ->
  backed Thing_eqb rs ->
  backed Thing_eqb (set_resource key thing rs) /\
  backed Thing_eqb (snd (remove_resource Thing_eqb key rs)) /\
  (forall bound_thing, get_resource key rs = inr bound_thing ->
     fst (remove_resource Thing_eqb key rs) = inr tt /\
     get_resource key (snd (remove_resource Thing_eqb key rs))
       = inl (KeyError key) /\
     (length (os_resources (snd (remove_resource Thing_eqb key rs))) + 1
      = length (os_resources rs))%nat /\
     forall key', key' <> key ->
       get_resource key' (snd (remove_resource Thing_eqb key rs))
         = get_resource key' rs).
Proof.
  intros Hspec Hb. split; [|split].
  - intros t. unfold set_resource. cbn [resource_keys os_resources].
    rewrite listed_app.
    pose proof (bound_set Thing Thing_eqb (resource_keys rs) key thing t).
    specialize (Hb t). unfold listed at 2. cbn.
    destruct (Thing_eqb thing t); cbn in *; lia.
  - unfold remove_resource.
    destruct (dict_get Thing (resource_keys rs) key) as [t0|] eqn:Hg;
      [|exact Hb].
    destruct (list_remove_Some Thing Thing_eqb Hspec (os_resources rs) t0)
      as [r [Hr Hcount]].
    { pose proof (dict_get_bound Thing Thing_eqb Hspec _ _ _ Hg).
      specialize (Hb t0). lia. }
    rewrite Hr. cbn [snd]. intros t. cbn [resource_keys os_resources].
    pose proof (bound_del Thing Thing_eqb _ _ _ t Hg).
    specialize (Hcount t). specialize (Hb t). lia.
  - intros t0 Hget. unfold get_resource in Hget.
    destruct (dict_get Thing (resource_keys rs) key) as [t1|] eqn:Hg;
      [|discriminate].
    injection Hget as ->.
    destruct (list_remove_Some Thing Thing_eqb Hspec (os_resources rs) t0)
      as [r [Hr Hcount]].
    { pose proof (dict_get_bound Thing Thing_eqb Hspec _ _ _ Hg).
      specialize (Hb t0). lia. }
    unfold remove_resource. rewrite Hg, Hr. cbn [fst snd].
    unfold get_resource. cbn [resource_keys os_resources].
    split; [reflexivity|]. split; [now rewrite dict_get_del_same|]. split.
    + clear Hcount. revert r Hr.
      induction (os_resources rs) as [|y l IH]; intros r Hr;
        cbn in Hr; [discriminate|].
      destruct (Thing_eqb y t0).
      * injection Hr as <-. cbn. lia.
      * destruct (list_remove Thing Thing_eqb l t0) as [r'|];
          [|discriminate].
        injection Hr as <-. cbn. rewrite (IH r' eq_refl). reflexivity.
    + intros key' Hne. now rewrite dict_get_del_other.
Qed.

Lemma resources_backed_witness :
  let rs := {| resource_keys := [("server", 7); ("volume", 9)];
               os_resources := [7; 9] |} in
  backed Z.eqb (set_resource "image" 7 rs) /\
  fst (remove_resource Z.eqb "server" rs) = inr tt.
Proof.
  intros rs.
  assert (Hb : backed Z.eqb rs).
  { intros t. unfold bound, listed. subst rs.
    cbn [filter snd resource_keys os_resources].
    destruct (Z.eqb 7 t), (Z.eqb 9 t); cbn [length]; lia. }
  destruct (resources_backed Z Z.eqb "server" 7 rs Z.eqb_spec Hb)
    as [_ [_ Hrm]].
  split.
  - exact (proj1 (resources_backed Z Z.eqb "image" 7 rs Z.eqb_spec Hb)).
  - exact (proj1 (Hrm 7 eq_refl)).
Defined.

(** Registering a thing that is not listed yet under a key that is not
    bound yet, and removing it again, gives the registry back as it was. *)
Theorem set_then_remove_resource (Thing : Type)
  (Thing_eqb : Thing -> Thing -> bool)
  (key : string) (thing : Thing) (rs : Resources Thing) :
  (forall x y, reflect (x = y) (Thing_eqb x y)) ->
  get_resource key rs = inl (KeyError key) ->
  listed Thing_eqb (os_resources rs) thing = 0%nat ->
  remove_resource Thing_eqb key (set_resource key thing rs) = (inr tt, rs).
Proof.
  intros Hspec Hget Hl. unfold get_resource in Hget.
  destruct (dict_get Thing (resource_keys rs) key) eqn:Hg; [discriminate|].
  unfold remove_resource, set_resource. cbn [resource_keys os_resources].
  rewrite dict_get_set_same.
  rewrite (list_remove_fresh Thing Thing_eqb Hspec _ _ Hl).
  rewrite (dict_set_fresh Thing _ _ _ Hg), (dict_del_fresh Thing _ _ _ Hg).
  destruct rs; reflexivity.
Qed.

Lemma set_then_remove_resource_witness :
  let rs := {| resource_keys := [("server", 7)]; os_resources := [7] |} in
  remove_resource Z.eqb "volume" (set_resource "volume" 9 rs) = (inr tt, rs).
Proof.
  intros rs.
  apply (set_then_remove_resource Z Z.eqb "volume" 9 rs Z.eqb_spec);
    reflexivity.
Defined.

(** *** [setUpClass] *)

Section SetUpClass.
(** The API clients the manager holds. *)
Variable Client : Type.

(** What [cls.manager_class()] returns, as far as [setUpClass] looks at it:
    the names of its clients and [getattr(manager, name)], [None] standing
    for a missing attribute. *)
Record Manager : Type := {
  client_attr_names : list string;
  manager_getattr : string -> option Client
}.

(** What a name of the class (its own or inherited) is bound to. *)
Inductive attribute : Type :=
| the_manager (m : Manager)
| a_client (c : Client)
| the_resource_keys
| the_os_resources
| inherited.

(** The loop over [client_attr_names]. *)
Fixpoint bind_clients (m : Manager) (names : list string)
  (cls : list (string * attribute))
  : (exn + unit) * list (string * attribute) :=
  match names with
  | [] => (inr tt, cls)
  | attr_name :: names' =>
      match dict_get attribute cls attr_name with
      | Some _ => (inl AssertionError, cls)
      | None =>
          match manager_getattr m attr_name with
          | None => (inl (AttributeError attr_name), cls)
          | Some client =>
              bind_clients m names'
                (dict_set attribute cls attr_name (a_client client))
          end
      end
  end.

(** [setUpClass] on a class with the attributes [cls], [manager] being the
    object that [manager_class()] builds.  The registry is that of the
    previous section; it is reset at the end. *)
Definition setUpClass {Thing : Type} (manager : Manager)
  (cls : list (string * attribute)) (rs : Resources Thing)
  : (exn + unit) * (list (string * attribute) * Resources Thing) :=
  let cls := dict_set attribute cls "manager" (the_manager manager) in
  match bind_clients manager (client_attr_names manager) cls with
  | (inl e, cls) => (inl e, (cls, rs))
  | (inr _, cls) =>
      let cls := dict_set attribute cls "resource_keys" the_resource_keys in
      let cls := dict_set attribute cls "os_resources" the_os_resources in
      (inr tt, (cls, {| resource_keys := []; os_resources := [] |}))
  end.

Lemma bind_clients_ok m names : forall cls,
  fst (bind_clients m names cls) = inr tt <->
  NoDup names /\
  forall name, In name names ->
    dict_get attribute cls name = None /\ manager_getattr m name <> None.
Proof.
  induction names as [|n names IH]; intros cls; cbn [bind_clients].
  - split; [intros _; split; [constructor | intros ? []] | reflexivity].
  - destruct (dict_get attribute cls n) as [a|] eqn:Hn.
    + split; [discriminate|]. intros [_ H].
      destruct (H n (or_introl eq_refl)) as [H1 _]. congruence.
    + destruct (manager_getattr m n) as [c|] eqn:Hc.
      * rewrite IH. split.
        -- intros [Hnd H]. split.
           ++ constructor; [|exact Hnd]. intros Hin.
              destruct (H n Hin) as [H1 _].
              rewrite dict_get_set_same in H1. discriminate.
           ++ intros name [<-|Hin]; [split; [exact Hn | congruence]|].
              destruct (H name Hin) as [H1 H2]. split; [|exact H2].
              destruct (String.eqb_spec name n) as [->|Hne].
              ** rewrite dict_get_set_same in H1. discriminate.
              ** now rewrite dict_get_set_other in H1.
        -- intros [Hnd H]. inversion Hnd as [|? ? Hnotin Hnd']; subst.
           split; [exact Hnd'|]. intros name Hin.
           destruct (H name (or_intror Hin)) as [H1 H2].
           split; [|exact H2].
           rewrite dict_get_set_other; [exact H1|].
           intros ->. contradiction.
      * split; [discriminate|]. intros [_ H].
        destruct (H n (or_introl eq_refl)) as [_ H2]. contradiction.
Qed.

Lemma bind_clients_bound m names : forall cls,
  fst (bind_clients m names cls) = inr tt ->
  (forall name client, In name names ->
     manager_getattr m name = Some client ->
     dict_get attribute (snd (bind_clients m names cls)) name
       = Some (a_client client)) /\
  (forall name, ~ In name names ->
     dict_get attribute (snd (bind_clients m names cls)) name
       = dict_get attribute cls name).
Proof.
  induction names as [|n names IH]; intros cls; cbn [bind_clients].
  - intros _. split; [intros ? ? [] | reflexivity].
  - destruct (dict_get attribute cls n) as [a|] eqn:Hn; [discriminate|].
    destruct (manager_getattr m n) as [c|] eqn:Hc; [|discriminate].
    intros Hok. destruct (IH _ Hok) as [Hb Hf].
    pose proof (proj1 (bind_clients_ok m names _) Hok) as [_ Hfree].
    split.
    + intros name client [<-|Hin] Hget.
      * assert (Hnot : ~ In n names).
        { intros Hin. destruct (Hfree n Hin) as [H1 _].
          rewrite dict_get_set_same in H1. discriminate. }
        rewrite (Hf n Hnot), dict_get_set_same. congruence.
      * now apply Hb.
    + intros name Hnot.
      rewrite Hf by (intros Hin; apply Hnot; right; exact Hin).
      apply dict_get_set_other. intros ->. apply Hnot. left. reflexivity.
Qed.

End SetUpClass.

Arguments client_attr_names {Client} m.
Arguments manager_getattr {Client} m name.
Arguments setUpClass {Client Thing} manager cls rs.

(** [setUpClass] goes through exactly when the client names of the manager
    are pairwise distinct, none of them is ['manager'] or already an
    attribute of the class, and the manager has each of them.  Then every
    client name other than ['resource_keys'] and ['os_resources'] is bound to
    the manager's client, the registry is empty, and the attributes that the
    method does not name are as before. *)
Theorem setUpClass_spec (Client Thing : Type) (manager : Manager Client)
  (cls : list (string * attribute Client)) (rs : Resources Thing) :
  let out := setUpClass manager cls rs in
  (fst out = inr tt <->
   NoDup (client_attr_names manager) /\
   forall name, In name (client_attr_names manager) ->
     name <> "manager" /\ dict_get _ cls name = None /\
     manager_getattr manager name <> None) /\
  (fst out = inr tt ->
   snd (snd out) = {| resource_keys := []; os_resources := [] |} /\
   (forall name client, In name (client_attr_names manager) ->
      name <> "resource_keys" -> name <> "os_resources" ->
      manager_getattr manager name = Some client ->
      dict_get _ (fst (snd out)) name = Some (a_client Client client)) /\
   (forall name, ~ In name (client_attr_names manager) ->
      name <> "manager" -> name <> "resource_keys" ->
      name <> "os_resources" ->
      dict_get _ (fst (snd out)) name = dict_get _ cls name)).
Proof.
  cbv zeta. unfold setUpClass.
  set (cls0 := dict_set _ cls "manager" (the_manager Client manager)).
  pose proof (bind_clients_ok Client manager (client_attr_names manager) cls0)
    as Hok.
  pose proof (bind_clients_bound Client manager (client_attr_names manager)
                cls0) as Hbound.
  destruct (bind_clients Client manager (client_attr_names manager) cls0)
    as [[e|[]] cls1]; cbn [fst snd] in *.
  - split; [|discriminate]. split; [discriminate|].
    intros [Hnd H]. apply Hok. split; [exact Hnd|].
    intros name Hin. destruct (H name Hin) as [H1 [H2 H3]].
    split; [|exact H3]. subst cls0. now rewrite dict_get_set_other.
  - destruct (proj1 Hok eq_refl) as [Hnd Hfree].
    destruct (Hbound eq_refl) as [Hb Hf].
    split; [split; [intros _ | reflexivity]|].
    + split; [exact Hnd|]. intros name Hin.
      destruct (Hfree name Hin) as [H1 H2].
      destruct (String.eqb_spec name "manager") as [->|Hne].
      * subst cls0. rewrite dict_get_set_same in H1. discriminate.
      * split; [exact Hne|]. split; [|exact H2].
        subst cls0. now rewrite dict_get_set_other in H1.
    + intros _. split; [reflexivity|]. split.
      * intros name client Hin Hn1 Hn2 Hget.
        rewrite !dict_get_set_other by assumption. now apply Hb.
      * intros name Hnot Hn0 Hn1 Hn2.
        rewrite !dict_get_set_other by assumption.
        rewrite Hf by exact Hnot. subst cls0.
        now rewrite dict_get_set_other.
Qed.

(** [setUpClass] cannot be run twice on a class: once it has gone through
    for a manager with at least one client, a second run stops at the
    [assert] on the first client name. *)
Theorem setUpClass_twice (Client Thing : Type) (manager : Manager Client)
  (cls : list (string * attribute Client)) (rs : Resources Thing) :
  fst (setUpClass manager cls rs) = inr tt ->
  client_attr_names manager <> [] ->
  forall rs' : Resources Thing,
    fst (setUpClass manager (fst (snd (setUpClass manager cls rs))) rs')
      = inl AssertionError.
Proof.
  intros Hok Hne rs'.
  destruct (setUpClass_spec Client Thing manager cls rs) as [Hiff Hpost].
  cbv zeta in Hiff, Hpost.
  destruct (proj1 Hiff Hok) as [_ Hfree].
  destruct (Hpost Hok) as [_ [Hb _]].
  destruct (client_attr_names manager) as [|n names] eqn:Hnames;
    [contradiction|].
  destruct (Hfree n (or_introl eq_refl)) as [Hn0 [_ Hget]].
  assert (Hhas : dict_get _ (fst (snd (setUpClass manager cls rs))) n <> None).
  { destruct (String.eqb_spec n "os_resources") as [->|H2].
    - unfold setUpClass in *.
      destruct (bind_clients Client manager (client_attr_names manager) _)
        as [[e|[]] cls1]; [discriminate|].
      cbn [fst snd]. rewrite dict_get_set_same. discriminate.
    - destruct (String.eqb_spec n "resource_keys") as [->|H1].
      + unfold setUpClass in *.
        destruct (bind_clients Client manager (client_attr_names manager) _)
          as [[e|[]] cls1]; [discriminate|].
        cbn [fst snd]. rewrite dict_get_set_other by exact H2.
        rewrite dict_get_set_same. discriminate.
      + destruct (manager_getattr manager n) as [c|] eqn:Hc;
          [|contradiction].
        rewrite (Hb n c (or_introl eq_refl) H1 H2 Hc). discriminate. }
  unfold setUpClass at 1. rewrite Hnames. cbn [bind_clients].
  rewrite dict_get_set_other by exact Hn0.
  destruct (dict_get _ (fst (snd (setUpClass manager cls rs))) n);
    [reflexivity | contradiction].
Qed.

(** A manager with the clients [servers] and [volumes], and a class that has
    only inherited attributes. *)
Definition compute_manager : Manager Z :=
  {| client_attr_names := ["servers_client"; "volumes_client"];
     manager_getattr := fun name =>
       if String.eqb name "servers_client" then Some 1
       else if String.eqb name "volumes_client" then Some 2
       else None |}.

Definition bare_class : list (string * attribute Z) :=
  [("setUp", inherited Z); ("config", inherited Z)].

Lemma setUpClass_spec_witness :
  fst (setUpClass compute_manager bare_class
         {| resource_keys := [("old", 5)]; os_resources := [5] |}) = inr tt /\
  dict_get _ (fst (snd (setUpClass compute_manager bare_class
                          {| resource_keys := [("old", 5)];
                             os_resources := [5] |})))
    "volumes_client" = Some (a_client Z 2).
Proof.
  pose proof (setUpClass_spec Z Z compute_manager bare_class
                {| resource_keys := [("old", 5)]; os_resources := [5] |})
    as [_ Hpost].
  cbv zeta in Hpost. specialize (Hpost eq_refl).
  split; [reflexivity|].
  apply (proj1 (proj2 Hpost));
    [right; left; reflexivity | discriminate | discriminate | reflexivity].
Defined.

Lemma setUpClass_twice_witness :
  fst (setUpClass compute_manager
         (fst (snd (setUpClass compute_manager bare_class
                      {| resource_keys := []; os_resources := @nil Z |})))
         {| resource_keys := []; os_resources := @nil Z |})
    = inl AssertionError.
Proof.
  apply (setUpClass_twice Z Z compute_manager bare_class
           {| resource_keys := []; os_resources := [] |});
    [reflexivity | discriminate].
Defined.

(** *** [status_timeout] *)

(** How [status_timeout] can fail: an exception of the client, or
    [self.fail] with one of its two messages. *)
Inductive failure (ClientExn : Type) : Type :=
| client_raised (e : ClientExn)
| in_error_state
| timed_out (thing_id expected_status : string).
Arguments client_raised {ClientExn} e.
Arguments in_error_state {ClientExn}.
Arguments timed_out {ClientExn} thing_id expected_status.

Section StatusTimeout.
Variable World : Type.
Variable ClientExn : Type.
Variable time : World -> Z.
Variable sleep : Z -> World -> World.
(** [things.get(thing_id).status]: the status read, or the exception of the
    client. *)
Variable things_get : string -> World -> (ClientExn + string) * World.
(** [conf.compute.build_timeout] and [conf.compute.build_interval]. *)
Variable build_timeout : Z.
Variable build_interval : Z.

Definition check_status (thing_id expected_status : string) (w : World)
  : (failure ClientExn + bool) * World :=
  match things_get thing_id w with
  | (inl e, w1) => (inl (client_raised e), w1)
  | (inr new_status, w1) =>
      if String.eqb new_status "ERROR" then (inl in_error_state, w1)
      else if String.eqb new_status expected_status then (inr true, w1)
      else (inr false, w1)
  end.

Definition status_timeout (fuel : nat) (thing_id expected_status : string)
  (w : World)
  : option ((failure ClientExn + unit) * list Poller.event * World) :=
  match
    Poller.call_until_true time (check_status thing_id expected_status)
      sleep fuel build_timeout build_interval w
  with
  | None => None
  | Some (Poller.Returned true, tr, w') => Some (inr tt, tr, w')
  | Some (Poller.Returned false, tr, w') =>
      Some (inl (timed_out thing_id expected_status), tr, w')
  | Some (Poller.Raised e, tr, w') => Some (inl e, tr, w')
  end.

(** The world at the start of poll [i]. *)
Definition at_poll (thing_id expected_status : string) (i : nat) (w : World)
  : World :=
  Poller.rounds (check_status thing_id expected_status) sleep i
    build_interval w.

Lemma check_status_false thing_id expected_status w :
  fst (check_status thing_id expected_status w) = inr false ->
  exists st, fst (things_get thing_id w) = inr st /\
    st <> "ERROR" /\ st <> expected_status.
Proof.
  unfold check_status.
  destruct (things_get thing_id w) as [[e|st] w1]; cbn; [discriminate|].
  destruct (String.eqb_spec st "ERROR"); [discriminate|].
  destruct (String.eqb_spec st expected_status); [discriminate|].
  intros _. exists st. auto.
Qed.

Lemma check_status_true thing_id expected_status w :
  fst (check_status thing_id expected_status w) = inr true ->
  fst (things_get thing_id w) = inr expected_status /\
  expected_status <> "ERROR".
Proof.
  unfold check_status.
  destruct (things_get thing_id w) as [[e|st] w1]; cbn; [discriminate|].
  destruct (String.eqb_spec st "ERROR"); [discriminate|].
  destruct (String.eqb_spec st expected_status); [|discriminate].
  intros _. subst. auto.
Qed.

End StatusTimeout.

Arguments check_status {World ClientExn} things_get thing_id expected_status w.
Arguments status_timeout {World ClientExn} time sleep things_get build_timeout
  build_interval fuel thing_id expected_status w.
Arguments at_poll {World ClientExn} sleep things_get build_interval thing_id
  expected_status i w.

(** [status_timeout] returns normally only if the thing was read with the
    expected status, after reads that gave neither ['ERROR'] nor the expected
    status; and never when the status waited for is ['ERROR'] itself, since
    ['ERROR'] is tested for first. *)
Theorem status_timeout_returns (World ClientExn : Type) (time : World -> Z)
  (sleep : Z -> World -> World)
  (things_get : string -> World -> (ClientExn + string) * World)
  (build_timeout build_interval : Z) (fuel : nat)
  (thing_id expected_status : string) (w : World)
  (tr : list Poller.event) (w' : World) :
  status_timeout time sleep things_get build_timeout build_interval fuel
    thing_id expected_status w = Some (inr tt, tr, w') ->
  expected_status <> "ERROR" /\
  exists k,
    (forall i, (i < k)%nat ->
       exists st,
         fst (things_get thing_id
                (at_poll sleep things_get build_interval thing_id
                   expected_status i w)) = inr st /\
         st <> "ERROR" /\ st <> expected_status) /\
    fst (things_get thing_id
           (at_poll sleep things_get build_interval thing_id
              expected_status k w)) = inr expected_status /\
    Poller.invocations tr = S k.
Proof.
  unfold status_timeout, Poller.call_until_true. intros H.
  destruct (Poller.poll_loop time (check_status things_get thing_id
                                     expected_status) sleep fuel
              (time w + build_timeout) build_interval (time w) w)
    as [[[r tr0] w0]|] eqn:Hres; [|discriminate].
  destruct r as [[|]|e]; try discriminate. injection H as <- <-.
  destruct (Poller.poll_loop_inv _ _ _ _ _ _ _ _ _ _ _ _ Hres)
    as [k [_ [Hrounds [_ [Htrue [_ ->]]]]]].
  apply check_status_true in Htrue. destruct Htrue as [Hget Hne].
  split; [exact Hne|]. exists k. split; [|split].
  - intros i Hi. destruct (Hrounds i Hi) as [_ Hf].
    now apply check_status_false in Hf.
  - exact Hget.
  - rewrite Poller.invocations_failed_rounds. unfold Poller.invocations.
    cbn. lia.
Qed.

(** A thing found in ['ERROR'] fails the wait at once: if the first [k]
    reads, within the budget, give other statuses than ['ERROR'] and the
    expected one, and read [k+1] gives ['ERROR'], [status_timeout] fails with
    the "In ERROR state" failure right after that read, whatever status was
    waited for. *)
Theorem status_timeout_error (World ClientExn : Type) (time : World -> Z)
  (sleep : Z -> World -> World)
  (things_get : string -> World -> (ClientExn + string) * World)
  (build_timeout build_interval : Z) (k : nat)
  (thing_id expected_status : string) (w : World) :
  let poll i :=
    at_poll sleep things_get build_interval thing_id expected_status i w in
  (forall i, (i < k)%nat ->
     time (poll i) - time w < build_timeout /\
     exists st, fst (things_get thing_id (poll i)) = inr st /\
       st <> "ERROR" /\ st <> expected_status) ->
  time (poll k) - time w < build_timeout ->
  fst (things_get thing_id (poll k)) = inr "ERROR" ->
  forall fuel, (k < fuel)%nat ->
    status_timeout time sleep things_get build_timeout build_interval fuel
      thing_id expected_status w =
    Some (inl in_error_state,
          (Poller.failed_rounds k build_interval ++ [Poller.InvokeRaised])%list,
          snd (things_get thing_id (poll k))).
Proof.
  intros poll Hpending Hlt Herr fuel Hfuel.
  unfold status_timeout, Poller.call_until_true.
  replace fuel with (k + S (fuel - S k))%nat by lia.
  rewrite (Poller.poll_loop_rounds _ _ time
             (check_status things_get thing_id expected_status) sleep k).
  - fold (at_poll sleep things_get build_interval thing_id expected_status
            k w). fold (poll k).
    cbn [Poller.poll_loop].
    replace (time (poll k) <? time w + build_timeout)%Z with true
      by (symmetry; apply Z.ltb_lt; lia).
    unfold check_status.
    destruct (things_get thing_id (poll k)) as [[e|st] w1];
      cbn [fst snd] in *; [discriminate|].
    injection Herr as ->. reflexivity.
  - intros i Hi. destruct (Hpending i Hi) as [Ht [st [Hg [H1 H2]]]].
    fold (at_poll sleep things_get build_interval thing_id expected_status
            i w). fold (poll i).
    split; [lia|]. unfold check_status.
    destruct (things_get thing_id (poll i)) as [[e|st'] w1];
      cbn [fst] in *; [discriminate|].
    injection Hg as ->.
    destruct (String.eqb_spec st "ERROR"); [contradiction|].
    destruct (String.eqb_spec st expected_status); [contradiction|].
    reflexivity.
Qed.

(** A server that is in [BUILD] on the first read and in the status
    [final] from the second on; reads take no time. *)
Definition server_status (final : string) (thing_id : string)
  (w : Poller.Scenario.world) : (Empty_set + string) * Poller.Scenario.world :=
  (inr (if Nat.eqb (Poller.Scenario.calls w) 0 then "BUILD" else final),
   {| Poller.Scenario.clock := Poller.Scenario.clock w;
      Poller.Scenario.calls := S (Poller.Scenario.calls w) |}).

Lemma status_timeout_returns_witness :
  exists k,
    fst (server_status "ACTIVE" "srv-1"
           (at_poll Poller.Scenario.sleep (server_status "ACTIVE") 3 "srv-1"
              "ACTIVE" k Poller.Scenario.start)) = inr "ACTIVE" /\
    k = 1%nat.
Proof.
  destruct (status_timeout_returns _ _ Poller.Scenario.time
              Poller.Scenario.sleep (server_status "ACTIVE") 300 3 10
              "srv-1" "ACTIVE" Poller.Scenario.start
              [Poller.Invoke false; Poller.Sleep 3; Poller.Invoke true]
              {| Poller.Scenario.clock := 1003; Poller.Scenario.calls := 2 |}
              eq_refl) as [_ [k [_ [Hget Hn]]]].
  exists k. split; [exact Hget|]. vm_compute in Hn. congruence.
Defined.

Lemma status_timeout_error_witness :
  status_timeout Poller.Scenario.time Poller.Scenario.sleep
    (server_status "ERROR") 300 3 10 "srv-1" "ERROR" Poller.Scenario.start =
  Some (inl in_error_state,
        [Poller.Invoke false; Poller.Sleep 3; Poller.InvokeRaised],
        {| Poller.Scenario.clock := 1003; Poller.Scenario.calls := 2 |}).
Proof.
  refine (status_timeout_error _ _ Poller.Scenario.time Poller.Scenario.sleep
            (server_status "ERROR") 300 3 1 "srv-1" "ERROR"
            Poller.Scenario.start _ _ _ 10%nat _).
  - intros i Hi. destruct i as [|i]; [|lia].
    split; [vm_compute; reflexivity|].
    exists "BUILD". repeat split; discriminate.
  - vm_compute. reflexivity.
  - reflexivity.
  - lia.
Defined.

End TestCase.

(* ===================================================================== *)
(** ** [fuel_plugin/ostf_adapter/storage/models.py] *)
(* ===================================================================== *)

Module Storage.
Local Open Scope string_scope.

(** *** Column values *)

(** A value of a [fields.JsonField] column. *)
#[local] Unset Elimination Schemes.
Inductive json : Type :=
| JNull
| JBool (b : bool)
| JNumber (z : Z)
| JString (s : string)
| JArray (items : list json)
| JObject (members : list (string * json)).
#[local] Set Elimination Schemes.

(** [x == y] on values that may be [None]; it is also what a filter
    [column == value] selects, SQLAlchemy rendering a comparison with [None]
    as [IS NULL]. *)
Definition opt_eqb {A : Type} (eqb : A -> A -> bool) (x y : option A) : bool :=
  match x, y with
  | Some a, Some b => eqb a b
  | None, None => true
  | _, _ => false
  end.

(** [x in names] for a value that may be [None] and a list of strings; it is
    also what a filter [column.in_(names)] selects. *)
Definition in_names (x : option string) (names : list string) : bool :=
  match x with
  | Some s => existsb (String.eqb s) names
  | None => false
  end.

(** *** The mapped classes: one record per row.

    The three classes share column names ([id], [status], [meta], ...), so
    the record fields carry the prefix of their table: [ts_] for
    [test_sets], [t_] for [tests], [tr_] for [test_runs].  A primary key is
    [None] on an object that the session has not flushed yet. *)

Record TestSetRow : Type := {
  ts_id : string;
  ts_description : option string;
  ts_test_path : option string;
  ts_driver : option string;
  ts_additional_arguments : option (list string);
  ts_cleanup_path : option string;
  ts_meta : option json
}.

Record TestRow : Type := {
  t_id : option Z;
  t_name : option string;
  t_title : option string;
  t_description : option string;
  t_duration : option string;
  t_message : option string;
  t_traceback : option string;
  t_status : option string;
  t_step : option Z;
  t_time_taken : option spec_float;
  t_meta : option json;
  t_test_set_id : option string;
  t_test_run_id : option Z
}.

Record TestRunRow : Type := {
  tr_id : option Z;
  tr_cluster_id : Z;
  tr_status : string;
  tr_meta : option json;
  tr_started_at : option Z;
  tr_ended_at : option Z;
  tr_test_set_id : option string
}.

(** [TestRun.STATES] and [Test.STATES], the values of the two [sa.Enum]
    columns. *)
Definition TestRun_STATES : list string := ["running"; "finished"].

Definition Test_STATES : list string :=
  ["wait_running"; "running"; "failure"; "success"; "error"; "stopped"].

(** *** The session and the external runner *)

(** A call made on the plugin returned by [nose_plugin.get_plugin]. *)
Inductive plugin_call : Type :=
| Run (test_run : TestRunRow) (test_set : TestSetRow)
      (tests : option (list string))
| Kill (test_run_id : option Z) (cluster_id : Z) (cleanup : option string).

(** The state the methods act on: the three tables of the session, the
    sequences its primary keys are drawn from, and the calls received by the
    runner so far. *)
Record World : Type := {
  test_sets : list TestSetRow;
  tests : list TestRow;
  test_runs : list TestRunRow;
  tests_seq : Z;
  test_runs_seq : Z;
  plugin_calls : list plugin_call
}.

Definition with_tests (ts : list TestRow) (seq : Z) (w : World) : World :=
  {| test_sets := test_sets w; tests := ts; test_runs := test_runs w;
     tests_seq := seq; test_runs_seq := test_runs_seq w;
     plugin_calls := plugin_calls w |}.

Definition with_test_runs (rs : list TestRunRow) (seq : Z) (w : World) : World :=
  {| test_sets := test_sets w; tests := tests w; test_runs := rs;
     tests_seq := tests_seq w; test_runs_seq := seq;
     plugin_calls := plugin_calls w |}.

Definition call_plugin (c : plugin_call) (w : World) : World :=
  {| test_sets := test_sets w; tests := tests w; test_runs := test_runs w;
     tests_seq := tests_seq w; test_runs_seq := test_runs_seq w;
     plugin_calls := plugin_calls w ++ [c] |}.

(** The plugin lives in [nose_plugin], outside this module.  Its [run]
    starts the checks elsewhere and returns nothing: the call is recorded in
    [plugin_calls].  Its [kill] answers whether the run was terminated. *)
Record Plugin : Type := {
  kill : option Z -> Z -> option string -> bool
}.

(** Exceptions the methods can raise on their own. *)
Inductive exn : Type :=
| KeyError (key : string)
| AttributeError (attribute : string)
| IntegrityError (column : string).

(** A method: it ends with a value or an exception, in a new state. *)
Definition M (A : Type) : Type := World -> (exn + A) * World.

Definition ret {A : Type} (a : A) : M A := fun w => (inr a, w).

Definition raise {A : Type} (e : exn) : M A := fun w => (inl e, w).

Definition bind {A B : Type} (m : M A) (k : A -> M B) : M B :=
  fun w =>
    match m w with
    | (inr a, w1) => k a w1
    | (inl e, w1) => (inl e, w1)
    end.

Definition get : M World := fun w => (inr w, w).

Definition modify (f : World -> World) : M unit := fun w => (inr tt, f w).

Notation "x <- m ;; k" := (bind m (fun x => k))
  (at level 61, m at next level, right associativity).
Notation "m ;;; k" := (bind m (fun _ => k))
  (at level 61, right associativity).

(** *** [TestSet] *)

Record TestSetFrontend : Type := {
  tsf_id : string;
  tsf_name : option string
}.

Definition TestSet_frontend (self : TestSetRow) : TestSetFrontend :=
  {| tsf_id := ts_id self; tsf_name := ts_description self |}.

Definition TestSet_get_test_set (w : World) (test_set : string)
  : option TestSetRow :=
  find (fun s => String.eqb (ts_id s) test_set) (test_sets w).

(** The [test_set] relationship of a run. *)
Definition tr_test_set (w : World) (self : TestRunRow) : option TestSetRow :=
  match tr_test_set_id self with
  | Some i => TestSet_get_test_set w i
  | None => None
  end.

(** *** [Test] *)

(** The dictionary of [Test.frontend]. *)
Record TestFrontend : Type := {
  tf_id : option string;
  tf_testset : option string;
  tf_name : option string;
  tf_description : option string;
  tf_duration : option string;
  tf_message : option string;
  tf_step : option Z;
  tf_status : option string;
  tf_taken : option spec_float
}.

Definition Test_frontend (self : TestRow) : TestFrontend :=
  {| tf_id := t_name self;
     tf_testset := t_test_set_id self;
     tf_name := t_title self;
     tf_description := t_description self;
     tf_duration := t_duration self;
     tf_message := t_message self;
     tf_step := t_step self;
     tf_status := t_status self;
     tf_taken := t_time_taken self |}.

Definition set_t_status (v : option string) (t : TestRow) : TestRow :=
  {| t_id := t_id t; t_name := t_name t; t_title := t_title t;
     t_description := t_description t; t_duration := t_duration t;
     t_message := t_message t; t_traceback := t_traceback t;
     t_status := v; t_step := t_step t; t_time_taken := t_time_taken t;
     t_meta := t_meta t; t_test_set_id := t_test_set_id t;
     t_test_run_id := t_test_run_id t |}.

(** One entry of the [data] dictionary of [add_result]: a column of [tests]
    and the value to store in it. *)
Inductive assignment : Type :=
| set_id (v : option Z)
| set_name (v : option string)
| set_title (v : option string)
| set_description (v : option string)
| set_duration (v : option string)
| set_message (v : option string)
| set_traceback (v : option string)
| set_status (v : option string)
| set_step (v : option Z)
| set_time_taken (v : option spec_float)
| set_meta (v : option json)
| set_test_set_id (v : option string)
| set_test_run_id (v : option Z).

Definition assign (a : assignment) (t : TestRow) : TestRow :=
  {| t_id := match a with set_id v => v | _ => t_id t end;
     t_name := match a with set_name v => v | _ => t_name t end;
     t_title := match a with set_title v => v | _ => t_title t end;
     t_description :=
       match a with set_description v => v | _ => t_description t end;
     t_duration := match a with set_duration v => v | _ => t_duration t end;
     t_message := match a with set_message v => v | _ => t_message t end;
     t_traceback :=
       match a with set_traceback v => v | _ => t_traceback t end;
     t_status := match a with set_status v => v | _ => t_status t end;
     t_step := match a with set_step v => v | _ => t_step t end;
     t_time_taken :=
       match a with set_time_taken v => v | _ => t_time_taken t end;
     t_meta := match a with set_meta v => v | _ => t_meta t end;
     t_test_set_id :=
       match a with set_test_set_id v => v | _ => t_test_set_id t end;
     t_test_run_id :=
       match a with set_test_run_id v => v | _ => t_test_run_id t end |}.

(** [UPDATE tests SET data]: every entry of the dictionary is stored. *)
Definition assign_all (data : list assignment) (t : TestRow) : TestRow :=
  fold_left (fun t a => assign a t) data t.

(** [session.query(cls).filter(p).update(values)]: the rows selected by [p]
    are rewritten in place, the others are left as they are. *)
Definition update_where {A : Type} (p : A -> bool) (f : A -> A) (rows : list A)
  : list A :=
  map (fun row => if p row then f row else row) rows.

Definition Test_add_result (test_run_id : option Z) (test_name : option string)
  (data : list assignment) : M unit :=
  modify (fun w =>
    with_tests
      (update_where
         (fun t => opt_eqb String.eqb (t_name t) test_name
                   && opt_eqb Z.eqb (t_test_run_id t) test_run_id)
         (assign_all data) (tests w))
      (tests_seq w) w).

Definition Test_update_running_tests (test_run_id : option Z) (status : string)
  : M unit :=
  modify (fun w =>
    with_tests
      (update_where
         (fun t => opt_eqb Z.eqb (t_test_run_id t) test_run_id
                   && in_names (t_status t) ["running"; "wait_running"])
         (set_t_status (Some status)) (tests w))
      (tests_seq w) w).

Definition Test_update_test_run_tests (test_run_id : option Z)
  (tests_names : list string) (status : string) : M unit :=
  modify (fun w =>
    with_tests
      (update_where
         (fun t => in_names (t_name t) tests_names
                   && opt_eqb Z.eqb (t_test_run_id t) test_run_id)
         (set_t_status (Some status)) (tests w))
      (tests_seq w) w).

(** [copy_test]: every column but the primary key is copied, then the run
    and the status are set.  (The loop over [mapper.iterate_properties] also
    passes over the relationships [test_set] and [test_run]; the row is its
    columns.) *)
Definition Test_copy_test (self : TestRow) (test_run : TestRunRow)
  (predefined_tests : list string) : TestRow :=
  let new_test :=
    {| t_id := None; t_name := t_name self; t_title := t_title self;
       t_description := t_description self; t_duration := t_duration self;
       t_message := t_message self; t_traceback := t_traceback self;
       t_status := t_status self; t_step := t_step self;
       t_time_taken := t_time_taken self; t_meta := t_meta self;
       t_test_set_id := t_test_set_id self;
       t_test_run_id := tr_id test_run |} in
  if match predefined_tests with [] => false | _ => true end
     && negb (in_names (t_name new_test) predefined_tests)
  then set_t_status (Some "disabled") new_test
  else set_t_status (Some "wait_running") new_test.

(** *** [TestRun] *)

(** The dictionary of [TestRun.frontend]. *)
Record TestRunFrontend : Type := {
  trf_id : option Z;
  trf_testset : option string;
  trf_meta : option json;
  trf_cluster_id : Z;
  trf_status : string;
  trf_started_at : option Z;
  trf_ended_at : option Z;
  trf_tests : list TestFrontend
}.

(** What [start] and [restart] return: the empty dictionary or a snapshot. *)
Inductive result : Type :=
| EmptyDict
| Snapshot (frontend : TestRunFrontend).

Definition set_tr_status (v : string) (r : TestRunRow) : TestRunRow :=
  {| tr_id := tr_id r; tr_cluster_id := tr_cluster_id r; tr_status := v;
     tr_meta := tr_meta r; tr_started_at := tr_started_at r;
     tr_ended_at := tr_ended_at r; tr_test_set_id := tr_test_set_id r |}.

Definition set_tr_ended_at (v : option Z) (r : TestRunRow) : TestRunRow :=
  {| tr_id := tr_id r; tr_cluster_id := tr_cluster_id r;
     tr_status := tr_status r; tr_meta := tr_meta r;
     tr_started_at := tr_started_at r; tr_ended_at := v;
     tr_test_set_id := tr_test_set_id r |}.

(** [ORDER BY tests.name], as a stable insertion sort; a [NULL] name sorts
    first. *)
Definition name_leb (a b : option string) : bool :=
  match a, b with
  | None, _ => true
  | Some _, None => false
  | Some x, Some y => String.leb x y
  end.

Fixpoint insert_by_name (t : TestRow) (l : list TestRow) : list TestRow :=
  match l with
  | [] => [t]
  | u :: l' =>
      if name_leb (t_name t) (t_name u) then t :: l
      else u :: insert_by_name t l'
  end.

Definition order_by_name (l : list TestRow) : list TestRow :=
  fold_right insert_by_name [] l.

(** The [tests] relationship of a run, as loaded from the session when it is
    read; an object without a primary key has no records. *)
Definition tr_tests (w : World) (self : TestRunRow) : list TestRow :=
  match tr_id self with
  | None => []
  | Some _ =>
      order_by_name
        (filter (fun t => opt_eqb Z.eqb (t_test_run_id t) (tr_id self))
                (tests w))
  end.

(** What the [status] column of [tests] accepts: it is declared as an
    [sa.Enum] of [STATES] and nullable, so [NULL] or one of [Test.STATES]. *)
Definition status_allowed (status : option string) : bool :=
  match status with
  | None => true
  | Some s => existsb (String.eqb s) Test_STATES
  end.

(** [session.add(test)] for a new test: the row is inserted, with a primary
    key drawn from the sequence when it has none.  The insertion fails with
    [IntegrityError], and inserts nothing, when the status of the row is not
    one the column accepts.  As for the primary keys, the insertion is taken
    at the [add]; SQLAlchemy sends it with the flush that follows, so what is
    read of a failed call is its exception and the rows it has not stored,
    not the point where it stopped. *)
Definition session_add_test (t : TestRow) : M unit :=
  if status_allowed (t_status t) then
    modify (fun w =>
      match t_id t with
      | None =>
          with_tests (tests w ++ [assign (set_id (Some (tests_seq w))) t])
                     (tests_seq w + 1) w
      | Some _ => with_tests (tests w ++ [t]) (tests_seq w) w
      end)
  else raise (IntegrityError "status").

Definition has_id (i : Z) (r : TestRunRow) : bool :=
  opt_eqb Z.eqb (tr_id r) (Some i).

(** [session.add(test_run)].  An object without a primary key is inserted
    with a fresh one, and [started_at] takes its default, the time of the
    insertion.  An object with a primary key overwrites the row that has
    this key, or is inserted if there is none.  The object as it is after the
    flush is returned. *)
Definition session_add_test_run (now : Z) (r : TestRunRow) : M TestRunRow :=
  fun w =>
    let with_default r :=
      {| tr_id := tr_id r; tr_cluster_id := tr_cluster_id r;
         tr_status := tr_status r; tr_meta := tr_meta r;
         tr_started_at :=
           match tr_started_at r with Some t => Some t | None => Some now end;
         tr_ended_at := tr_ended_at r;
         tr_test_set_id := tr_test_set_id r |} in
    match tr_id r with
    | None =>
        let r' :=
          {| tr_id := Some (test_runs_seq w);
             tr_cluster_id := tr_cluster_id r; tr_status := tr_status r;
             tr_meta := tr_meta r;
             tr_started_at := tr_started_at (with_default r);
             tr_ended_at := tr_ended_at r;
             tr_test_set_id := tr_test_set_id r |} in
        (inr r', with_test_runs (test_runs w ++ [r']) (test_runs_seq w + 1) w)
    | Some i =>
        if existsb (has_id i) (test_runs w)
        then (inr r,
              with_test_runs
                (update_where (has_id i) (fun _ => r) (test_runs w))
                (test_runs_seq w) w)
        else (inr (with_default r),
              with_test_runs (test_runs w ++ [with_default r])
                (test_runs_seq w) w)
    end.

(** [update]: returns [self] as the method leaves it. *)
Definition TestRun_update (now : Z) (self : TestRunRow) (status : string)
  : M TestRunRow :=
  let self := set_tr_status status self in
  let self :=
    if String.eqb status "finished" then set_tr_ended_at (Some now) self
    else self in
  session_add_test_run now self.

Definition TestRun_enabled_tests (w : World) (self : TestRunRow)
  : list (option string) :=
  map t_name
    (filter (fun test => negb (opt_eqb String.eqb (t_status test)
                                 (Some "disabled")))
            (tr_tests w self)).

Definition TestRun_is_finished (self : TestRunRow) : bool :=
  String.eqb (tr_status self) "finished".

Definition TestRun_frontend (w : World) (self : TestRunRow) : TestRunFrontend :=
  {| trf_id := tr_id self;
     trf_testset := tr_test_set_id self;
     trf_meta := tr_meta self;
     trf_cluster_id := tr_cluster_id self;
     trf_status := tr_status self;
     trf_started_at := tr_started_at self;
     trf_ended_at := tr_ended_at self;
     trf_tests := map Test_frontend (tr_tests w self) |}.

Fixpoint for_each {A : Type} (l : list A) (body : A -> M unit) : M unit :=
  match l with
  | [] => ret tt
  | a :: l' => body a ;;; for_each l' body
  end.

(** The check definitions of a suite: the rows of [tests] of that suite that
    belong to no run. *)
Definition is_template (test_set : string) (t : TestRow) : bool :=
  opt_eqb String.eqb (t_test_set_id t) (Some test_set)
  && opt_eqb Z.eqb (t_test_run_id t) None.

(** [add_test_run].  The query for the templates runs when the loop starts;
    the session flushes the pending run first, which gives it its id. *)
Definition TestRun_add_test_run (now : Z) (test_set : string) (cluster_id : Z)
  (status : string) (tests_arg : option (list string)) : M TestRunRow :=
  let predefined_tests :=
    match tests_arg with Some l => l | None => [] end in
  let test_run :=
    {| tr_id := None; tr_cluster_id := cluster_id; tr_status := status;
       tr_meta := None; tr_started_at := None; tr_ended_at := None;
       tr_test_set_id := Some test_set |} in
  test_run <- session_add_test_run now test_run ;;
  w <- get ;;
  let tests := filter (is_template test_set) (tests w) in
  for_each tests
    (fun test => session_add_test (Test_copy_test test test_run predefined_tests)) ;;;
  ret test_run.

(** [ORDER BY id DESC ... first()]: the row with the highest id. *)
Definition id_ltb (a b : option Z) : bool :=
  match a, b with
  | Some x, Some y => (x <? y)%Z
  | None, Some _ => true
  | _, _ => false
  end.

Fixpoint first_by_id_desc (rows : list TestRunRow) : option TestRunRow :=
  match rows with
  | [] => None
  | r :: rows' =>
      match first_by_id_desc rows' with
      | None => Some r
      | Some best => if id_ltb (tr_id r) (tr_id best) then Some best else Some r
      end
  end.

Definition of_pair (test_set : option string) (cluster_id : Z) (r : TestRunRow)
  : bool :=
  (tr_cluster_id r =? cluster_id)%Z
  && opt_eqb String.eqb (tr_test_set_id r) test_set.

Definition TestRun_get_last_test_run (w : World) (test_set : option string)
  (cluster_id : Z) : option TestRunRow :=
  first_by_id_desc (filter (of_pair test_set cluster_id) (test_runs w)).

Definition TestRun_get_test_run (w : World) (test_run_id : Z) (joined : bool)
  : option TestRunRow :=
  find (has_id test_run_id) (test_runs w).

(** [update_test_run]; an empty [updated_data] changes no row. *)
Definition TestRun_update_test_run (now : Z) (test_run_id : Z)
  (status : option string) : M unit :=
  let truthy := match status with Some "" | None => false | Some _ => true end in
  let finished := opt_eqb String.eqb status (Some "finished") in
  modify (fun w =>
    with_test_runs
      (update_where (has_id test_run_id)
         (fun r =>
            let r := match status with
                     | Some s => if truthy then set_tr_status s r else r
                     | None => r
                     end in
            if finished then set_tr_ended_at (Some now) r else r)
         (test_runs w))
      (test_runs_seq w) w).

Definition TestRun_is_last_running (w : World) (test_set : option string)
  (cluster_id : Z) : bool :=
  match TestRun_get_last_test_run w test_set cluster_id with
  | None => true
  | Some test_run => TestRun_is_finished test_run
  end.

(** [metadata.get(key)] and [metadata[key]] for the dictionary given to
    [start]; only its integer entry ['cluster_id'] is read. *)
Fixpoint dict_get (d : list (string * Z)) (key : string) : option Z :=
  match d with
  | [] => None
  | (k, v) :: d' => if String.eqb k key then Some v else dict_get d' key
  end.

Definition getitem (d : list (string * Z)) (key : string) : M Z :=
  match dict_get d key with
  | Some v => ret v
  | None => raise (KeyError key)
  end.

Section WithPlugin.
(** [nose_plugin.get_plugin], from the driver of a test set to a plugin. *)
Variable get_plugin : option string -> Plugin.

Definition TestRun_start (now : Z) (test_set : TestSetRow)
  (metadata : list (string * Z)) (tests : option (list string)) : M result :=
  let plugin := get_plugin (ts_driver test_set) in
  cluster_id <- getitem metadata "cluster_id" ;;
  w <- get ;;
  if TestRun_is_last_running w (Some (ts_id test_set)) cluster_id then
    test_run <- TestRun_add_test_run now (ts_id test_set) cluster_id
                  "running" tests ;;
    modify (call_plugin (Run test_run test_set None)) ;;;
    w <- get ;;
    ret (Snapshot (TestRun_frontend w test_run))
  else ret EmptyDict.

Definition TestRun_restart (now : Z) (self : TestRunRow)
  (tests : option (list string)) : M result :=
  w <- get ;;
  if TestRun_is_last_running w (tr_test_set_id self) (tr_cluster_id self) then
    match tr_test_set w self with
    | None => raise (AttributeError "driver")
    | Some test_set =>
        let plugin := get_plugin (ts_driver test_set) in
        self <- TestRun_update now self "running" ;;
        match tests with
        | Some (name :: names) =>
            Test_update_test_run_tests (tr_id self) (name :: names)
              "wait_running"
        | _ => ret tt
        end ;;;
        modify (call_plugin (Run self test_set tests)) ;;;
        w <- get ;;
        ret (Snapshot (TestRun_frontend w self))
    end
  else ret EmptyDict.

Definition TestRun_stop (self : TestRunRow) : M TestRunFrontend :=
  w <- get ;;
  match tr_test_set w self with
  | None => raise (AttributeError "driver")
  | Some test_set =>
      let plugin := get_plugin (ts_driver test_set) in
      let killed :=
        kill plugin (tr_id self) (tr_cluster_id self)
          (ts_cleanup_path test_set) in
      modify (call_plugin (Kill (tr_id self) (tr_cluster_id self)
                             (ts_cleanup_path test_set))) ;;;
      (if killed
       then Test_update_running_tests (tr_id self) "stopped"
       else ret tt) ;;;
      w <- get ;;
      ret (TestRun_frontend w self)
  end.

End WithPlugin.

(** *** Concrete sessions: the suite [smoke] with the checks [net] and
    [disk] *)

Module Scenario.

Definition smoke : TestSetRow :=
  {| ts_id := "smoke"; ts_description := Some "Smoke tests";
     ts_test_path := Some "fuel_health.tests.smoke";
     ts_driver := Some "nose"; ts_additional_arguments := Some [];
     ts_cleanup_path := Some "fuel_health.cleanup"; ts_meta := None |}.

(** A row of [tests]: a check definition when [run] is [None]. *)
Definition check (id : Z) (name : string) (status : string) (run : option Z)
  : TestRow :=
  {| t_id := Some id; t_name := Some name; t_title := Some name;
     t_description := None; t_duration := None; t_message := None;
     t_traceback := None; t_status := Some status; t_step := None;
     t_time_taken := None; t_meta := None; t_test_set_id := Some "smoke";
     t_test_run_id := run |}.

Definition net : TestRow := check 1 "net" "wait_running" None.
Definition disk : TestRow := check 2 "disk" "wait_running" None.

(** Scenario A: no run yet. *)
Definition fresh : World :=
  {| test_sets := [smoke]; tests := [net; disk]; test_runs := [];
     tests_seq := 3; test_runs_seq := 1; plugin_calls := [] |}.

Definition run7 (status : string) (ended_at : option Z) : TestRunRow :=
  {| tr_id := Some 7; tr_cluster_id := 1; tr_status := status;
     tr_meta := None; tr_started_at := Some 10; tr_ended_at := ended_at;
     tr_test_set_id := Some "smoke" |}.

(** Scenario B: run 7 in flight, [net] running and [disk] waiting. *)
Definition in_flight : World :=
  {| test_sets := [smoke];
     tests := [net; disk; check 3 "net" "running" (Some 7);
               check 4 "disk" "wait_running" (Some 7)];
     test_runs := [run7 "running" None];
     tests_seq := 5; test_runs_seq := 8; plugin_calls := [] |}.

(** Scenario C: run 7 finished at time 50, [net] passed and [disk]
    failed. *)
Definition finished : World :=
  {| test_sets := [smoke];
     tests := [net; disk; check 3 "net" "success" (Some 7);
               check 4 "disk" "failure" (Some 7)];
     test_runs := [run7 "finished" (Some 50)];
     tests_seq := 5; test_runs_seq := 8; plugin_calls := [] |}.

(** A runner that confirms every kill, and one that confirms none. *)
Definition obliging (driver : option string) : Plugin :=
  {| kill := fun _ _ _ => true |}.

Definition stubborn (driver : option string) : Plugin :=
  {| kill := fun _ _ _ => false |}.

End Scenario.

(** *** Properties of [Test] *)

Lemma with_tests_same w : with_tests (tests w) (tests_seq w) w = w.
Proof. destruct w; reflexivity. Qed.

Lemma with_test_runs_same w :
  with_test_runs (test_runs w) (test_runs_seq w) w = w.
Proof. destruct w; reflexivity. Qed.

Lemma update_where_none {A : Type} (p : A -> bool) (f : A -> A) rows :
  (forall row, In row rows -> p row = false) -> update_where p f rows = rows.
Proof.
  unfold update_where. induction rows as [|row rows IH]; intros H;
    [reflexivity|].
  simpl. rewrite (H row) by (left; reflexivity).
  f_equal. apply IH. intros r Hr. apply H. right. exact Hr.
Qed.

Lemma update_where_length {A : Type} (p : A -> bool) (f : A -> A) rows :
  length (update_where p f rows) = length rows.
Proof. unfold update_where. apply length_map. Qed.

Lemma update_where_nth {A : Type} (p : A -> bool) (f : A -> A) rows i :
  nth_error (update_where p f rows) i =
  option_map (fun row => if p row then f row else row) (nth_error rows i).
Proof. unfold update_where. apply nth_error_map. Qed.

Lemma update_where_In {A : Type} (p : A -> bool) (f : A -> A) rows row' :
  In row' (update_where p f rows) ->
  exists row, In row rows /\ row' = if p row then f row else row.
Proof.
  unfold update_where. intros H. apply in_map_iff in H.
  destruct H as [row [E Hin]]. exists row. split; [exact Hin | now symmetry].
Qed.

(** C4.  [copy_test], given a non-empty list of enabled checks that leaves
    out the check's name, stores the status ['disabled'], which is not one of
    [Test.STATES], the values declared for the [status] column; the statuses
    written by the bulk updates of [stop] and [restart] are. *)
Theorem copy_test_status_outside_STATES :
  t_status (Test_copy_test Scenario.net (Scenario.run7 "running" None)
              ["disk"]) = Some "disabled" /\
  ~ In "disabled" Test_STATES /\
  length Test_STATES = 6%nat /\
  In "wait_running" Test_STATES /\ In "stopped" Test_STATES.
Proof.
  repeat split; try reflexivity.
  - simpl. intros H. repeat (destruct H as [H|H]; [discriminate H|]).
    exact H.
  - simpl. auto.
  - simpl. auto 10.
Qed.

(** The columns of [tests], and values of any of their types. *)
Inductive column : Type :=
| c_id | c_name | c_title | c_description | c_duration | c_message
| c_traceback | c_status | c_step | c_time_taken | c_meta | c_test_set_id
| c_test_run_id.

Inductive value : Type :=
| VInteger (v : option Z)
| VString (v : option string)
| VFloat (v : option spec_float)
| VJson (v : option json).

Definition column_eqb (a b : column) : bool :=
  match a, b with
  | c_id, c_id | c_name, c_name | c_title, c_title
  | c_description, c_description | c_duration, c_duration
  | c_message, c_message | c_traceback, c_traceback | c_status, c_status
  | c_step, c_step | c_time_taken, c_time_taken | c_meta, c_meta
  | c_test_set_id, c_test_set_id | c_test_run_id, c_test_run_id => true
  | _, _ => false
  end.

Definition getattr (t : TestRow) (c : column) : value :=
  match c with
  | c_id => VInteger (t_id t)
  | c_name => VString (t_name t)
  | c_title => VString (t_title t)
  | c_description => VString (t_description t)
  | c_duration => VString (t_duration t)
  | c_message => VString (t_message t)
  | c_traceback => VString (t_traceback t)
  | c_status => VString (t_status t)
  | c_step => VInteger (t_step t)
  | c_time_taken => VFloat (t_time_taken t)
  | c_meta => VJson (t_meta t)
  | c_test_set_id => VString (t_test_set_id t)
  | c_test_run_id => VInteger (t_test_run_id t)
  end.

(** The key and the value of an entry of [data]. *)
Definition key_of (a : assignment) : column :=
  match a with
  | set_id _ => c_id | set_name _ => c_name | set_title _ => c_title
  | set_description _ => c_description | set_duration _ => c_duration
  | set_message _ => c_message | set_traceback _ => c_traceback
  | set_status _ => c_status | set_step _ => c_step
  | set_time_taken _ => c_time_taken | set_meta _ => c_meta
  | set_test_set_id _ => c_test_set_id | set_test_run_id _ => c_test_run_id
  end.

Definition value_of (a : assignment) : value :=
  match a with
  | set_id v | set_step v | set_test_run_id v => VInteger v
  | set_name v | set_title v | set_description v | set_duration v
  | set_message v | set_traceback v | set_status v | set_test_set_id v =>
      VString v
  | set_time_taken v => VFloat v
  | set_meta v => VJson v
  end.

(** [data.get(c)]: the value supplied for column [c], if any (the last one,
    should the list name a column twice). *)
Definition supplied (data : list assignment) (c : column) : option value :=
  option_map value_of
    (find (fun a => column_eqb (key_of a) c) (rev data)).

Lemma getattr_assign a t c :
  getattr (assign a t) c =
  if column_eqb (key_of a) c then value_of a else getattr t c.
Proof. destruct a, c; reflexivity. Qed.

Lemma getattr_assign_all data : forall t c,
  getattr (assign_all data t) c =
  match supplied data c with Some v => v | None => getattr t c end.
Proof.
  unfold assign_all, supplied.
  induction data as [|a data IH] using rev_ind; intros t c; [reflexivity|].
  rewrite fold_left_app, rev_app_distr. cbn [fold_left rev app find].
  rewrite getattr_assign.
  destruct (column_eqb (key_of a) c); [reflexivity | apply IH].
Qed.

(** The rows selected by [add_result]. *)
Definition result_of (test_run_id : option Z) (test_name : option string)
  (t : TestRow) : bool :=
  opt_eqb String.eqb (t_name t) test_name
  && opt_eqb Z.eqb (t_test_run_id t) test_run_id.

(** C7.  [add_result] never raises.  When no row of [tests] has the given
    run id and name, the session is left exactly as it was.  In general the
    rows stay in place, a row that is not selected is untouched, and in a
    selected row every column named in [data] holds the supplied value and
    every other column its old value; nothing but [tests] changes. *)
Theorem add_result_spec (test_run_id : option Z) (test_name : option string)
  (data : list assignment) (w : World) :
  let out := Test_add_result test_run_id test_name data w in
  fst out = inr tt /\
  ((forall t, In t (tests w) -> result_of test_run_id test_name t = false) ->
   snd out = w) /\
  test_runs (snd out) = test_runs w /\
  test_sets (snd out) = test_sets w /\
  plugin_calls (snd out) = plugin_calls w /\
  length (tests (snd out)) = length (tests w) /\
  (forall i t, nth_error (tests w) i = Some t ->
     exists t', nth_error (tests (snd out)) i = Some t' /\
       (result_of test_run_id test_name t = false -> t' = t) /\
       (result_of test_run_id test_name t = true ->
        forall c, getattr t' c =
                  match supplied data c with
                  | Some v => v
                  | None => getattr t c
                  end)).
Proof.
  cbn. repeat split.
  - intros H. rewrite update_where_none by exact H. apply with_tests_same.
  - apply update_where_length.
  - intros i t Hi. rewrite update_where_nth, Hi. cbn [option_map].
    fold (result_of test_run_id test_name t).
    destruct (result_of test_run_id test_name t) eqn:Hm.
    + eexists; split; [reflexivity|]. split; [discriminate|].
      intros _ c. apply getattr_assign_all.
    + eexists; split; [reflexivity|]. split; [reflexivity | discriminate].
Qed.

(** A result for a run that does not exist, and a result for [disk] of
    run 7. *)
Lemma add_result_spec_witness :
  snd (Test_add_result (Some 99) (Some "disk")
         [set_status (Some "success")] Scenario.in_flight) =
    Scenario.in_flight /\
  exists t',
    nth_error (tests (snd (Test_add_result (Some 7) (Some "disk")
                             [set_status (Some "success");
                              set_message (Some "ok")]
                             Scenario.in_flight))) 3 = Some t' /\
    getattr t' c_status = VString (Some "success") /\
    getattr t' c_name = VString (Some "disk").
Proof.
  split.
  - apply (proj1 (proj2 (add_result_spec (Some 99) (Some "disk")
                           [set_status (Some "success")]
                           Scenario.in_flight))).
    intros t Ht. simpl in Ht.
    repeat (destruct Ht as [<-|Ht]; [reflexivity|]). contradiction.
  - destruct (proj2 (proj2 (proj2 (proj2 (proj2 (proj2
               (add_result_spec (Some 7) (Some "disk")
                  [set_status (Some "success"); set_message (Some "ok")]
                  Scenario.in_flight))))))
               3%nat (Scenario.check 4 "disk" "wait_running" (Some 7))
               eq_refl) as [t' [Hn [_ Hsel]]].
    exists t'. split; [exact Hn|].
    split; [exact (Hsel eq_refl c_status) | exact (Hsel eq_refl c_name)].
Defined.

(** *** Properties of [TestRun] *)

(** [session.add(test_run)] touches the [test_runs] table only, and an
    object that has its primary key keeps it. *)
Lemma session_add_test_run_frame now r w :
  let out := session_add_test_run now r w in
  tests (snd out) = tests w /\ tests_seq (snd out) = tests_seq w /\
  test_sets (snd out) = test_sets w /\
  plugin_calls (snd out) = plugin_calls w.
Proof.
  unfold session_add_test_run.
  destruct (tr_id r) as [i|]; [destruct (existsb (has_id i) (test_runs w))|];
    cbn; repeat split.
Qed.

Lemma session_add_test_run_persistent now r w i :
  tr_id r = Some i ->
  exists r', fst (session_add_test_run now r w) = inr r' /\
    tr_id r' = Some i /\ tr_status r' = tr_status r /\
    tr_ended_at r' = tr_ended_at r /\ tr_cluster_id r' = tr_cluster_id r /\
    tr_test_set_id r' = tr_test_set_id r.
Proof.
  intros Hid. unfold session_add_test_run. rewrite Hid.
  destruct (existsb (has_id i) (test_runs w)); cbn;
    eexists; (split; [reflexivity|]); cbn; repeat split; assumption.
Qed.

(** The records [stop] may touch: those of the run that are still running
    or waiting. *)
Definition in_flight (self : TestRunRow) (t : TestRow) : bool :=
  opt_eqb Z.eqb (t_test_run_id t) (tr_id self)
  && in_names (t_status t) ["running"; "wait_running"].

(** C5.  For a run whose test set is in the session, [stop] asks the runner
    to kill the run and returns the snapshot of the run, whatever the runner
    answers.  The [test_runs] table, and so the status of the run, is left as
    it is.  If the runner does not confirm, no record changes.  If it does,
    exactly the records of this run with status ['running'] or
    ['wait_running'] get the status ['stopped'] and nothing else in them
    changes; records with any other status (['success'], ['failure'],
    ['error'], ['disabled']) and records of other runs are untouched. *)
Theorem stop_spec (get_plugin : option string -> Plugin) (self : TestRunRow)
  (w : World) (test_set : TestSetRow) :
  tr_test_set w self = Some test_set ->
  let killed :=
    kill (get_plugin (ts_driver test_set)) (tr_id self) (tr_cluster_id self)
      (ts_cleanup_path test_set) in
  let out := TestRun_stop get_plugin self w in
  fst out = inr (TestRun_frontend (snd out) self) /\
  trf_status (TestRun_frontend (snd out) self) = tr_status self /\
  test_runs (snd out) = test_runs w /\
  test_sets (snd out) = test_sets w /\
  plugin_calls (snd out) =
    (plugin_calls w ++ [Kill (tr_id self) (tr_cluster_id self)
                          (ts_cleanup_path test_set)])%list /\
  (killed = false -> tests (snd out) = tests w) /\
  length (tests (snd out)) = length (tests w) /\
  (forall i t, nth_error (tests w) i = Some t ->
     exists t', nth_error (tests (snd out)) i = Some t' /\
       (killed = true -> in_flight self t = true ->
        t' = set_t_status (Some "stopped") t) /\
       (in_flight self t = false -> t' = t) /\
       (forall s, t_status t = Some s ->
          In s ["success"; "failure"; "error"; "disabled"] -> t' = t) /\
       (opt_eqb Z.eqb (t_test_run_id t) (tr_id self) = false -> t' = t)).
Proof.
  intros Hts killed out. subst out.
  unfold TestRun_stop, bind, get. rewrite Hts. fold killed.
  destruct killed eqn:Hk; cbn [modify ret fst snd Test_update_running_tests].
  - cbn [call_plugin with_tests tests test_runs test_sets plugin_calls
         tests_seq test_runs_seq].
    repeat split; try discriminate.
    + apply update_where_length.
    + intros i t Hi. rewrite update_where_nth, Hi. cbn [option_map].
      fold (in_flight self t).
      assert (Hother :
        forall s, t_status t = Some s ->
          In s ["success"; "failure"; "error"; "disabled"] ->
          in_flight self t = false).
      { intros s Hs Hin. unfold in_flight. rewrite Hs.
        simpl in Hin.
        destruct Hin as [E|[E|[E|[E|E]]]]; try contradiction;
          rewrite <- E; cbn; apply andb_false_r. }
      destruct (in_flight self t) eqn:Hf; eexists; (split; [reflexivity|]).
      * repeat split; try discriminate; try reflexivity.
        -- intros s Hs Hin. discriminate (Hother s Hs Hin).
        -- intros Hne. unfold in_flight in Hf. rewrite Hne in Hf.
           discriminate.
      * repeat split; try discriminate; reflexivity.
  - cbn [call_plugin tests test_runs test_sets plugin_calls].
    repeat split; try discriminate.
    intros i t Hi. exists t. split; [exact Hi|].
    repeat split; try discriminate; reflexivity.
Qed.

(** Scenario B: [net] is running and [disk] is waiting; after [stop], with a
    runner that confirms, both are stopped and run 7 is still running. *)
Lemma stop_spec_witness :
  map t_status (tests (snd (TestRun_stop Scenario.obliging
                              (Scenario.run7 "running" None)
                              Scenario.in_flight))) =
    [Some "wait_running"; Some "wait_running";
     Some "stopped"; Some "stopped"] /\
  test_runs (snd (TestRun_stop Scenario.obliging
                    (Scenario.run7 "running" None) Scenario.in_flight)) =
    [Scenario.run7 "running" None].
Proof.
  split; [reflexivity|].
  exact (proj1 (proj2 (proj2
           (stop_spec Scenario.obliging (Scenario.run7 "running" None)
              Scenario.in_flight Scenario.smoke eq_refl)))).
Defined.

(** [update] touches the [test_runs] table only; on an object that has its
    primary key it returns the object with the new status, and with
    [ended_at] stamped when, and only when, the status is ['finished']. *)
Lemma TestRun_update_spec now self status w i :
  tr_id self = Some i ->
  exists self',
    fst (TestRun_update now self status w) = inr self' /\
    tr_id self' = Some i /\ tr_status self' = status /\
    tr_ended_at self' =
      (if String.eqb status "finished" then Some now else tr_ended_at self) /\
    tr_cluster_id self' = tr_cluster_id self /\
    tr_test_set_id self' = tr_test_set_id self /\
    tests (snd (TestRun_update now self status w)) = tests w /\
    tests_seq (snd (TestRun_update now self status w)) = tests_seq w /\
    test_sets (snd (TestRun_update now self status w)) = test_sets w /\
    plugin_calls (snd (TestRun_update now self status w)) = plugin_calls w.
Proof.
  intros Hid. unfold TestRun_update.
  set (self1 := if String.eqb status "finished"
                then set_tr_ended_at (Some now) (set_tr_status status self)
                else set_tr_status status self).
  assert (Hid1 : tr_id self1 = Some i)
    by (subst self1; destruct (String.eqb status "finished"); exact Hid).
  destruct (session_add_test_run_persistent now self1 w i Hid1)
    as [self' [Hr [Hi' [Hs [He [Hc Hts]]]]]].
  destruct (session_add_test_run_frame now self1 w) as [F1 [F2 [F3 F4]]].
  exists self'. rewrite Hr, Hi', Hs, He, Hc, Hts.
  subst self1.
  destruct (String.eqb status "finished"); cbn; repeat split; assumption.
Qed.

(** The records [restart] re-arms: those of run [i] whose name is one of
    [names]. *)
Definition named (i : Z) (names : list string) (t : TestRow) : bool :=
  in_names (t_name t) names && opt_eqb Z.eqb (t_test_run_id t) (Some i).

Lemma named_nil i t : named i [] t = false.
Proof. unfold named, in_names. destruct (t_name t); reflexivity. Qed.

(** C6.  Let [self] be run [i], with its test set in the session, and let
    the last run of its (test set, cluster) pair be absent or finished.
    Then [restart] returns a snapshot of the run, now ['running'], tells the
    runner to run it, and gives the status ['wait_running'] to exactly the
    records of run [i] whose name is in the given list; every other record,
    and every other column of the re-armed ones, is as before. *)
Theorem restart_spec (get_plugin : option string -> Plugin) (now : Z)
  (self : TestRunRow) (tests_arg : option (list string)) (w : World)
  (test_set : TestSetRow) (i : Z) :
  tr_id self = Some i ->
  TestRun_is_last_running w (tr_test_set_id self) (tr_cluster_id self) = true ->
  tr_test_set w self = Some test_set ->
  let names := match tests_arg with Some l => l | None => [] end in
  let out := TestRun_restart get_plugin now self tests_arg w in
  (exists self',
     fst out = inr (Snapshot (TestRun_frontend (snd out) self')) /\
     tr_id self' = Some i /\ tr_status self' = "running" /\
     plugin_calls (snd out) =
       (plugin_calls w ++ [Run self' test_set tests_arg])%list) /\
  length (tests (snd out)) = length (tests w) /\
  (forall k t, nth_error (tests w) k = Some t ->
     exists t', nth_error (tests (snd out)) k = Some t' /\
       (named i names t = true ->
        t' = set_t_status (Some "wait_running") t) /\
       (named i names t = false -> t' = t)).
Proof.
  intros Hid Hlast Hts names out. subst out.
  unfold TestRun_restart, bind, get. rewrite Hlast, Hts.
  destruct (TestRun_update_spec now self "running" w i Hid)
    as [self' [Hr [Hi' [Hs [_ [_ [_ [Ft [Fq [Fs Fp]]]]]]]]]].
  destruct (TestRun_update now self "running" w) as [r w1].
  cbn [fst snd] in *. subst r.
  destruct tests_arg as [[|name rest]|]; subst names;
    cbn [ret modify fst snd Test_update_test_run_tests call_plugin
         with_tests tests plugin_calls].
  - split; [exists self'; repeat split; try assumption; now rewrite Fp|].
    rewrite Ft. split; [reflexivity|].
    intros k t Hk. exists t. split; [exact Hk|].
    rewrite named_nil. split; [discriminate | reflexivity].
  - split; [exists self'; repeat split; try assumption; now rewrite Fp|].
    rewrite Ft, Hi'. split; [apply update_where_length|].
    intros k t Hk. rewrite update_where_nth, Hk. cbn [option_map].
    fold (named i (name :: rest) t).
    destruct (named i (name :: rest) t); eexists;
      (split; [reflexivity|]); split; try discriminate; reflexivity.
  - split; [exists self'; repeat split; try assumption; now rewrite Fp|].
    rewrite Ft. split; [reflexivity|].
    intros k t Hk. exists t. split; [exact Hk|].
    rewrite named_nil. split; [discriminate | reflexivity].
Qed.

(** Scenario C: run 7 is finished with [net] passed and [disk] failed;
    [restart] with [disk] re-arms [disk] and leaves [net] as it was. *)
Lemma restart_spec_witness :
  map t_status
    (tests (snd (TestRun_restart Scenario.obliging 60
                   (Scenario.run7 "finished" (Some 50)) (Some ["disk"])
                   Scenario.finished))) =
    [Some "wait_running"; Some "wait_running";
     Some "success"; Some "wait_running"] /\
  length (tests (snd (TestRun_restart Scenario.obliging 60
                        (Scenario.run7 "finished" (Some 50)) (Some ["disk"])
                        Scenario.finished))) = 4%nat.
Proof.
  split; [reflexivity|].
  exact (proj1 (proj2
           (restart_spec Scenario.obliging 60
              (Scenario.run7 "finished" (Some 50)) (Some ["disk"])
              Scenario.finished Scenario.smoke 7 eq_refl eq_refl eq_refl))).
Defined.

(** **** The most recent run of a pair *)

Lemma id_ltb_irrefl a : id_ltb a a = false.
Proof. destruct a as [x|]; cbn; [apply Z.ltb_irrefl | reflexivity]. Qed.

Lemma id_ltb_asym a b : id_ltb a b = true -> id_ltb b a = false.
Proof.
  destruct a as [x|], b as [y|]; cbn; try reflexivity; try discriminate.
  intros H. apply Z.ltb_lt in H. apply Z.ltb_ge. lia.
Qed.

Lemma id_ltb_ge_trans a b c :
  id_ltb a b = false -> id_ltb b c = false -> id_ltb a c = false.
Proof.
  destruct a as [x|], b as [y|], c as [z|]; cbn; try reflexivity;
    try discriminate.
  intros H1 H2. apply Z.ltb_ge in H1, H2. apply Z.ltb_ge. lia.
Qed.

Lemma id_ltb_antisym a b :
  id_ltb a b = false -> id_ltb b a = false -> a = b.
Proof.
  destruct a as [x|], b as [y|]; cbn; try reflexivity; try discriminate.
  intros H1 H2. apply Z.ltb_ge in H1, H2. f_equal. lia.
Qed.

Lemma first_by_id_desc_None rows : first_by_id_desc rows = None -> rows = [].
Proof.
  destruct rows as [|r rows]; [reflexivity|]. cbn.
  destruct (first_by_id_desc rows) as [best|]; [|discriminate].
  destruct (id_ltb (tr_id r) (tr_id best)); discriminate.
Qed.

(** The row returned is one of the rows, and none has a higher id. *)
Lemma first_by_id_desc_Some rows : forall r,
  first_by_id_desc rows = Some r ->
  In r rows /\ forall r', In r' rows -> id_ltb (tr_id r) (tr_id r') = false.
Proof.
  induction rows as [|r0 rows IH]; intros r H; [discriminate|].
  cbn in H. destruct (first_by_id_desc rows) as [best|] eqn:Hbest.
  - destruct (IH best eq_refl) as [Hin Hmax].
    destruct (id_ltb (tr_id r0) (tr_id best)) eqn:Hlt; injection H as <-.
    + split; [right; exact Hin|].
      intros r' [<-|Hr']; [now apply id_ltb_asym | now apply Hmax].
    + split; [left; reflexivity|].
      intros r' [<-|Hr']; [apply id_ltb_irrefl|].
      eapply id_ltb_ge_trans; [exact Hlt | now apply Hmax].
  - injection H as <-. apply first_by_id_desc_None in Hbest. subst rows.
    split; [left; reflexivity|].
    intros r' [<-|[]]. apply id_ltb_irrefl.
Qed.

(** The primary key of [test_runs]: no two rows share an id. *)
Definition primary_key (w : World) : Prop :=
  forall r1 r2, In r1 (test_runs w) -> In r2 (test_runs w) ->
    tr_id r1 = tr_id r2 -> r1 = r2.

(** [r] is the most recent run of the pair: a run of the pair such that no
    run of the pair has a higher id. *)
Definition most_recent (w : World) (test_set : option string) (cluster_id : Z)
  (r : TestRunRow) : Prop :=
  In r (test_runs w) /\ of_pair test_set cluster_id r = true /\
  forall r', In r' (test_runs w) -> of_pair test_set cluster_id r' = true ->
    id_ltb (tr_id r) (tr_id r') = false.

Definition no_run (w : World) (test_set : option string) (cluster_id : Z)
  : Prop :=
  forall r, In r (test_runs w) -> of_pair test_set cluster_id r = false.

Lemma get_last_test_run_None w test_set cluster_id :
  TestRun_get_last_test_run w test_set cluster_id = None <->
  no_run w test_set cluster_id.
Proof.
  unfold TestRun_get_last_test_run, no_run. split.
  - intros H r Hr. apply first_by_id_desc_None in H.
    destruct (of_pair test_set cluster_id r) eqn:Hp; [|reflexivity].
    assert (Hin : In r (filter (of_pair test_set cluster_id) (test_runs w)))
      by (apply filter_In; split; assumption).
    rewrite H in Hin. contradiction.
  - intros H.
    destruct (first_by_id_desc _) as [r|] eqn:Hf; [|reflexivity].
    apply first_by_id_desc_Some in Hf. destruct Hf as [Hin _].
    apply filter_In in Hin. destruct Hin as [Hin Hp].
    rewrite (H r Hin) in Hp. discriminate.
Qed.

Lemma get_last_test_run_Some w test_set cluster_id r :
  TestRun_get_last_test_run w test_set cluster_id = Some r ->
  most_recent w test_set cluster_id r.
Proof.
  unfold TestRun_get_last_test_run, most_recent. intros H.
  apply first_by_id_desc_Some in H. destruct H as [Hin Hmax].
  apply filter_In in Hin. destruct Hin as [Hin Hp].
  repeat split; try assumption.
  intros r' Hr' Hp'. apply Hmax. apply filter_In. split; assumption.
Qed.

Lemma most_recent_get_last w test_set cluster_id r :
  primary_key w -> most_recent w test_set cluster_id r ->
  TestRun_get_last_test_run w test_set cluster_id = Some r.
Proof.
  intros Hpk [Hin [Hp Hmax]].
  destruct (TestRun_get_last_test_run w test_set cluster_id) as [r2|] eqn:Hg.
  - apply get_last_test_run_Some in Hg. destruct Hg as [Hin2 [Hp2 Hmax2]].
    f_equal. apply Hpk; try assumption.
    apply id_ltb_antisym; [now apply Hmax2 | now apply Hmax].
  - apply get_last_test_run_None in Hg. rewrite (Hg r Hin) in Hp.
    discriminate.
Qed.

(** The gate of [start] and [restart]. *)
Lemma is_last_running_iff w test_set cluster_id :
  primary_key w ->
  TestRun_is_last_running w test_set cluster_id = true <->
  no_run w test_set cluster_id \/
  exists r, most_recent w test_set cluster_id r /\ tr_status r = "finished".
Proof.
  intros Hpk. unfold TestRun_is_last_running, TestRun_is_finished. split.
  - destruct (TestRun_get_last_test_run w test_set cluster_id) as [r|] eqn:Hg.
    + intros H. right. exists r. split.
      * now apply get_last_test_run_Some.
      * now apply String.eqb_eq.
    + intros _. left. now apply get_last_test_run_None.
  - intros [Hnone | [r [Hr Hfin]]].
    + apply get_last_test_run_None in Hnone. now rewrite Hnone.
    + rewrite (most_recent_get_last _ _ _ _ Hpk Hr).
      now apply String.eqb_eq.
Qed.

(** **** [start]: the new run and its records *)

(** The rows as the session inserts them: primary keys are drawn from the
    sequence, in order. *)
Fixpoint with_ids (seq : Z) (l : list TestRow) : list TestRow :=
  match l with
  | [] => []
  | t :: l' => assign (set_id (Some seq)) t :: with_ids (seq + 1) l'
  end.

(** The run that [add_test_run] creates. *)
Definition new_run (now : Z) (test_set : string) (cluster_id : Z)
  (status : string) (w : World) : TestRunRow :=
  {| tr_id := Some (test_runs_seq w); tr_cluster_id := cluster_id;
     tr_status := status; tr_meta := None; tr_started_at := Some now;
     tr_ended_at := None; tr_test_set_id := Some test_set |}.

(** The records that [add_test_run] creates for it. *)
Definition clones (test_run : TestRunRow) (test_set : string)
  (predefined_tests : list string) (w : World) : list TestRow :=
  with_ids (tests_seq w)
    (map (fun test => Test_copy_test test test_run predefined_tests)
         (filter (is_template test_set) (tests w))).

Lemma with_ids_length seq l : length (with_ids seq l) = length l.
Proof.
  revert seq. induction l as [|t l IH]; intros seq; [reflexivity|].
  cbn. now rewrite IH.
Qed.

Lemma with_ids_nth l : forall seq k t,
  nth_error l k = Some t ->
  nth_error (with_ids seq l) k =
    Some (assign (set_id (Some (seq + Z.of_nat k))) t).
Proof.
  induction l as [|t0 l IH]; intros seq k t H; [destruct k; discriminate|].
  destruct k as [|k].
  - injection H as <-. cbn. now rewrite Z.add_0_r.
  - cbn [with_ids nth_error]. cbn [nth_error] in H.
    rewrite (IH (seq + 1) k t H).
    replace (seq + 1 + Z.of_nat k) with (seq + Z.of_nat (S k)) by lia.
    reflexivity.
Qed.

Lemma copy_test_id self test_run predefined_tests :
  t_id (Test_copy_test self test_run predefined_tests) = None.
Proof.
  unfold Test_copy_test.
  destruct (_ && _); reflexivity.
Qed.

(** [copy_test] gives the copy of [d] the status ['disabled'] in exactly
    this case: checks were named, and the name of [d] is not among them. *)
Definition disables (predefined_tests : list string) (d : TestRow) : bool :=
  match predefined_tests with [] => false | _ => true end
  && negb (in_names (t_name d) predefined_tests).

(** No check definition of the suite is left out by the enabled checks. *)
Definition every_check_enabled (test_set : string)
  (predefined_tests : list string) (w : World) : bool :=
  forallb (fun d => negb (disables predefined_tests d))
          (filter (is_template test_set) (tests w)).

Lemma copy_test_status d test_run predefined_tests :
  t_status (Test_copy_test d test_run predefined_tests) =
  Some (if disables predefined_tests d then "disabled" else "wait_running").
Proof.
  unfold Test_copy_test, disables. cbn [t_name].
  destruct (_ && _); reflexivity.
Qed.

Lemma copy_test_allowed d test_run predefined_tests :
  status_allowed (t_status (Test_copy_test d test_run predefined_tests)) =
  negb (disables predefined_tests d).
Proof.
  rewrite copy_test_status. destruct (disables predefined_tests d);
    reflexivity.
Qed.

Lemma for_each_add_copies test_run predefined_tests l : forall w,
  forallb (fun d => negb (disables predefined_tests d)) l = true ->
  for_each l
    (fun test =>
       session_add_test (Test_copy_test test test_run predefined_tests)) w =
  (inr tt,
   with_tests
     (tests w ++
      with_ids (tests_seq w)
        (map (fun test => Test_copy_test test test_run predefined_tests) l))
     (tests_seq w + Z.of_nat (length l)) w).
Proof.
  induction l as [|t l IH]; intros w Hall.
  - cbn. rewrite app_nil_r, Z.add_0_r. now rewrite with_tests_same.
  - cbn [forallb] in Hall. apply andb_true_iff in Hall.
    destruct Hall as [Ht Hl].
    cbn [for_each]. unfold bind at 1. unfold session_add_test at 1.
    rewrite copy_test_allowed, Ht.
    rewrite copy_test_id. cbn [modify]. rewrite IH by exact Hl.
    cbn [with_tests tests tests_seq test_sets test_runs test_runs_seq
         plugin_calls map with_ids length].
    rewrite <- app_assoc. cbn [app].
    unfold with_tests.
    replace (tests_seq w + 1 + Z.of_nat (length l))
      with (tests_seq w + Z.of_nat (S (length l))) by lia.
    reflexivity.
Qed.

(** When a copy is ['disabled'] the loop stops with [IntegrityError] at the
    first such copy; what it has inserted before are ['wait_running']
    copies. *)
Lemma for_each_add_copies_rejected test_run predefined_tests l : forall w,
  forallb (fun d => negb (disables predefined_tests d)) l = false ->
  let out :=
    for_each l
      (fun test =>
         session_add_test (Test_copy_test test test_run predefined_tests))
      w in
  fst out = inl (IntegrityError "status") /\
  test_runs (snd out) = test_runs w /\
  test_runs_seq (snd out) = test_runs_seq w /\
  test_sets (snd out) = test_sets w /\
  plugin_calls (snd out) = plugin_calls w /\
  forall t, In t (tests (snd out)) ->
    In t (tests w) \/ t_status t = Some "wait_running".
Proof.
  induction l as [|d l IH]; intros w Hall; [discriminate|].
  cbn [forallb] in Hall. cbn [for_each].
  set (body := fun test =>
         session_add_test (Test_copy_test test test_run predefined_tests))
    in *.
  destruct (disables predefined_tests d) eqn:Hd; cbn [negb andb] in Hall.
  - assert (E : (session_add_test
                   (Test_copy_test d test_run predefined_tests) ;;;
                 for_each l body) w
                = (inl (IntegrityError "status"), w)).
    { unfold bind, session_add_test.
      rewrite copy_test_allowed, Hd. reflexivity. }
    cbv zeta. rewrite E. cbn [fst snd]. repeat (split; [reflexivity|]).
    intros t Ht. left. exact Ht.
  - set (w1 := with_tests
                 (tests w ++
                  [assign (set_id (Some (tests_seq w)))
                     (Test_copy_test d test_run predefined_tests)])
                 (tests_seq w + 1) w).
    assert (E : (session_add_test
                   (Test_copy_test d test_run predefined_tests) ;;;
                 for_each l body) w = for_each l body w1).
    { unfold bind at 1. unfold session_add_test.
      rewrite copy_test_allowed, Hd, copy_test_id. reflexivity. }
    cbv zeta. rewrite E.
    destruct (IH w1 Hall) as [H1 [H2 [H3 [H4 [H5 H6]]]]].
    repeat split; try assumption.
    intros t Ht. destruct (H6 t Ht) as [Hin|Hst]; [|right; exact Hst].
    subst w1. cbn [with_tests tests] in Hin. apply in_app_iff in Hin.
    destruct Hin as [Hin|[<-|[]]]; [left; exact Hin | right].
    change (t_status (Test_copy_test d test_run predefined_tests)
            = Some "wait_running").
    rewrite copy_test_status, Hd. reflexivity.
Qed.

Lemma add_test_run_spec now test_set cluster_id status tests_arg w :
  let predefined_tests := match tests_arg with Some l => l | None => [] end in
  let test_run := new_run now test_set cluster_id status w in
  every_check_enabled test_set predefined_tests w = true ->
  TestRun_add_test_run now test_set cluster_id status tests_arg w =
  (inr test_run,
   {| test_sets := test_sets w;
      tests := tests w ++ clones test_run test_set predefined_tests w;
      test_runs := test_runs w ++ [test_run];
      tests_seq :=
        tests_seq w
        + Z.of_nat (length (filter (is_template test_set) (tests w)));
      test_runs_seq := test_runs_seq w + 1;
      plugin_calls := plugin_calls w |}).
Proof.
  intros predefined_tests test_run Hall.
  subst test_run predefined_tests.
  unfold TestRun_add_test_run, bind, get, session_add_test_run, new_run,
    clones.
  cbn [tr_id tr_cluster_id tr_status tr_meta tr_started_at tr_ended_at
       tr_test_set_id].
  rewrite for_each_add_copies by exact Hall.
  cbn [ret with_test_runs with_tests tests tests_seq test_sets test_runs
       test_runs_seq plugin_calls].
  reflexivity.
Qed.

Lemma add_test_run_rejected now test_set cluster_id status tests_arg w :
  let predefined_tests := match tests_arg with Some l => l | None => [] end in
  let out := TestRun_add_test_run now test_set cluster_id status tests_arg w in
  every_check_enabled test_set predefined_tests w = false ->
  fst out = inl (IntegrityError "status") /\
  test_runs (snd out) =
    (test_runs w ++ [new_run now test_set cluster_id status w])%list /\
  test_runs_seq (snd out) = test_runs_seq w + 1 /\
  test_sets (snd out) = test_sets w /\
  plugin_calls (snd out) = plugin_calls w /\
  forall t, In t (tests (snd out)) ->
    In t (tests w) \/ t_status t = Some "wait_running".
Proof.
  intros predefined_tests out Hall. subst out predefined_tests.
  unfold TestRun_add_test_run, bind, get, session_add_test_run, new_run.
  cbn [tr_id tr_cluster_id tr_status tr_meta tr_started_at tr_ended_at
       tr_test_set_id].
  match goal with
  | |- context [for_each ?defs ?body ?w1] =>
      pose proof (for_each_add_copies_rejected
                    {| tr_id := Some (test_runs_seq w);
                       tr_cluster_id := cluster_id; tr_status := status;
                       tr_meta := None; tr_started_at := Some now;
                       tr_ended_at := None;
                       tr_test_set_id := Some test_set |}
                    (match tests_arg with Some x => x | None => [] end)
                    defs w1 Hall) as Hrej;
      cbv zeta in Hrej;
      destruct (for_each defs body w1) as [[e|[]] w2]
  end; cbn [fst snd] in *;
    destruct Hrej as [H1 [H2 [H3 [H4 [H5 H6]]]]]; [|discriminate].
  cbn [with_test_runs test_runs test_runs_seq test_sets plugin_calls tests]
    in *.
  injection H1 as ->. repeat split; assumption.
Qed.

(** The session after a [start] that went through. *)
Definition started (now : Z) (test_set : TestSetRow) (cluster_id : Z)
  (tests_arg : option (list string)) (w : World) : World :=
  let test_run := new_run now (ts_id test_set) cluster_id "running" w in
  {| test_sets := test_sets w;
     tests :=
       tests w ++
       clones test_run (ts_id test_set)
         (match tests_arg with Some l => l | None => [] end) w;
     test_runs := test_runs w ++ [test_run];
     tests_seq :=
       tests_seq w
       + Z.of_nat (length (filter (is_template (ts_id test_set)) (tests w)));
     test_runs_seq := test_runs_seq w + 1;
     plugin_calls := plugin_calls w ++ [Run test_run test_set None] |}.

Lemma start_refused get_plugin now test_set metadata tests_arg w c :
  dict_get metadata "cluster_id" = Some c ->
  TestRun_is_last_running w (Some (ts_id test_set)) c = false ->
  TestRun_start get_plugin now test_set metadata tests_arg w =
    (inr EmptyDict, w).
Proof.
  intros Hc Hlast. unfold TestRun_start, getitem, bind, get.
  rewrite Hc. cbn [ret]. rewrite Hlast. reflexivity.
Qed.

Lemma start_accepted get_plugin now test_set metadata tests_arg w c :
  dict_get metadata "cluster_id" = Some c ->
  TestRun_is_last_running w (Some (ts_id test_set)) c = true ->
  every_check_enabled (ts_id test_set)
    (match tests_arg with Some l => l | None => [] end) w = true ->
  TestRun_start get_plugin now test_set metadata tests_arg w =
    (inr (Snapshot
            (TestRun_frontend (started now test_set c tests_arg w)
               (new_run now (ts_id test_set) c "running" w))),
     started now test_set c tests_arg w).
Proof.
  intros Hc Hlast Hall. unfold TestRun_start, getitem, bind, get.
  rewrite Hc. cbn [ret]. rewrite Hlast.
  rewrite add_test_run_spec by exact Hall. reflexivity.
Qed.

(** With the gate open and a check definition left out by the enabled
    checks, [start] fails with the [IntegrityError] of the insertion of the
    ['disabled'] copy, and no ['disabled'] record has been stored. *)
Lemma start_rejected get_plugin now test_set metadata tests_arg w c :
  dict_get metadata "cluster_id" = Some c ->
  TestRun_is_last_running w (Some (ts_id test_set)) c = true ->
  every_check_enabled (ts_id test_set)
    (match tests_arg with Some l => l | None => [] end) w = false ->
  let out := TestRun_start get_plugin now test_set metadata tests_arg w in
  fst out = inl (IntegrityError "status") /\
  test_runs (snd out) =
    (test_runs w ++ [new_run now (ts_id test_set) c "running" w])%list /\
  test_runs_seq (snd out) = test_runs_seq w + 1 /\
  test_sets (snd out) = test_sets w /\
  plugin_calls (snd out) = plugin_calls w /\
  forall t, In t (tests (snd out)) ->
    In t (tests w) \/ t_status t = Some "wait_running".
Proof.
  intros Hc Hlast Hall out. subst out.
  unfold TestRun_start, getitem, bind, get.
  rewrite Hc. cbn [ret]. rewrite Hlast.
  pose proof (add_test_run_rejected now (ts_id test_set) c "running"
                tests_arg w) as Hrej.
  cbv zeta in Hrej. specialize (Hrej Hall).
  destruct (TestRun_add_test_run now (ts_id test_set) c "running" tests_arg w)
    as [[e|r] w1]; cbn [fst snd] in *;
    destruct Hrej as [H1 [H2 [H3 [H4 [H5 H6]]]]]; [|discriminate].
  injection H1 as ->. repeat split; assumption.
Qed.

(** With the gate open [start] inserts the new run, whatever becomes of the
    copies. *)
Lemma start_open_runs get_plugin now test_set metadata tests_arg w c :
  dict_get metadata "cluster_id" = Some c ->
  TestRun_is_last_running w (Some (ts_id test_set)) c = true ->
  test_runs (snd (TestRun_start get_plugin now test_set metadata tests_arg w))
    = test_runs (started now test_set c tests_arg w) /\
  test_runs_seq
    (snd (TestRun_start get_plugin now test_set metadata tests_arg w))
    = test_runs_seq (started now test_set c tests_arg w).
Proof.
  intros Hc Hlast.
  destruct (every_check_enabled (ts_id test_set)
              (match tests_arg with Some l => l | None => [] end) w)
    eqn:Hall.
  - rewrite (start_accepted _ _ _ _ _ _ _ Hc Hlast Hall). split; reflexivity.
  - destruct (start_rejected get_plugin now test_set metadata tests_arg w c
                Hc Hlast Hall) as [_ [H2 [H3 _]]].
    split; [exact H2 | exact H3].
Qed.

Lemma start_missing_cluster_id get_plugin now test_set metadata tests_arg w :
  dict_get metadata "cluster_id" = None ->
  TestRun_start get_plugin now test_set metadata tests_arg w =
    (inl (KeyError "cluster_id"), w).
Proof.
  intros Hc. unfold TestRun_start, getitem, bind. now rewrite Hc.
Qed.

(** Which enabled checks leave out a check definition of the suite. *)
Lemma every_check_enabled_false test_set enabled w :
  every_check_enabled test_set enabled w = false <->
  enabled <> [] /\
  exists d, In d (filter (is_template test_set) (tests w)) /\
    in_names (t_name d) enabled = false.
Proof.
  unfold every_check_enabled.
  induction (filter (is_template test_set) (tests w)) as [|d l IH];
    cbn [forallb].
  - split; [discriminate | intros [_ [d [[] _]]]].
  - unfold disables at 1. destruct enabled as [|e0 rest].
    + cbn [andb negb]. rewrite IH. split; intros [H _]; contradiction.
    + cbn [andb negb]. rewrite negb_involutive.
      destruct (in_names (t_name d) (e0 :: rest)) eqn:Hd; cbn [andb].
      * rewrite IH. split.
        -- intros [Hne [d' [Hin Hd']]]. split; [exact Hne|].
           exists d'. split; [right; exact Hin | exact Hd'].
        -- intros [Hne [d' [[<-|Hin] Hd']]]; [congruence|].
           split; [exact Hne|]. exists d'. auto.
      * split; [|reflexivity]. intros _. split; [discriminate|].
        exists d. split; [left; reflexivity | exact Hd].
Qed.

Lemma every_check_enabled_true test_set enabled w :
  every_check_enabled test_set enabled w = true <->
  enabled = [] \/
  forall d, In d (filter (is_template test_set) (tests w)) ->
    in_names (t_name d) enabled = true.
Proof.
  destruct (every_check_enabled test_set enabled w) eqn:E.
  - split; [intros _ | reflexivity].
    destruct enabled as [|e0 rest] eqn:Hen; [left; reflexivity | right].
    intros d Hd. destruct (in_names (t_name d) (e0 :: rest)) eqn:Hin;
      [reflexivity|].
    assert (F : every_check_enabled test_set (e0 :: rest) w = false).
    { apply every_check_enabled_false. split; [discriminate|].
      exists d. auto. }
    congruence.
  - apply every_check_enabled_false in E. destruct E as [Hne [d [Hd Hout]]].
    split; [discriminate|]. intros [Hnil | Hall]; [contradiction|].
    rewrite (Hall d Hd) in Hout. discriminate.
Qed.

(** C2.  Let the [test_runs] table have its primary key and let [metadata]
    name the cluster [c].  The gate [is_last_running] for the pair (test
    set, [c]) is true exactly when the pair has no run or its most recent
    run is ['finished'].  When the most recent run exists and is not
    finished, [start] returns the empty dictionary, raises nothing and leaves
    the session as it was.  When the gate is open, [start] succeeds exactly
    when the enabled checks leave out no check definition of the suite (a
    definition left out makes the insertion of its ['disabled'] copy fail
    with [IntegrityError]); and on success [start] has inserted a new run of
    the pair with status ['running'], has handed it to the runner and
    returns its snapshot. *)
Theorem start_spec (get_plugin : option string -> Plugin) (now : Z)
  (test_set : TestSetRow) (metadata : list (string * Z))
  (tests_arg : option (list string)) (w : World) (c : Z) :
  primary_key w ->
  dict_get metadata "cluster_id" = Some c ->
  let suite := Some (ts_id test_set) in
  let definitions := filter (is_template (ts_id test_set)) (tests w) in
  let enabled := match tests_arg with Some l => l | None => [] end in
  let out := TestRun_start get_plugin now test_set metadata tests_arg w in
  (TestRun_is_last_running w suite c = true <->
   no_run w suite c \/
   exists r, most_recent w suite c r /\ tr_status r = "finished") /\
  ((exists r, most_recent w suite c r /\ tr_status r <> "finished") ->
   out = (inr EmptyDict, w)) /\
  (no_run w suite c \/
   (exists r, most_recent w suite c r /\ tr_status r = "finished") ->
   ((exists res, fst out = inr res) <->
    enabled = [] \/
    forall d, In d definitions -> in_names (t_name d) enabled = true) /\
   (enabled <> [] ->
    (exists d, In d definitions /\ in_names (t_name d) enabled = false) ->
    fst out = inl (IntegrityError "status")) /\
   (forall res, fst out = inr res ->
    exists r,
      tr_status r = "running" /\ tr_id r = Some (test_runs_seq w) /\
      tr_cluster_id r = c /\ tr_test_set_id r = suite /\
      tr_started_at r = Some now /\ tr_ended_at r = None /\
      test_runs (snd out) = (test_runs w ++ [r])%list /\
      res = Snapshot (TestRun_frontend (snd out) r) /\
      trf_status (TestRun_frontend (snd out) r) = "running" /\
      plugin_calls (snd out) =
        (plugin_calls w ++ [Run r test_set None])%list)).
Proof.
  intros Hpk Hc suite definitions enabled out.
  subst out suite enabled definitions.
  pose proof (is_last_running_iff w (Some (ts_id test_set)) c Hpk) as Hiff.
  split; [exact Hiff|]. split.
  - intros [r [Hr Hnf]]. apply (start_refused _ _ _ _ _ _ c Hc).
    unfold TestRun_is_last_running.
    rewrite (most_recent_get_last _ _ _ _ Hpk Hr).
    unfold TestRun_is_finished.
    destruct (String.eqb_spec (tr_status r) "finished");
      [contradiction | reflexivity].
  - intros Hopen. apply Hiff in Hopen.
    rewrite <- every_check_enabled_true.
    destruct (every_check_enabled (ts_id test_set)
                (match tests_arg with Some l => l | None => [] end) w)
      eqn:Hall.
    + rewrite (start_accepted _ _ _ _ _ _ _ Hc Hopen Hall). cbn [fst snd].
      split; [split; [reflexivity | intros _; eexists; reflexivity]|].
      split.
      * intros Hne Hout.
        assert (F : every_check_enabled (ts_id test_set)
                      (match tests_arg with Some l => l | None => [] end) w
                    = false)
          by (apply every_check_enabled_false; auto).
        congruence.
      * intros res Hres. injection Hres as <-.
        exists (new_run now (ts_id test_set) c "running" w).
        repeat split.
    + destruct (start_rejected get_plugin now test_set metadata tests_arg w c
                  Hc Hopen Hall) as [H1 _].
      split; [split; [|discriminate]|].
      * intros [res Hres]. rewrite H1 in Hres. discriminate.
      * split; [intros _ _; exact H1|].
        intros res Hres. rewrite H1 in Hres. discriminate.
Qed.

(** Scenario A: the first [start] for (smoke, 1) creates run 1; a second
    one, while run 1 is running, is refused. *)
Lemma start_spec_witness :
  let w1 := Scenario.fresh in
  let w2 := snd (TestRun_start Scenario.obliging 5 Scenario.smoke
                   [("cluster_id", 1)] None w1) in
  map tr_status (test_runs w2) = ["running"] /\
  TestRun_start Scenario.obliging 6 Scenario.smoke [("cluster_id", 1)]
    None w2 = (inr EmptyDict, w2).
Proof.
  intros w1 w2. split; [reflexivity|].
  refine (proj1 (proj2
            (start_spec Scenario.obliging 6 Scenario.smoke
               [("cluster_id", 1)] None w2 1 _ eq_refl)) _).
  - intros r1 r2 H1 H2 _.
    destruct H1 as [<-|[]]. destruct H2 as [<-|[]]. reflexivity.
  - exists (new_run 5 "smoke" 1 "running" Scenario.fresh).
    split; [|discriminate].
    split; [left; reflexivity|]. split; [reflexivity|].
    intros r' [<-|[]] _. reflexivity.
Defined.

Lemma copy_test_columns d test_run predefined_tests v :
  let record :=
    assign (set_id v) (Test_copy_test d test_run predefined_tests) in
  t_id record = v /\
  t_test_run_id record = tr_id test_run /\
  t_status record =
    Some (if match predefined_tests with [] => false | _ => true end
             && negb (in_names (t_name d) predefined_tests)
          then "disabled" else "wait_running") /\
  forall col, col <> c_id -> col <> c_test_run_id -> col <> c_status ->
    getattr record col = getattr d col.
Proof.
  unfold Test_copy_test.
  cbn [t_name].
  destruct (match predefined_tests with [] => false | _ => true end
            && negb (in_names (t_name d) predefined_tests));
    cbn; repeat split;
    intros col H1 H2 H3; destruct col; try contradiction; reflexivity.
Qed.

Lemma filter_all {A : Type} (p : A -> bool) l :
  (forall a, In a l -> p a = true) -> filter p l = l.
Proof.
  induction l as [|a l IH]; intros H; [reflexivity|].
  cbn. rewrite (H a) by (left; reflexivity).
  f_equal. apply IH. intros b Hb. apply H. right. exact Hb.
Qed.

Lemma filter_none {A : Type} (p : A -> bool) l :
  (forall a, In a l -> p a = false) -> filter p l = [].
Proof.
  induction l as [|a l IH]; intros H; [reflexivity|].
  cbn. rewrite (H a) by (left; reflexivity).
  apply IH. intros b Hb. apply H. right. exact Hb.
Qed.

Lemma clones_nth test_run test_set predefined_tests w k d :
  nth_error (filter (is_template test_set) (tests w)) k = Some d ->
  nth_error (clones test_run test_set predefined_tests w) k =
    Some (assign (set_id (Some (tests_seq w + Z.of_nat k)))
            (Test_copy_test d test_run predefined_tests)).
Proof.
  intros H. unfold clones. apply with_ids_nth.
  rewrite nth_error_map, H. reflexivity.
Qed.

Lemma clones_length test_run test_set predefined_tests w :
  length (clones test_run test_set predefined_tests w) =
  length (filter (is_template test_set) (tests w)).
Proof. unfold clones. now rewrite with_ids_length, length_map. Qed.

Lemma clones_run test_run test_set predefined_tests w record :
  In record (clones test_run test_set predefined_tests w) ->
  t_test_run_id record = tr_id test_run.
Proof.
  intros H. apply In_nth_error in H. destruct H as [k Hk].
  assert (Hlt : (k < length (filter (is_template test_set) (tests w)))%nat).
  { rewrite <- (clones_length test_run test_set predefined_tests).
    apply nth_error_Some. rewrite Hk. discriminate. }
  destruct (nth_error (filter (is_template test_set) (tests w)) k)
    as [d|] eqn:Hd; [|apply nth_error_None in Hd; lia].
  rewrite (clones_nth _ _ _ _ _ _ Hd) in Hk. injection Hk as <-.
  apply (copy_test_columns d test_run predefined_tests).
Qed.

(** C3.  With the gate open, [start] clones the check definitions of the
    suite (the rows of the suite with no run) as follows.  When the enabled
    checks leave out no definition (no checks given, or every definition
    named), the records added to [tests] correspond one to one, in order, to
    the definitions: the [k]-th record is the copy of the [k]-th definition,
    tied to the new run, with a fresh primary key, every other column but the
    status copied, and status ['wait_running']; provided no record was tied
    to the id of the new run beforehand, these are all the records of the
    new run.  When a non-empty list of enabled checks leaves out a
    definition, [copy_test] gives its copy the status ['disabled'], which the
    [status] column does not accept: [start] fails with [IntegrityError] and
    no ['disabled'] record is stored. *)
Theorem start_clones (get_plugin : option string -> Plugin) (now : Z)
  (test_set : TestSetRow) (metadata : list (string * Z))
  (tests_arg : option (list string)) (w : World) (c : Z) :
  dict_get metadata "cluster_id" = Some c ->
  TestRun_is_last_running w (Some (ts_id test_set)) c = true ->
  let out := TestRun_start get_plugin now test_set metadata tests_arg w in
  let definitions := filter (is_template (ts_id test_set)) (tests w) in
  let enabled := match tests_arg with Some l => l | None => [] end in
  let new_id := test_runs_seq w in
  ((enabled = [] \/
    forall d, In d definitions -> in_names (t_name d) enabled = true) ->
   exists records,
     tests (snd out) = (tests w ++ records)%list /\
     length records = length definitions /\
     (forall k d, nth_error definitions k = Some d ->
        exists record, nth_error records k = Some record /\
          t_test_run_id record = Some new_id /\
          t_id record = Some (tests_seq w + Z.of_nat k) /\
          (forall col, col <> c_id -> col <> c_test_run_id ->
             col <> c_status -> getattr record col = getattr d col) /\
          t_status record = Some "wait_running") /\
     ((forall t, In t (tests w) -> t_test_run_id t <> Some new_id) ->
      filter (fun t => opt_eqb Z.eqb (t_test_run_id t) (Some new_id))
             (tests (snd out)) = records)) /\
  (enabled <> [] ->
   (exists d, In d definitions /\ in_names (t_name d) enabled = false) ->
   (exists d, In d definitions /\
      t_status (Test_copy_test d
                  (new_run now (ts_id test_set) c "running" w) enabled)
        = Some "disabled") /\
   fst out = inl (IntegrityError "status") /\
   forall t, In t (tests (snd out)) ->
     t_status t = Some "disabled" -> In t (tests w)).
Proof.
  intros Hc Hlast out definitions enabled new_id. subst out. split.
  - intros Hen.
    assert (Hall : every_check_enabled (ts_id test_set) enabled w = true).
    { destruct (every_check_enabled (ts_id test_set) enabled w) eqn:E;
        [reflexivity|].
      apply every_check_enabled_false in E.
      destruct E as [Hne [d [Hd Hout]]].
      destruct Hen as [Hnil | Hin]; [contradiction|].
      rewrite (Hin d Hd) in Hout. discriminate. }
    rewrite (start_accepted _ _ _ _ _ _ _ Hc Hlast Hall).
    cbn [snd started tests]. fold enabled.
    set (test_run := new_run now (ts_id test_set) c "running" w).
    exists (clones test_run (ts_id test_set) enabled w).
    split; [reflexivity|]. split; [apply clones_length|]. split.
    + intros k d Hd. eexists. split; [apply clones_nth; exact Hd|].
      destruct (copy_test_columns d test_run enabled
                  (Some (tests_seq w + Z.of_nat k)))
        as [Hid [Hrun [Hst Hcols]]].
      split; [exact Hrun|]. split; [exact Hid|]. split; [exact Hcols|].
      rewrite Hst.
      destruct Hen as [-> | Hin]; [reflexivity|].
      rewrite (Hin d (nth_error_In _ _ Hd)). now rewrite andb_false_r.
    + intros Hfresh. rewrite filter_app.
      rewrite filter_none, filter_all; [reflexivity| |].
      * intros record Hr. rewrite (clones_run _ _ _ _ _ Hr). cbn.
        apply Z.eqb_refl.
      * intros t Ht. specialize (Hfresh t Ht).
        destruct (t_test_run_id t) as [i|]; [|reflexivity].
        cbn. apply Z.eqb_neq. intros ->. now apply Hfresh.
  - intros Hne [d [Hd Hout]].
    assert (Hall : every_check_enabled (ts_id test_set) enabled w = false).
    { apply every_check_enabled_false. split; [exact Hne|].
      exists d. auto. }
    destruct (start_rejected get_plugin now test_set metadata tests_arg w c
                Hc Hlast Hall) as [H1 [_ [_ [_ [_ H6]]]]].
    split; [|split; [exact H1|]].
    + exists d. split; [exact Hd|].
      rewrite copy_test_status. unfold disables. rewrite Hout.
      destruct enabled; [contradiction | reflexivity].
    + intros t Ht Hst. destruct (H6 t Ht) as [Hin|Hw]; [exact Hin|].
      rewrite Hw in Hst. discriminate.
Qed.

(** Scenario A with [disk] alone enabled: the copy of [net] is ['disabled']
    and [start] fails; with no checks given both copies are stored. *)
Lemma start_clones_witness :
  fst (TestRun_start Scenario.obliging 5 Scenario.smoke
         [("cluster_id", 1)] (Some ["disk"]) Scenario.fresh) =
    inl (IntegrityError "status") /\
  exists records,
    tests (snd (TestRun_start Scenario.obliging 5 Scenario.smoke
                  [("cluster_id", 1)] None Scenario.fresh)) =
      (tests Scenario.fresh ++ records)%list /\
    length records = 2%nat.
Proof.
  split.
  - refine (proj1 (proj2 (proj2 (start_clones Scenario.obliging 5
              Scenario.smoke [("cluster_id", 1)] (Some ["disk"])
              Scenario.fresh 1 eq_refl eq_refl) _ _))).
    + discriminate.
    + exists Scenario.net. split; [left; reflexivity | reflexivity].
  - destruct (proj1 (start_clones Scenario.obliging 5 Scenario.smoke
                       [("cluster_id", 1)] None Scenario.fresh 1
                       eq_refl eq_refl) (or_introl eq_refl))
      as [records [Ht [Hl _]]].
    exists records. split; [exact Ht | exact Hl].
Defined.

(** **** [ended_at] and the status ['finished'] *)

(** The invariant as the run model is described: [ended_at] is set exactly
    on the finished runs. *)
Definition ended_iff_finished (w : World) : Prop :=
  forall r, In r (test_runs w) ->
    (tr_ended_at r <> None <-> tr_status r = "finished").

(** The half of it that the methods maintain: a finished run has its
    [ended_at]. *)
Definition finished_is_stamped (w : World) : Prop :=
  forall r, In r (test_runs w) ->
    tr_status r = "finished" -> tr_ended_at r <> None.

(** The calls a client of the module can make.  A method of a run is called
    on the object that [get_test_run] returns for an id. *)
Inductive operation : Type :=
| call_start (test_set : TestSetRow) (metadata : list (string * Z))
    (tests : option (list string))
| call_restart (test_run_id : Z) (tests : option (list string))
| call_stop (test_run_id : Z)
| call_update (test_run_id : Z) (status : string)
| call_update_test_run (test_run_id : Z) (status : option string)
| call_add_result (test_run_id : option Z) (test_name : option string)
    (data : list assignment)
| call_update_running_tests (test_run_id : option Z) (status : string)
| call_update_test_run_tests (test_run_id : option Z)
    (tests_names : list string) (status : string).

Definition on_test_run {A : Type} (w : World) (test_run_id : Z)
  (method : TestRunRow -> M A) : World :=
  match TestRun_get_test_run w test_run_id false with
  | Some self => snd (method self w)
  | None => w
  end.

(** The session after a call, made at time [now] with a runner that answers
    as [get_plugin] says. *)
Definition perform (get_plugin : option string -> Plugin) (now : Z)
  (op : operation) (w : World) : World :=
  match op with
  | call_start test_set metadata tests =>
      snd (TestRun_start get_plugin now test_set metadata tests w)
  | call_restart i tests =>
      on_test_run w i (fun self => TestRun_restart get_plugin now self tests)
  | call_stop i => on_test_run w i (TestRun_stop get_plugin)
  | call_update i status =>
      on_test_run w i (fun self => TestRun_update now self status)
  | call_update_test_run i status =>
      snd (TestRun_update_test_run now i status w)
  | call_add_result i name data => snd (Test_add_result i name data w)
  | call_update_running_tests i status =>
      snd (Test_update_running_tests i status w)
  | call_update_test_run_tests i names status =>
      snd (Test_update_test_run_tests i names status w)
  end.

Definition perform_all
  (steps : list ((option string -> Plugin) * Z * operation)) (w : World)
  : World :=
  fold_left (fun w step => perform (fst (fst step)) (snd (fst step))
                             (snd step) w) steps w.

Lemma session_add_test_run_rows now r w r' :
  In r' (test_runs (snd (session_add_test_run now r w))) ->
  In r' (test_runs w) \/
  (tr_status r' = tr_status r /\ tr_ended_at r' = tr_ended_at r).
Proof.
  unfold session_add_test_run.
  destruct (tr_id r) as [i|];
    [destruct (existsb (has_id i) (test_runs w))|]; cbn; intros H.
  - apply update_where_In in H. destruct H as [row [Hin ->]].
    destruct (has_id i row); [right; split; reflexivity | left; exact Hin].
  - apply in_app_iff in H. destruct H as [H|[<-|[]]];
      [left; exact H | right; split; reflexivity].
  - apply in_app_iff in H. destruct H as [H|[<-|[]]];
      [left; exact H | right; split; reflexivity].
Qed.

Lemma session_add_test_run_In now r w r' :
  fst (session_add_test_run now r w) = inr r' ->
  In r' (test_runs (snd (session_add_test_run now r w))).
Proof.
  unfold session_add_test_run.
  destruct (tr_id r) as [i|];
    [destruct (existsb (has_id i) (test_runs w)) eqn:Hex|]; cbn;
    intros H; injection H as <-.
  - apply existsb_exists in Hex. destruct Hex as [row [Hin Hrow]].
    unfold update_where. apply in_map_iff. exists row.
    rewrite Hrow. split; [reflexivity | exact Hin].
  - apply in_app_iff. right. left. reflexivity.
  - apply in_app_iff. right. left. reflexivity.
Qed.

Lemma update_keeps_stamped now self status w :
  finished_is_stamped w ->
  finished_is_stamped (snd (TestRun_update now self status w)).
Proof.
  intros Hinv r' Hin Hfin. unfold TestRun_update in Hin.
  apply session_add_test_run_rows in Hin.
  destruct Hin as [Hold | [Hs He]]; [now apply Hinv|].
  rewrite He. rewrite Hfin in Hs.
  destruct (String.eqb_spec status "finished") as [->|Hne].
  - cbn. discriminate.
  - cbn in Hs. congruence.
Qed.

Lemma restart_test_runs get_plugin now self tests_arg w :
  test_runs (snd (TestRun_restart get_plugin now self tests_arg w)) =
    test_runs w \/
  test_runs (snd (TestRun_restart get_plugin now self tests_arg w)) =
    test_runs (snd (TestRun_update now self "running" w)).
Proof.
  unfold TestRun_restart, bind, get.
  destruct (TestRun_is_last_running w _ _); [|left; reflexivity].
  destruct (tr_test_set w self) as [test_set|]; [|left; reflexivity].
  right.
  destruct (TestRun_update now self "running" w) as [[e|self'] w1];
    [reflexivity|].
  destruct tests_arg as [[|name rest]|]; reflexivity.
Qed.

Lemma stop_test_runs get_plugin self w :
  test_runs (snd (TestRun_stop get_plugin self w)) = test_runs w.
Proof.
  unfold TestRun_stop, bind, get.
  destruct (tr_test_set w self) as [test_set|]; [|reflexivity].
  destruct (kill _ _ _ _); reflexivity.
Qed.

Lemma start_keeps_stamped get_plugin now test_set metadata tests_arg w :
  finished_is_stamped w ->
  finished_is_stamped
    (snd (TestRun_start get_plugin now test_set metadata tests_arg w)).
Proof.
  intros Hinv.
  destruct (dict_get metadata "cluster_id") as [c|] eqn:Hc.
  - destruct (TestRun_is_last_running w (Some (ts_id test_set)) c) eqn:Hl.
    + destruct (start_open_runs get_plugin now test_set metadata tests_arg
                  w c Hc Hl) as [Hruns _].
      intros r Hin Hfin. rewrite Hruns in Hin.
      cbn [started test_runs] in Hin.
      apply in_app_iff in Hin. destruct Hin as [Hin|[<-|[]]].
      * now apply Hinv.
      * discriminate Hfin.
    + now rewrite (start_refused _ _ _ _ _ _ _ Hc Hl).
  - now rewrite (start_missing_cluster_id _ _ _ _ _ _ Hc).
Qed.

Lemma update_test_run_keeps_stamped now i status w :
  finished_is_stamped w ->
  finished_is_stamped (snd (TestRun_update_test_run now i status w)).
Proof.
  intros Hinv r' Hin Hfin. cbn in Hin.
  apply update_where_In in Hin. destruct Hin as [row [Hin ->]].
  destruct (has_id i row); [|now apply Hinv].
  destruct status as [s|].
  - cbn [opt_eqb] in *.
    destruct (String.eqb_spec s "finished") as [->|Hne].
    + cbn. discriminate.
    + destruct s as [|a s]; [now apply Hinv|].
      cbn in Hfin. contradiction.
  - cbn [opt_eqb] in *. now apply Hinv.
Qed.

Lemma perform_keeps_stamped get_plugin now op w :
  finished_is_stamped w -> finished_is_stamped (perform get_plugin now op w).
Proof.
  intros Hinv.
  destruct op as [ts md ta | i ta | i | i st | i st | i n d | i st | i n st];
    cbn [perform]; unfold on_test_run;
    try (destruct (TestRun_get_test_run w i false) as [self|];
         [|exact Hinv]).
  - now apply start_keeps_stamped.
  - destruct (restart_test_runs get_plugin now self ta w) as [E|E];
      unfold finished_is_stamped; rewrite E; [exact Hinv|].
    now apply update_keeps_stamped.
  - unfold finished_is_stamped. rewrite stop_test_runs. exact Hinv.
  - now apply update_keeps_stamped.
  - now apply update_test_run_keeps_stamped.
  - exact Hinv.
  - exact Hinv.
  - exact Hinv.
Qed.

Lemma restart_accepted get_plugin now self tests_arg w test_set self' w1 :
  TestRun_is_last_running w (tr_test_set_id self) (tr_cluster_id self) = true ->
  tr_test_set w self = Some test_set ->
  TestRun_update now self "running" w = (inr self', w1) ->
  let w2 :=
    match tests_arg with
    | Some (name :: names) =>
        snd (Test_update_test_run_tests (tr_id self') (name :: names)
               "wait_running" w1)
    | _ => w1
    end in
  let w3 := call_plugin (Run self' test_set tests_arg) w2 in
  TestRun_restart get_plugin now self tests_arg w =
    (inr (Snapshot (TestRun_frontend w3 self')), w3).
Proof.
  intros Hlast Hts Hup. unfold TestRun_restart, bind, get.
  rewrite Hlast, Hts, Hup.
  destruct tests_arg as [[|name rest]|]; reflexivity.
Qed.

(** C1, as the code has it.  (1) A finished run has its [ended_at], and
    every call ([start], [restart], [stop], [update], [update_test_run],
    [add_result] and the two bulk updates of records) keeps it so, hence
    also every sequence of calls on a session without runs.  (2) [restart]
    on a finished run whose pair is free puts the run back to ['running']
    in the session and in the snapshot, and leaves its [ended_at] as it
    was. *)
Theorem finished_runs_are_stamped :
  (forall steps w,
     finished_is_stamped w -> finished_is_stamped (perform_all steps w)) /\
  (forall steps w,
     test_runs w = [] -> finished_is_stamped (perform_all steps w)) /\
  (forall get_plugin now self tests_arg w test_set i,
     tr_id self = Some i -> tr_status self = "finished" ->
     TestRun_is_last_running w (tr_test_set_id self) (tr_cluster_id self)
       = true ->
     tr_test_set w self = Some test_set ->
     let out := TestRun_restart get_plugin now self tests_arg w in
     exists self',
       fst out = inr (Snapshot (TestRun_frontend (snd out) self')) /\
       In self' (test_runs (snd out)) /\
       tr_id self' = Some i /\ tr_status self' = "running" /\
       tr_ended_at self' = tr_ended_at self).
Proof.
  assert (Hall : forall steps w,
            finished_is_stamped w -> finished_is_stamped (perform_all steps w)).
  { unfold perform_all.
    induction steps as [|[[get_plugin now] op] steps IH]; intros w Hinv;
      [exact Hinv|].
    cbn [fold_left fst snd]. apply IH. now apply perform_keeps_stamped. }
  split; [exact Hall|]. split.
  - intros steps w Hempty. apply Hall. intros r Hin.
    rewrite Hempty in Hin. contradiction.
  - intros get_plugin now self tests_arg w test_set i Hid Hfin Hlast Hts out.
    subst out.
    destruct (TestRun_update_spec now self "running" w i Hid)
      as [self' [Hr [Hi' [Hs [He _]]]]].
    pose proof (session_add_test_run_In now
                  (set_tr_status "running" self) w self') as Hin.
    change (session_add_test_run now (set_tr_status "running" self) w)
      with (TestRun_update now self "running" w) in Hin.
    specialize (Hin Hr).
    destruct (TestRun_update now self "running" w) as [r w1] eqn:Hup.
    cbn [fst snd] in Hr, Hin. subst r.
    rewrite (restart_accepted get_plugin now self tests_arg w test_set
               self' w1 Hlast Hts Hup).
    cbn [fst snd]. exists self'.
    split; [reflexivity|]. split.
    + destruct tests_arg as [[|name rest]|]; exact Hin.
    + repeat split; assumption.
Qed.

Lemma finished_runs_are_stamped_witness :
  finished_is_stamped
    (perform_all
       [(Scenario.obliging, 60, call_restart 7 (Some ["disk"]));
        (Scenario.stubborn, 65, call_stop 7);
        (Scenario.obliging, 70, call_update 7 "finished")]
       Scenario.finished) /\
  exists self',
    In self' (test_runs (snd (TestRun_restart Scenario.obliging 60
                                (Scenario.run7 "finished" (Some 50))
                                (Some ["disk"]) Scenario.finished))) /\
    tr_status self' = "running" /\ tr_ended_at self' = Some 50.
Proof.
  split.
  - apply (proj1 finished_runs_are_stamped).
    intros r [<-|[]] _. discriminate.
  - destruct (proj2 (proj2 finished_runs_are_stamped)
                Scenario.obliging 60 (Scenario.run7 "finished" (Some 50))
                (Some ["disk"]) Scenario.finished Scenario.smoke 7
                eq_refl eq_refl eq_refl eq_refl)
      as [self' [_ [Hin [_ [Hs He]]]]].
    exists self'. repeat split; assumption.
Defined.

(** Scenario C against the invariant as described: before [restart] the end
    time is set exactly on the finished runs; [restart] goes through, and
    afterwards run 7 is ['running'] with its [ended_at] still set. *)
Lemma restart_keeps_ended_at_counterexample :
  let out :=
    TestRun_restart Scenario.obliging 60
      (Scenario.run7 "finished" (Some 50)) (Some ["disk"])
      Scenario.finished in
  ended_iff_finished Scenario.finished /\
  (exists f, fst out = inr (Snapshot f) /\ trf_status f = "running" /\
             trf_ended_at f = Some 50) /\
  test_runs (snd out) = [Scenario.run7 "running" (Some 50)] /\
  ~ ended_iff_finished (snd out).
Proof.
  cbv zeta. split; [|split; [|split]].
  - intros r [<-|[]]. cbn. split; [reflexivity | discriminate].
  - eexists. split; [reflexivity|]. split; reflexivity.
  - reflexivity.
  - intros H.
    specialize (H (Scenario.run7 "running" (Some 50))
                  (or_introl eq_refl)).
    cbn in H. destruct H as [H _].
    discriminate (H ltac:(discriminate)).
Qed.

(** *** Further properties of the run ledger *)

(** The ids in use lie below the sequence the next id is drawn from. *)
Definition ids_below_seq (w : World) : Prop :=
  forall r, In r (test_runs w) ->
    exists i, tr_id r = Some i /\ i < test_runs_seq w.

Lemma of_pair_true test_set cluster_id r :
  of_pair test_set cluster_id r = true <->
  tr_cluster_id r = cluster_id /\ tr_test_set_id r = test_set.
Proof.
  unfold of_pair. rewrite andb_true_iff, Z.eqb_eq.
  destruct (tr_test_set_id r) as [a|], test_set as [b|]; cbn.
  - rewrite String.eqb_eq. split; intros [H1 H2]; split; congruence.
  - split; intros [H1 H2]; [discriminate | discriminate].
  - split; intros [H1 H2]; [discriminate | discriminate].
  - tauto.
Qed.

Lemma started_primary_key now test_set c tests_arg w :
  primary_key w -> ids_below_seq w ->
  primary_key (started now test_set c tests_arg w).
Proof.
  intros Hpk Hids r1 r2 H1 H2 Heq. cbn [started test_runs] in H1, H2.
  apply in_app_iff in H1, H2.
  destruct H1 as [H1|[<-|[]]], H2 as [H2|[<-|[]]].
  - now apply Hpk.
  - destruct (Hids r1 H1) as [i [Hi Hlt]]. rewrite Hi in Heq.
    cbn in Heq. injection Heq as ->. lia.
  - destruct (Hids r2 H2) as [i [Hi Hlt]]. rewrite Hi in Heq.
    cbn in Heq. injection Heq as <-. lia.
  - reflexivity.
Qed.

Lemma started_ids_below_seq now test_set c tests_arg w :
  ids_below_seq w -> ids_below_seq (started now test_set c tests_arg w).
Proof.
  intros Hids r Hr. cbn [started test_runs test_runs_seq] in *.
  apply in_app_iff in Hr. destruct Hr as [Hr|[<-|[]]].
  - destruct (Hids r Hr) as [i [Hi Hlt]]. exists i. split; [exact Hi | lia].
  - exists (test_runs_seq w). split; [reflexivity | lia].
Qed.



(** [get_last_test_run] returns [None] exactly when the pair has no run.
    Otherwise it returns a run of the pair that no run of the pair exceeds in
    id; when ids are unique this run is the only one, so the answer does not
    depend on the order of the rows. *)
Theorem get_last_test_run_spec (w : World) (test_set : option string)
  (cluster_id : Z) :
  (TestRun_get_last_test_run w test_set cluster_id = None <->
   no_run w test_set cluster_id) /\
  (forall r, TestRun_get_last_test_run w test_set cluster_id = Some r ->
     most_recent w test_set cluster_id r) /\
  (primary_key w ->
   forall r, most_recent w test_set cluster_id r ->
     TestRun_get_last_test_run w test_set cluster_id = Some r).
Proof.
  split; [apply get_last_test_run_None|]. split.
  - intros r. apply get_last_test_run_Some.
  - intros Hpk r. now apply most_recent_get_last.
Qed.

(** Two finished-or-not runs of (smoke, 1) and one of another cluster. *)
Definition three_runs : World :=
  {| test_sets := [Scenario.smoke]; tests := [Scenario.net; Scenario.disk];
     test_runs :=
       [ {| tr_id := Some 3; tr_cluster_id := 1; tr_status := "finished";
            tr_meta := None; tr_started_at := Some 1; tr_ended_at := Some 2;
            tr_test_set_id := Some "smoke" |};
         {| tr_id := Some 5; tr_cluster_id := 1; tr_status := "running";
            tr_meta := None; tr_started_at := Some 3; tr_ended_at := None;
            tr_test_set_id := Some "smoke" |};
         {| tr_id := Some 4; tr_cluster_id := 2; tr_status := "finished";
            tr_meta := None; tr_started_at := Some 2; tr_ended_at := Some 4;
            tr_test_set_id := Some "smoke" |} ];
     tests_seq := 3; test_runs_seq := 6; plugin_calls := [] |}.

Lemma three_runs_primary_key : primary_key three_runs.
Proof.
  intros r1 r2 H1 H2. cbn in H1, H2.
  destruct H1 as [<-|[<-|[<-|[]]]], H2 as [<-|[<-|[<-|[]]]];
    cbn; intros H; try reflexivity; discriminate H.
Qed.

Lemma three_runs_ids_below_seq : ids_below_seq three_runs.
Proof.
  intros r H. cbn in H.
  destruct H as [<-|[<-|[<-|[]]]]; eexists; (split; [reflexivity|]);
    cbn; lia.
Qed.

Lemma get_last_test_run_spec_witness :
  most_recent three_runs (Some "smoke") 1
    {| tr_id := Some 5; tr_cluster_id := 1; tr_status := "running";
       tr_meta := None; tr_started_at := Some 3; tr_ended_at := None;
       tr_test_set_id := Some "smoke" |}.
Proof.
  apply (proj1 (proj2 (get_last_test_run_spec three_runs (Some "smoke") 1))).
  reflexivity.
Defined.

(** Refusals and errors change nothing.  [start] without ['cluster_id'] in
    [metadata] raises [KeyError]; [stop], and a [restart] that passes the
    gate, raise [AttributeError] when the test set of the run is not in the
    session; a [restart] of a run of a pair whose most recent run is not
    finished returns the empty dictionary.  In each case the session is as
    before and the runner has not been called. *)
Theorem refusals_and_errors (get_plugin : option string -> Plugin) (now : Z)
  (w : World) :
  (forall test_set metadata tests_arg,
     dict_get metadata "cluster_id" = None ->
     TestRun_start get_plugin now test_set metadata tests_arg w =
       (inl (KeyError "cluster_id"), w)) /\
  (forall self,
     tr_test_set w self = None ->
     TestRun_stop get_plugin self w = (inl (AttributeError "driver"), w)) /\
  (forall self tests_arg,
     tr_test_set w self = None ->
     TestRun_is_last_running w (tr_test_set_id self) (tr_cluster_id self)
       = true ->
     TestRun_restart get_plugin now self tests_arg w =
       (inl (AttributeError "driver"), w)) /\
  (forall self tests_arg last,
     primary_key w ->
     most_recent w (tr_test_set_id self) (tr_cluster_id self) last ->
     tr_status last <> "finished" ->
     TestRun_restart get_plugin now self tests_arg w = (inr EmptyDict, w)).
Proof.
  split; [|split; [|split]].
  - intros test_set metadata tests_arg H. now apply start_missing_cluster_id.
  - intros self H. unfold TestRun_stop, bind, get. now rewrite H.
  - intros self tests_arg H Hlast. unfold TestRun_restart, bind, get.
    now rewrite Hlast, H.
  - intros self tests_arg last Hpk Hlast Hnf.
    unfold TestRun_restart, bind, get, TestRun_is_last_running.
    rewrite (most_recent_get_last _ _ _ _ Hpk Hlast).
    unfold TestRun_is_finished.
    destruct (String.eqb_spec (tr_status last) "finished");
      [contradiction | reflexivity].
Qed.

Lemma refusals_and_errors_witness :
  TestRun_start Scenario.obliging 5 Scenario.smoke [("config", 3)] None
    Scenario.fresh = (inl (KeyError "cluster_id"), Scenario.fresh) /\
  TestRun_restart Scenario.obliging 5 (Scenario.run7 "running" None)
    (Some ["net"]) Scenario.in_flight = (inr EmptyDict, Scenario.in_flight).
Proof.
  split.
  - apply (proj1 (refusals_and_errors Scenario.obliging 5 Scenario.fresh)).
    reflexivity.
  - apply (proj2 (proj2 (proj2
             (refusals_and_errors Scenario.obliging 5 Scenario.in_flight)))
             (Scenario.run7 "running" None) (Some ["net"])
             (Scenario.run7 "running" None)).
    + intros r1 r2 [<-|[]] [<-|[]] _. reflexivity.
    + split; [left; reflexivity|]. split; [reflexivity|].
      intros r' [<-|[]] _. reflexivity.
    + discriminate.
Defined.



(** **** One active run per pair *)

Definition same_pair (r r' : TestRunRow) : Prop :=
  tr_cluster_id r = tr_cluster_id r' /\ tr_test_set_id r = tr_test_set_id r'.

(** Every run that has a more recent run in its pair is finished. *)
Definition superseded_finished (w : World) : Prop :=
  forall r r', In r (test_runs w) -> In r' (test_runs w) -> same_pair r r' ->
    id_ltb (tr_id r) (tr_id r') = true -> tr_status r = "finished".

(** At most one run of a pair is not finished. *)
Definition one_active (w : World) : Prop :=
  forall r r', In r (test_runs w) -> In r' (test_runs w) -> same_pair r r' ->
    tr_status r <> "finished" -> tr_status r' <> "finished" -> r = r'.

Lemma superseded_one_active w :
  primary_key w -> superseded_finished w -> one_active w.
Proof.
  intros Hpk Hsup r r' Hr Hr' Hpair Hn Hn'.
  apply Hpk; try assumption. apply id_ltb_antisym.
  - destruct (id_ltb (tr_id r) (tr_id r')) eqn:E; [|reflexivity].
    exfalso. apply Hn. exact (Hsup r r' Hr Hr' Hpair E).
  - destruct (id_ltb (tr_id r') (tr_id r)) eqn:E; [|reflexivity].
    exfalso. apply Hn'. destruct Hpair as [P1 P2].
    apply (Hsup r' r Hr' Hr); [split; congruence | exact E].
Qed.

Lemma started_superseded_finished now test_set c tests_arg w :
  primary_key w -> ids_below_seq w -> superseded_finished w ->
  TestRun_is_last_running w (Some (ts_id test_set)) c = true ->
  superseded_finished (started now test_set c tests_arg w).
Proof.
  intros Hpk Hids Hsup Hlast r r' Hr Hr' Hpair Hlt.
  cbn [started test_runs] in Hr, Hr'. apply in_app_iff in Hr, Hr'.
  destruct Hr as [Hr|[<-|[]]], Hr' as [Hr'|[<-|[]]].
  - exact (Hsup r r' Hr Hr' Hpair Hlt).
  - assert (Hp : of_pair (Some (ts_id test_set)) c r = true).
    { apply of_pair_true. destruct Hpair as [P1 P2]. cbn in P1, P2.
      split; assumption. }
    apply (is_last_running_iff w _ _ Hpk) in Hlast.
    destruct Hlast as [Hnone | [l [[Hl [Hlp Hmax]] Hfin]]].
    + rewrite (Hnone r Hr) in Hp. discriminate.
    + destruct (id_ltb (tr_id r) (tr_id l)) eqn:E.
      * apply (Hsup r l Hr Hl); [|exact E].
        apply of_pair_true in Hp, Hlp. destruct Hp, Hlp.
        split; congruence.
      * assert (r = l) as ->; [|exact Hfin].
        apply Hpk; try assumption.
        apply id_ltb_antisym; [exact E | now apply Hmax].
  - exfalso. destruct (Hids r' Hr') as [i [Hi Hb]].
    rewrite Hi in Hlt. cbn in Hlt. apply Z.ltb_lt in Hlt. lia.
  - rewrite id_ltb_irrefl in Hlt. discriminate.
Qed.

(** [start] keeps the pairs exclusive.  On a session with unique ids below
    the id sequence, in which every run superseded in its pair is finished,
    the same holds after [start], whatever it answers; hence no pair ever
    has two unfinished runs. *)
Theorem start_keeps_one_active (get_plugin : option string -> Plugin)
  (now : Z) (test_set : TestSetRow) (metadata : list (string * Z))
  (tests_arg : option (list string)) (w : World) :
  primary_key w -> ids_below_seq w -> superseded_finished w ->
  let w' := snd (TestRun_start get_plugin now test_set metadata tests_arg w) in
  primary_key w' /\ ids_below_seq w' /\ superseded_finished w' /\
  one_active w'.
Proof.
  intros Hpk Hids Hsup w'.
  assert (H : primary_key w' /\ ids_below_seq w' /\ superseded_finished w').
  { subst w'. destruct (dict_get metadata "cluster_id") as [c|] eqn:Hc.
    - destruct (TestRun_is_last_running w (Some (ts_id test_set)) c) eqn:Hl.
      + destruct (start_open_runs get_plugin now test_set metadata
                    tests_arg w c Hc Hl) as [Hruns Hseq].
        pose proof (started_primary_key now test_set c tests_arg w Hpk Hids)
          as P1.
        pose proof (started_ids_below_seq now test_set c tests_arg w Hids)
          as P2.
        pose proof (started_superseded_finished now test_set c tests_arg w
                      Hpk Hids Hsup Hl) as P3.
        unfold primary_key, ids_below_seq, superseded_finished in *.
        rewrite Hruns, Hseq. auto.
      + rewrite (start_refused _ _ _ _ _ _ _ Hc Hl). auto.
    - rewrite (start_missing_cluster_id _ _ _ _ _ _ Hc). auto. }
  destruct H as [H1 [H2 H3]]. repeat split; try assumption.
  now apply superseded_one_active.
Qed.

Lemma start_keeps_one_active_witness :
  one_active (snd (TestRun_start Scenario.obliging 9 Scenario.smoke
                     [("cluster_id", 2)] None three_runs)).
Proof.
  apply (start_keeps_one_active Scenario.obliging 9 Scenario.smoke
           [("cluster_id", 2)] None three_runs
           three_runs_primary_key three_runs_ids_below_seq).
  intros r r' Hr Hr' [P1 P2]. cbn in Hr, Hr'.
  destruct Hr as [<-|[<-|[<-|[]]]], Hr' as [<-|[<-|[<-|[]]]];
    cbn in *; intros H; try reflexivity; discriminate.
Defined.

(** Rewriting the row of id [i] by a row with the same id, cluster and test
    set. *)
Lemma update_where_same_keys rows i self1 r :
  tr_id self1 = Some i ->
  In r (update_where (has_id i) (fun _ => self1) rows) ->
  r = self1 \/ (In r rows /\ has_id i r = false).
Proof.
  intros Hid Hr. apply update_where_In in Hr. destruct Hr as [row [Hin ->]].
  destruct (has_id i row) eqn:E; [left; reflexivity | right; auto].
Qed.

Lemma has_id_true i r : has_id i r = true <-> tr_id r = Some i.
Proof.
  unfold has_id. destruct (tr_id r) as [j|]; cbn.
  - rewrite Z.eqb_eq. split; congruence.
  - split; discriminate.
Qed.

Lemma update_test_runs_of_persistent now self status w i :
  tr_id self = Some i -> In self (test_runs w) ->
  let self1 :=
    if String.eqb status "finished"
    then set_tr_ended_at (Some now) (set_tr_status status self)
    else set_tr_status status self in
  TestRun_update now self status w =
    (inr self1,
     with_test_runs (update_where (has_id i) (fun _ => self1) (test_runs w))
       (test_runs_seq w) w).
Proof.
  intros Hid Hin self1. unfold TestRun_update. fold self1.
  unfold session_add_test_run.
  assert (Hid1 : tr_id self1 = Some i)
    by (subst self1; destruct (String.eqb status "finished"); exact Hid).
  rewrite Hid1.
  assert (Hex : existsb (has_id i) (test_runs w) = true).
  { apply existsb_exists. exists self. split; [exact Hin|].
    now apply has_id_true. }
  rewrite Hex. reflexivity.
Qed.

(** [restart] of the most recent run of its pair keeps the pairs exclusive:
    under the same conditions as for [start], every run superseded in its
    pair is still finished afterwards, and no pair has two unfinished
    runs. *)
Theorem restart_last_keeps_one_active (get_plugin : option string -> Plugin)
  (now : Z) (self : TestRunRow) (tests_arg : option (list string))
  (w : World) :
  primary_key w -> ids_below_seq w -> superseded_finished w ->
  most_recent w (tr_test_set_id self) (tr_cluster_id self) self ->
  let w' := snd (TestRun_restart get_plugin now self tests_arg w) in
  primary_key w' /\ ids_below_seq w' /\ superseded_finished w' /\
  one_active w'.
Proof.
  intros Hpk Hids Hsup [Hin [_ Hmax]] w'.
  destruct (Hids self Hin) as [i [Hid Hlt]].
  assert (Hruns :
    test_runs w' = test_runs w \/
    test_runs w' =
      update_where (has_id i) (fun _ => set_tr_status "running" self)
        (test_runs w)).
  { subst w'.
    destruct (restart_test_runs get_plugin now self tests_arg w) as [E|E];
      [left; exact E | right].
    rewrite E.
    rewrite (update_test_runs_of_persistent now self "running" w i Hid Hin).
    reflexivity. }
  assert (Hseq : test_runs_seq w' = test_runs_seq w).
  { subst w'. unfold TestRun_restart, bind, get.
    destruct (TestRun_is_last_running w _ _); [|reflexivity].
    destruct (tr_test_set w self) as [test_set|]; [|reflexivity].
    rewrite (update_test_runs_of_persistent now self "running" w i Hid Hin).
    destruct tests_arg as [[|name rest]|]; reflexivity. }
  assert (H : primary_key w' /\ ids_below_seq w' /\ superseded_finished w').
  { unfold primary_key, ids_below_seq, superseded_finished.
    rewrite Hseq.
    destruct Hruns as [-> | ->]; [auto|].
    set (self1 := set_tr_status "running" self).
    assert (Hid1 : tr_id self1 = Some i) by exact Hid.
    assert (Hold : forall r,
              In r (update_where (has_id i) (fun _ => self1) (test_runs w)) ->
              exists r0, In r0 (test_runs w) /\ tr_id r0 = tr_id r /\
                same_pair r0 r /\ (r = self1 /\ r0 = self \/ r = r0)).
    { intros r Hr.
      destruct (update_where_same_keys _ _ _ _ Hid1 Hr) as [->|[Hr0 _]].
      - exists self. repeat split; auto; congruence.
      - exists r. repeat split; auto. }
    split; [|split].
    - intros r1 r2 H1 H2 Heq.
      destruct (update_where_same_keys _ _ _ _ Hid1 H1) as [->|[H1' N1]];
        destruct (update_where_same_keys _ _ _ _ Hid1 H2) as [->|[H2' N2]];
        try reflexivity.
      + rewrite Hid1 in Heq. symmetry in Heq.
        apply has_id_true in Heq. congruence.
      + rewrite Hid1 in Heq. apply has_id_true in Heq. congruence.
      + now apply Hpk.
    - intros r Hr. destruct (Hold r Hr) as [r0 [Hr0 [E _]]].
      rewrite <- E. now apply Hids.
    - intros r r' Hr Hr' Hpair Hltb.
      destruct (Hold r Hr) as [r0 [Hr0 [E0 [P0 Hcase]]]].
      destruct (Hold r' Hr') as [r0' [Hr0' [E0' [P0' _]]]].
      assert (Hpair0 : same_pair r0 r0').
      { destruct Hpair, P0, P0'. split; congruence. }
      destruct Hcase as [[-> ->] | ->].
      + exfalso. rewrite <- E0' in Hltb.
        change (tr_id self1) with (tr_id self) in Hltb.
        rewrite Hmax in Hltb; [discriminate | exact Hr0'|].
        apply of_pair_true. destruct Hpair0. split; congruence.
      + apply (Hsup r0 r0' Hr0 Hr0' Hpair0). now rewrite E0'. }
  destruct H as [H1 [H2 H3]]. repeat split; try assumption.
  now apply superseded_one_active.
Qed.

Lemma restart_last_keeps_one_active_witness :
  one_active (snd (TestRun_restart Scenario.obliging 60
                     (Scenario.run7 "finished" (Some 50)) (Some ["disk"])
                     Scenario.finished)).
Proof.
  apply (restart_last_keeps_one_active Scenario.obliging 60
           (Scenario.run7 "finished" (Some 50)) (Some ["disk"])
           Scenario.finished).
  - intros r1 r2 [<-|[]] [<-|[]] _. reflexivity.
  - intros r [<-|[]]. exists 7. split; [reflexivity | cbn; lia].
  - intros r r' [<-|[]] [<-|[]] _ H. discriminate H.
  - split; [left; reflexivity|]. split; [reflexivity|].
    intros r' [<-|[]] _. reflexivity.
Defined.

(** **** [update] and [update_test_run] *)

Lemma find_update_where_same rows i self1 :
  tr_id self1 = Some i ->
  (exists r, In r rows /\ tr_id r = Some i) ->
  find (has_id i) (update_where (has_id i) (fun _ => self1) rows) = Some self1.
Proof.
  intros Hid1 [r [Hin Hid]]. unfold update_where.
  induction rows as [|r0 rows IH]; [contradiction|]. cbn.
  destruct (has_id i r0) eqn:E.
  - rewrite (proj2 (has_id_true i self1) Hid1). reflexivity.
  - rewrite E. apply IH. destruct Hin as [->|Hin]; [|exact Hin].
    apply has_id_true in Hid. congruence.
Qed.

Lemma find_update_where_other rows i j self1 :
  tr_id self1 = Some i -> j <> i ->
  find (has_id j) (update_where (has_id i) (fun _ => self1) rows) =
  find (has_id j) rows.
Proof.
  intros Hid1 Hne. unfold update_where.
  induction rows as [|r0 rows IH]; [reflexivity|]. cbn.
  destruct (has_id i r0) eqn:E.
  - assert (Hj1 : has_id j self1 = false).
    { unfold has_id. rewrite Hid1. cbn. apply Z.eqb_neq. congruence. }
    assert (Hj0 : has_id j r0 = false).
    { apply has_id_true in E. unfold has_id. rewrite E. cbn.
      apply Z.eqb_neq. congruence. }
    rewrite Hj1, Hj0. exact IH.
  - destruct (has_id j r0); [reflexivity | exact IH].
Qed.

(** [update] is read back by [get_test_run].  For a run of the session,
    [update] with a status makes [get_test_run] return, for the run's id, the
    run with that status, its [ended_at] set to the time of the call if the
    status is ['finished'] and left alone otherwise; every other id reads as
    before, and the records in [tests] are not touched. *)
Theorem update_then_get_test_run (now : Z) (self : TestRunRow)
  (status : string) (w : World) (i : Z) :
  tr_id self = Some i -> In self (test_runs w) ->
  let w' := snd (TestRun_update now self status w) in
  (exists self',
     TestRun_get_test_run w' i false = Some self' /\
     fst (TestRun_update now self status w) = inr self' /\
     tr_status self' = status /\
     tr_ended_at self' =
       (if String.eqb status "finished" then Some now
        else tr_ended_at self) /\
     tr_started_at self' = tr_started_at self /\
     tr_cluster_id self' = tr_cluster_id self /\
     tr_test_set_id self' = tr_test_set_id self) /\
  (forall j, j <> i ->
     TestRun_get_test_run w' j false = TestRun_get_test_run w j false) /\
  tests w' = tests w /\ length (test_runs w') = length (test_runs w).
Proof.
  intros Hid Hin w'. subst w'.
  rewrite (update_test_runs_of_persistent now self status w i Hid Hin).
  cbn [fst snd]. unfold TestRun_get_test_run.
  cbn [with_test_runs test_runs tests].
  set (self1 := if String.eqb status "finished"
                then set_tr_ended_at (Some now) (set_tr_status status self)
                else set_tr_status status self).
  assert (Hid1 : tr_id self1 = Some i)
    by (subst self1; destruct (String.eqb status "finished"); exact Hid).
  split; [|split; [|split]].
  - exists self1. split.
    + apply find_update_where_same; [exact Hid1|]. exists self. auto.
    + subst self1. destruct (String.eqb status "finished");
        cbn; repeat split.
  - intros j Hne. now apply find_update_where_other.
  - reflexivity.
  - apply update_where_length.
Qed.

Lemma update_then_get_test_run_witness :
  exists self',
    TestRun_get_test_run
      (snd (TestRun_update 90 (Scenario.run7 "running" None) "finished"
              Scenario.in_flight)) 7 false = Some self' /\
    tr_status self' = "finished" /\ tr_ended_at self' = Some 90.
Proof.
  destruct (proj1 (update_then_get_test_run 90
                     (Scenario.run7 "running" None) "finished"
                     Scenario.in_flight 7 eq_refl (or_introl eq_refl)))
    as [self' [Hget [_ [Hs [He _]]]]].
  exists self'. repeat split; assumption.
Defined.

(** The class method [update_test_run] and the method [update] agree: for
    the run that [get_test_run] returns for an id, and a status that is not
    the empty string, both leave the same session. *)
Theorem update_test_run_as_update (now : Z) (i : Z) (status : string)
  (self : TestRunRow) (w : World) :
  primary_key w ->
  TestRun_get_test_run w i false = Some self ->
  status <> ""%string ->
  snd (TestRun_update_test_run now i (Some status) w) =
  snd (TestRun_update now self status w).
Proof.
  intros Hpk Hget Hne. unfold TestRun_get_test_run in Hget.
  pose proof (find_some _ _ Hget) as [Hin Hid]. apply has_id_true in Hid.
  rewrite (update_test_runs_of_persistent now self status w i Hid Hin).
  cbn [snd TestRun_update_test_run modify]. f_equal.
  unfold update_where. apply map_ext_in. intros r Hr.
  destruct (has_id i r) eqn:E; [|reflexivity].
  assert (r = self) as ->.
  { apply Hpk; try assumption. apply has_id_true in E. congruence. }
  destruct status as [|a s]; [contradiction|].
  cbn [opt_eqb]. destruct (String.eqb (String a s) "finished"); reflexivity.
Qed.

Lemma update_test_run_as_update_witness :
  snd (TestRun_update_test_run 90 7 (Some "finished") Scenario.in_flight) =
  snd (TestRun_update 90 (Scenario.run7 "running" None) "finished"
         Scenario.in_flight).
Proof.
  apply (update_test_run_as_update 90 7 "finished"
           (Scenario.run7 "running" None) Scenario.in_flight).
  - intros r1 r2 [<-|[]] [<-|[]] _. reflexivity.
  - reflexivity.
  - discriminate.
Defined.

(** **** [stop] twice *)

(** After a [stop] that the runner confirms, no record of the run is
    ['running'] or ['wait_running'] any more, so a second [stop] finds
    nothing to change in [tests], whatever the runner answers then. *)
Theorem stop_leaves_none_in_flight (get_plugin : option string -> Plugin)
  (self : TestRunRow) (w : World) (test_set : TestSetRow) :
  tr_test_set w self = Some test_set ->
  kill (get_plugin (ts_driver test_set)) (tr_id self) (tr_cluster_id self)
    (ts_cleanup_path test_set) = true ->
  let w' := snd (TestRun_stop get_plugin self w) in
  (forall t, In t (tests w') -> in_flight self t = false) /\
  (forall get_plugin',
     tests (snd (TestRun_stop get_plugin' self w')) = tests w').
Proof.
  intros Hts Hk w'.
  assert (Hw' : tests w' =
                update_where (in_flight self) (set_t_status (Some "stopped"))
                  (tests w) /\ test_sets w' = test_sets w).
  { subst w'. unfold TestRun_stop, bind, get. rewrite Hts, Hk.
    split; reflexivity. }
  destruct Hw' as [Htests Hsets].
  assert (Hnone : forall t, In t (tests w') -> in_flight self t = false).
  { intros t Ht. rewrite Htests in Ht. apply update_where_In in Ht.
    destruct Ht as [row [_ ->]].
    destruct (in_flight self row) eqn:E; [|exact E].
    unfold in_flight. cbn. apply andb_false_r. }
  split; [exact Hnone|].
  intros get_plugin'. unfold TestRun_stop, bind, get.
  assert (Hts' : tr_test_set w' self = Some test_set).
  { unfold tr_test_set, TestSet_get_test_set in *. now rewrite Hsets. }
  rewrite Hts'.
  destruct (kill (get_plugin' (ts_driver test_set)) (tr_id self)
              (tr_cluster_id self) (ts_cleanup_path test_set));
    [|reflexivity].
  cbn [modify ret fst snd Test_update_running_tests call_plugin with_tests
       tests tests_seq].
  apply update_where_none. exact Hnone.
Qed.

Lemma stop_leaves_none_in_flight_witness :
  tests (snd (TestRun_stop Scenario.obliging (Scenario.run7 "running" None)
                (snd (TestRun_stop Scenario.obliging
                        (Scenario.run7 "running" None)
                        Scenario.in_flight)))) =
  tests (snd (TestRun_stop Scenario.obliging (Scenario.run7 "running" None)
                Scenario.in_flight)).
Proof.
  exact (proj2 (stop_leaves_none_in_flight Scenario.obliging
                  (Scenario.run7 "running" None) Scenario.in_flight
                  Scenario.smoke eq_refl eq_refl) Scenario.obliging).
Defined.

(** **** [add_result]: repeated and successive results *)

(** A row is its thirteen columns. *)
Lemma row_ext t t' : (forall c, getattr t c = getattr t' c) -> t = t'.
Proof.
  intros H. destruct t, t'.
  pose proof (H c_id) as H1. pose proof (H c_name) as H2.
  pose proof (H c_title) as H3. pose proof (H c_description) as H4.
  pose proof (H c_duration) as H5. pose proof (H c_message) as H6.
  pose proof (H c_traceback) as H7. pose proof (H c_status) as H8.
  pose proof (H c_step) as H9. pose proof (H c_time_taken) as H10.
  pose proof (H c_meta) as H11. pose proof (H c_test_set_id) as H12.
  pose proof (H c_test_run_id) as H13.
  cbn in *. congruence.
Qed.

Lemma supplied_app d1 d2 c :
  supplied (d1 ++ d2) c =
  match supplied d2 c with Some v => Some v | None => supplied d1 c end.
Proof.
  unfold supplied. rewrite rev_app_distr.
  induction (rev d2) as [|a l IH]; cbn; [destruct (option_map _ _); auto|].
  destruct (column_eqb (key_of a) c); [reflexivity | exact IH].
Qed.

Lemma assign_all_app d1 d2 t :
  assign_all (d1 ++ d2) t = assign_all d2 (assign_all d1 t).
Proof. unfold assign_all. apply fold_left_app. Qed.

Lemma assign_all_twice data t :
  assign_all data (assign_all data t) = assign_all data t.
Proof.
  apply row_ext. intros c. rewrite !getattr_assign_all.
  destruct (supplied data c); reflexivity.
Qed.

Lemma result_of_columns i n t t' :
  getattr t' c_name = getattr t c_name ->
  getattr t' c_test_run_id = getattr t c_test_run_id ->
  result_of i n t' = result_of i n t.
Proof.
  unfold result_of. cbn. intros H1 H2.
  injection H1 as ->. injection H2 as ->. reflexivity.
Qed.

(** Delivering the same result twice is the same as delivering it once:
    a second [add_result] with the same run id, name and data leaves the
    session as the first one left it. *)
Theorem add_result_idempotent (test_run_id : option Z)
  (test_name : option string) (data : list assignment) (w : World) :
  snd (Test_add_result test_run_id test_name data
         (snd (Test_add_result test_run_id test_name data w))) =
  snd (Test_add_result test_run_id test_name data w).
Proof.
  cbn. unfold with_tests. cbn. f_equal.
  unfold update_where. rewrite map_map. apply map_ext. intros t.
  fold (result_of test_run_id test_name t).
  destruct (result_of test_run_id test_name t) eqn:E.
  - fold (result_of test_run_id test_name (assign_all data t)).
    destruct (result_of test_run_id test_name (assign_all data t));
      [apply assign_all_twice | reflexivity].
  - fold (result_of test_run_id test_name t). now rewrite E.
Qed.

(** The data of a result names neither the name nor the run of the
    record. *)
Definition keeps_key (data : list assignment) : Prop :=
  supplied data c_name = None /\ supplied data c_test_run_id = None.

(** Two results for the same record, one after the other, amount to one
    result with both sets of columns, the later values winning where both
    name a column, as long as the first does not rename the record or move
    it to another run. *)
Theorem add_result_twice (test_run_id : option Z) (test_name : option string)
  (data1 data2 : list assignment) (w : World) :
  keeps_key data1 ->
  snd (Test_add_result test_run_id test_name data2
         (snd (Test_add_result test_run_id test_name data1 w))) =
  snd (Test_add_result test_run_id test_name (data1 ++ data2) w) /\
  forall c, supplied (data1 ++ data2) c =
            match supplied data2 c with
            | Some v => Some v
            | None => supplied data1 c
            end.
Proof.
  intros [Hn Hr]. split; [|intros c; apply supplied_app].
  cbn. unfold with_tests. cbn. f_equal.
  unfold update_where. rewrite map_map. apply map_ext. intros t.
  fold (result_of test_run_id test_name t).
  assert (Hsame : result_of test_run_id test_name (assign_all data1 t) =
                  result_of test_run_id test_name t).
  { apply result_of_columns; rewrite getattr_assign_all.
    - now rewrite Hn.
    - now rewrite Hr. }
  destruct (result_of test_run_id test_name t) eqn:E.
  - fold (result_of test_run_id test_name (assign_all data1 t)).
    rewrite Hsame. now rewrite assign_all_app.
  - fold (result_of test_run_id test_name t). now rewrite E.
Qed.

Lemma add_result_twice_witness :
  snd (Test_add_result (Some 7) (Some "disk")
         [set_status (Some "failure"); set_message (Some "no space")]
         (snd (Test_add_result (Some 7) (Some "disk")
                 [set_status (Some "running"); set_step (Some 1)]
                 Scenario.in_flight))) =
  snd (Test_add_result (Some 7) (Some "disk")
         [set_status (Some "running"); set_step (Some 1);
          set_status (Some "failure"); set_message (Some "no space")]
         Scenario.in_flight).
Proof.
  apply (proj1 (add_result_twice (Some 7) (Some "disk")
                  [set_status (Some "running"); set_step (Some 1)]
                  [set_status (Some "failure"); set_message (Some "no space")]
                  Scenario.in_flight (conj eq_refl eq_refl))).
Defined.

(** **** The records of a snapshot *)

Lemma insert_by_name_perm t l : Permutation (insert_by_name t l) (t :: l).
Proof.
  induction l as [|u l IH]; cbn; [apply Permutation_refl|].
  destruct (name_leb (t_name t) (t_name u)); [apply Permutation_refl|].
  eapply Permutation_trans; [apply perm_skip; exact IH | apply perm_swap].
Qed.

Lemma order_by_name_perm l : Permutation (order_by_name l) l.
Proof.
  unfold order_by_name. induction l as [|t l IH]; cbn; [constructor|].
  eapply Permutation_trans; [apply insert_by_name_perm|].
  now apply perm_skip.
Qed.

Definition by_name (t u : TestRow) : Prop :=
  name_leb (t_name t) (t_name u) = true.

Lemma name_leb_total a b : name_leb a b = false -> name_leb b a = true.
Proof.
  destruct a as [x|], b as [y|]; cbn; try reflexivity; try discriminate.
  intros H. destruct (String.leb_total x y) as [E|E]; congruence.
Qed.

Lemma insert_by_name_sorted t l :
  Sorted by_name l -> Sorted by_name (insert_by_name t l).
Proof.
  induction l as [|u l IH]; intros Hs; cbn.
  - repeat constructor.
  - destruct (name_leb (t_name t) (t_name u)) eqn:E.
    + constructor; [exact Hs|]. constructor. exact E.
    + inversion Hs as [|? ? Hs' Hhd]; subst.
      constructor; [now apply IH|].
      destruct l as [|v l]; cbn.
      * constructor. now apply name_leb_total.
      * destruct (name_leb (t_name t) (t_name v)).
        -- constructor. now apply name_leb_total.
        -- inversion Hhd; subst. now constructor.
Qed.

Lemma order_by_name_sorted l : Sorted by_name (order_by_name l).
Proof.
  unfold order_by_name. induction l as [|t l IH]; cbn; [constructor|].
  now apply insert_by_name_sorted.
Qed.

Lemma sorted_names l : forall names,
  Sorted by_name l -> map t_name l = map Some names ->
  Sorted (fun a b => String.leb a b = true) names.
Proof.
  induction l as [|t l IH]; intros names Hs Hmap.
  - destruct names; [constructor | discriminate].
  - destruct names as [|a names]; [discriminate|].
    cbn in Hmap. injection Hmap as Ha Hrest.
    inversion Hs as [|? ? Hs' Hhd]; subst.
    constructor; [now apply IH|].
    destruct l as [|u l]; destruct names as [|b names]; try discriminate;
      constructor.
    cbn in Hrest. injection Hrest as Hb _.
    inversion Hhd as [|? ? Hle]; subst. unfold by_name in Hle.
    now rewrite Ha, Hb in Hle.
Qed.

(** The snapshot of a run lists the records of the run and only them, each
    once, whatever their order in the table; when all of them have a name
    they come in the order of their names. *)
Theorem frontend_tests (w : World) (self : TestRunRow) (i : Z) :
  tr_id self = Some i ->
  let records :=
    filter (fun t => opt_eqb Z.eqb (t_test_run_id t) (Some i)) (tests w) in
  exists ordered,
    trf_tests (TestRun_frontend w self) = map Test_frontend ordered /\
    Permutation ordered records /\
    (forall t, In t ordered <-> In t (tests w) /\ t_test_run_id t = Some i) /\
    (forall names, map t_name ordered = map Some names ->
       Sorted (fun a b => String.leb a b = true) names).
Proof.
  intros Hid records. exists (tr_tests w self).
  assert (Htr : tr_tests w self = order_by_name records).
  { unfold tr_tests. rewrite Hid. reflexivity. }
  split; [reflexivity|]. rewrite Htr.
  split; [apply order_by_name_perm|]. split.
  - intros t. split.
    + intros Hin.
      apply (Permutation_in _ (order_by_name_perm records)) in Hin.
      apply filter_In in Hin. destruct Hin as [Hin Hrun].
      split; [exact Hin|].
      destruct (t_test_run_id t) as [j|]; cbn in Hrun; [|discriminate].
      apply Z.eqb_eq in Hrun. congruence.
    + intros [Hin Hrun].
      apply (Permutation_in _ (Permutation_sym (order_by_name_perm records))).
      apply filter_In. split; [exact Hin|]. rewrite Hrun. cbn.
      apply Z.eqb_refl.
  - intros names. apply sorted_names. apply order_by_name_sorted.
Qed.

Lemma frontend_tests_witness :
  exists ordered,
    trf_tests (TestRun_frontend Scenario.in_flight
                 (Scenario.run7 "running" None)) =
      map Test_frontend ordered /\
    Permutation ordered
      [Scenario.check 3 "net" "running" (Some 7);
       Scenario.check 4 "disk" "wait_running" (Some 7)].
Proof.
  destruct (frontend_tests Scenario.in_flight (Scenario.run7 "running" None)
              7 eq_refl) as [ordered [Hf [Hp _]]].
  exists ordered. split; [exact Hf | exact Hp].
Defined.

(** **** [enabled_tests] of a new run *)

Lemma in_names_In name names :
  in_names (Some name) names = true <-> In name names.
Proof.
  cbn. rewrite existsb_exists. split.
  - intros [x [Hin Heq]]. apply String.eqb_eq in Heq. now subst.
  - intros Hin. exists name. split; [exact Hin | apply String.eqb_refl].
Qed.

(** After a [start] that returns, on a session where no record is tied to
    the id the new run gets, [enabled_tests] of the new run holds exactly the
    names of the check definitions of the suite: every copy is
    ['wait_running'], so the filter on ['disabled'] leaves nothing out; and
    when checks were given, every name it holds is one of them. *)
Theorem enabled_tests_of_new_run (get_plugin : option string -> Plugin)
  (now : Z) (test_set : TestSetRow) (metadata : list (string * Z))
  (tests_arg : option (list string)) (w : World) (c : Z) :
  dict_get metadata "cluster_id" = Some c ->
  TestRun_is_last_running w (Some (ts_id test_set)) c = true ->
  (forall t, In t (tests w) -> t_test_run_id t <> Some (test_runs_seq w)) ->
  let out := TestRun_start get_plugin now test_set metadata tests_arg w in
  let w' := snd out in
  let test_run := new_run now (ts_id test_set) c "running" w in
  let enabled := match tests_arg with Some l => l | None => [] end in
  (exists res, fst out = inr res) ->
  forall name,
    (In (Some name) (TestRun_enabled_tests w' test_run) <->
     exists d, In d (tests w) /\ is_template (ts_id test_set) d = true /\
               t_name d = Some name) /\
    (In (Some name) (TestRun_enabled_tests w' test_run) ->
     enabled = [] \/ In name enabled).
Proof.
  intros Hc Hlast Hfresh out w' test_run enabled [res Hres] name.
  assert (Hall : every_check_enabled (ts_id test_set) enabled w = true).
  { destruct (every_check_enabled (ts_id test_set) enabled w) eqn:Hall;
      [reflexivity|].
    destruct (start_rejected get_plugin now test_set metadata tests_arg w c
                Hc Hlast Hall) as [Hraised _].
    fold out in Hraised. rewrite Hraised in Hres. discriminate. }
  assert (Hboth :
    In (Some name) (TestRun_enabled_tests w' test_run) <->
    (exists d, In d (tests w) /\ is_template (ts_id test_set) d = true /\
               t_name d = Some name) /\
    (enabled = [] \/ In name enabled)).
  { subst w' out.
    rewrite (start_accepted _ _ _ _ _ _ _ Hc Hlast Hall). cbn [snd].
    clear Hres.
    unfold TestRun_enabled_tests, tr_tests.
    cbn [tr_id new_run started tests]. fold test_run. fold enabled.
    set (cl := clones test_run (ts_id test_set) enabled w).
    rewrite filter_app.
    rewrite (filter_none _ (tests w)), (filter_all _ cl); cycle 1.
    { intros record Hr. subst cl. rewrite (clones_run _ _ _ _ _ Hr). cbn.
      apply Z.eqb_refl. }
    { intros t Ht. specialize (Hfresh t Ht).
      destruct (t_test_run_id t) as [j|]; [|reflexivity].
      cbn. apply Z.eqb_neq. intros ->. now apply Hfresh. }
    cbn [app].
    assert (Hclone : forall t, In t cl <->
              exists k d,
                nth_error (filter (is_template (ts_id test_set)) (tests w)) k
                  = Some d /\
                t = assign (set_id (Some (tests_seq w + Z.of_nat k)))
                      (Test_copy_test d test_run enabled)).
    { intros t. split.
      - intros Hin. apply In_nth_error in Hin. destruct Hin as [k Hk].
        assert (Hlt : (k < length (filter (is_template (ts_id test_set))
                                     (tests w)))%nat).
        { rewrite <- (clones_length test_run (ts_id test_set) enabled).
          apply nth_error_Some. fold cl. rewrite Hk. discriminate. }
        destruct (nth_error (filter (is_template (ts_id test_set)) (tests w)) k)
          as [d|] eqn:Hd; [|apply nth_error_None in Hd; lia].
        exists k, d. split; [exact Hd|].
        subst cl. rewrite (clones_nth _ _ _ _ _ _ Hd) in Hk. congruence.
      - intros [k [d [Hd ->]]]. subst cl.
        eapply nth_error_In. apply clones_nth. exact Hd. }
    rewrite in_map_iff. split.
    - intros [t [Hname Hin]]. apply filter_In in Hin.
      destruct Hin as [Hin Hnd].
      apply (Permutation_in _ (order_by_name_perm cl)) in Hin.
      apply Hclone in Hin. destruct Hin as [k [d [Hd ->]]].
      destruct (copy_test_columns d test_run enabled
                  (Some (tests_seq w + Z.of_nat k))) as [_ [_ [Hst Hcols]]].
      pose proof (Hcols c_name ltac:(discriminate) ltac:(discriminate)
                    ltac:(discriminate)) as Hn.
      cbn [getattr] in Hn. injection Hn as Hn.
      assert (Hname' : t_name d = Some name)
        by (rewrite <- Hname; symmetry; exact Hn).
      apply nth_error_In in Hd. apply filter_In in Hd. destruct Hd as [Hd Ht].
      split; [exists d; auto|].
      rewrite Hst in Hnd. rewrite Hname' in Hnd.
      destruct enabled as [|e0 rest]; [left; reflexivity | right].
      apply in_names_In.
      destruct (in_names (Some name) (e0 :: rest)); [reflexivity|].
      cbn in Hnd. discriminate.
    - intros [[d [Hd [Ht Hname]]] Hen].
      assert (Hdin : In d (filter (is_template (ts_id test_set)) (tests w)))
        by (apply filter_In; auto).
      apply In_nth_error in Hdin. destruct Hdin as [k Hk].
      set (t := assign (set_id (Some (tests_seq w + Z.of_nat k)))
                  (Test_copy_test d test_run enabled)).
      destruct (copy_test_columns d test_run enabled
                  (Some (tests_seq w + Z.of_nat k))) as [_ [_ [Hst Hcols]]].
      pose proof (Hcols c_name ltac:(discriminate) ltac:(discriminate)
                    ltac:(discriminate)) as Hn.
      cbn [getattr] in Hn. injection Hn as Hn. fold t in Hst.
      exists t. split; [rewrite <- Hname; exact Hn|].
      apply filter_In. split.
      + apply (Permutation_in _ (Permutation_sym (order_by_name_perm cl))).
        apply Hclone. exists k, d. auto.
      + rewrite Hst. rewrite Hname.
        destruct Hen as [-> | Hin]; [reflexivity|].
        apply in_names_In in Hin. rewrite Hin.
        destruct enabled; reflexivity. }
  split; [|intros Hin; now apply Hboth].
  rewrite Hboth. split; [now intros [Hd _]|].
  intros [d [Hd [Ht Hname]]]. split; [exists d; auto|].
  destruct enabled as [|e0 rest] eqn:Hen; [left; reflexivity | right].
  apply in_names_In. rewrite <- Hname.
  unfold every_check_enabled in Hall. rewrite forallb_forall in Hall.
  assert (Hdin : In d (filter (is_template (ts_id test_set)) (tests w)))
    by (apply filter_In; auto).
  specialize (Hall d Hdin). unfold disables in Hall. cbn in Hall.
  apply negb_true_iff in Hall. apply negb_false_iff in Hall. exact Hall.
Qed.

Lemma enabled_tests_of_new_run_witness :
  (exists res,
     fst (TestRun_start Scenario.obliging 5 Scenario.smoke
            [("cluster_id", 1)] (Some ["net"; "disk"]) Scenario.fresh) =
     inr res) /\
  In (Some "disk")
    (TestRun_enabled_tests
       (snd (TestRun_start Scenario.obliging 5 Scenario.smoke
               [("cluster_id", 1)] (Some ["net"; "disk"]) Scenario.fresh))
       (new_run 5 "smoke" 1 "running" Scenario.fresh)).
Proof.
  assert (Hret : exists res,
            fst (TestRun_start Scenario.obliging 5 Scenario.smoke
                   [("cluster_id", 1)] (Some ["net"; "disk"]) Scenario.fresh)
            = inr res) by (eexists; reflexivity).
  split; [exact Hret|].
  apply (enabled_tests_of_new_run Scenario.obliging 5 Scenario.smoke
           [("cluster_id", 1)] (Some ["net"; "disk"]) Scenario.fresh 1
           eq_refl eq_refl).
  - intros t [<-|[<-|[]]]; discriminate.
  - exact Hret.
  - exists Scenario.disk. split; [right; left; reflexivity|].
    split; reflexivity.
Defined.

End Storage.
